(** * Server manager ([run.py]): PID table, liveness probe, launch,
      termination, the commands and the command line.

    The development follows the script top-down:
    - [PyStr]   : the Python string and integer built-ins the script
                  relies on ([str.strip], [in], [str.split], [int],
                  [str], iteration over the lines of a text file);
    - [PidFile] : the dictionary of PIDs and the text of [.server_pids];
    - [Run]     : the script's functions over an explicit world (state
                  file, standard output, operating system), in a state
                  and exception monad;
    - [Posix]   : a machine to run it on: a process table with the
                  addressing rules of [kill(2)], listening ports, and
                  the fate of each launch;
    - [Cli]     : [print_usage], [cmd_logs] and [main] over one
                  invocation of the script.

    Text is modelled after decoding, as strings of characters with code
    points below 256; Python integers are [Z].  Integer/string
    conversions are exact on every integer (the interpreter's
    configurable cap on the number of digits, far above any PID, is not
    part of the model).  The state file is absent or holds a text:
    input/output errors on it, failures of [print] and signals that
    arrive from outside at other points than the blocking calls the
    script guards ([input], the foreground run and [tail]) are outside
    the model.  A signal that the script sends to itself is part of it:
    the script installs no handler, so [SIGTERM] ends it. *)

From Stdlib Require Import ZArith List String Ascii Bool Lia.
From Stdlib Require Import DecimalString DecimalPos DecimalZ.
Import ListNotations.

Local Open Scope string_scope.
Local Open Scope list_scope.
Local Open Scope Z_scope.

(* ===================================================================== *)
(** * Python strings and integers                                         *)
(* ===================================================================== *)

Module PyStr.

(** Code point of a character. *)
Definition ord (c : ascii) : Z := Z.of_N (N_of_ascii c).

(** [str.isspace] on one character, as [str.strip()] uses it: the ASCII
    controls 9-13 and 28-31, the space, NEL (133) and NBSP (160). *)
Definition isspace (c : ascii) : bool :=
  let n := ord c in
  ((9 <=? n) && (n <=? 13)) || ((28 <=? n) && (n <=? 32))
  || (n =? 133) || (n =? 160).

(** White space as [int()] skips it around a literal: the C-locale
    white space 9-13 and 32; NEL and NBSP are first rewritten to a
    space, the controls 28-31 are not. *)
Definition int_isspace (c : ascii) : bool :=
  let n := ord c in
  ((9 <=? n) && (n <=? 13)) || (n =? 32) || (n =? 133) || (n =? 160).

Definition isdigit (c : ascii) : bool :=
  let n := ord c in (48 <=? n) && (n <=? 57).

Definition digit_value (c : ascii) : Z := ord c - 48.

(** [chr(n)], for [n] below 256. *)
Definition chr (n : nat) : string := String (ascii_of_nat n) EmptyString.

Definition LF : ascii := ascii_of_nat 10.
Definition CR : ascii := ascii_of_nat 13.
Definition EQ : ascii := "="%char.

(** ** [str.strip()] *)

Fixpoint lstrip (s : string) : string :=
  match s with
  | String c r => if isspace c then lstrip r else s
  | EmptyString => EmptyString
  end.

(** Right strip: a character is dropped when it is white space and
    everything after it has been dropped. *)
Fixpoint rstrip (s : string) : string :=
  match s with
  | EmptyString => EmptyString
  | String c r =>
      match rstrip r with
      | EmptyString => if isspace c then EmptyString else String c EmptyString
      | r' => String c r'
      end
  end.

Definition strip (s : string) : string := rstrip (lstrip s).

(** ** [str.lower()]: the capital letters below code point 256 are
    A-Z and the Latin-1 capitals 192-222 without the sign 215. *)
Definition lower_char (c : ascii) : ascii :=
  let n := ord c in
  if ((65 <=? n) && (n <=? 90))
     || ((192 <=? n) && (n <=? 222) && negb (n =? 215))
  then ascii_of_N (Z.to_N (n + 32))
  else c.

Fixpoint lower (s : string) : string :=
  match s with
  | EmptyString => EmptyString
  | String c r => String (lower_char c) (lower r)
  end.

(** ** [c in s] for a one-character needle *)

Fixpoint contains (c : ascii) (s : string) : bool :=
  match s with
  | EmptyString => false
  | String d r => if Ascii.eqb c d then true else contains c r
  end.

(** ** [s.split(sep)] for a one-character separator: every occurrence
    splits, empty fields are kept, the result is never empty. *)
Fixpoint split (sep : ascii) (s : string) : list string :=
  match s with
  | EmptyString => [EmptyString]
  | String c r =>
      if Ascii.eqb c sep then EmptyString :: split sep r
      else match split sep r with
           | f :: fs => String c f :: fs
           | [] => [String c EmptyString]
           end
  end.

(** ** Iterating over a file opened in text mode

    Universal newlines: each of LF, CR LF and CR ends a line and is
    handed to the program as LF; a last line without terminator is
    yielded as it is. *)
Fixpoint readlines_from (cur : string -> string) (s : string) : list string :=
  match s with
  | EmptyString =>
      match cur EmptyString with
      | EmptyString => []
      | l => [l]
      end
  | String c r =>
      if Ascii.eqb c LF then
        cur (String LF EmptyString) :: readlines_from (fun x => x) r
      else if Ascii.eqb c CR then
        match r with
        | String d r' =>
            if Ascii.eqb d LF
            then cur (String LF EmptyString) :: readlines_from (fun x => x) r'
            else cur (String LF EmptyString) :: readlines_from (fun x => x) r
        | EmptyString => [cur (String LF EmptyString)]
        end
      else readlines_from (fun x => cur (String c x)) r
  end.

Definition readlines (s : string) : list string := readlines_from (fun x => x) s.

(** ** [int(s)] in base 10

    Grammar: white space, an optional sign, digits with single
    underscores between digits, white space.  [None] is [ValueError]. *)

(** Digits after the first one.  [after_us] records that the previous
    character was an underscore.  Returns the value and what follows. *)
Fixpoint scan_digits (acc : Z) (after_us : bool) (s : string) : option (Z * string) :=
  match s with
  | EmptyString => if after_us then None else Some (acc, EmptyString)
  | String c r =>
      if isdigit c then scan_digits (10 * acc + digit_value c) false r
      else if Ascii.eqb c "_"%char then
        if after_us then None else scan_digits acc true r
      else if after_us then None else Some (acc, s)
  end.

Definition scan_number (s : string) : option (Z * string) :=
  match s with
  | String c r => if isdigit c then scan_digits (digit_value c) false r else None
  | EmptyString => None
  end.

Fixpoint skip_int_space (s : string) : string :=
  match s with
  | String c r => if int_isspace c then skip_int_space r else s
  | EmptyString => EmptyString
  end.

Definition int (s : string) : option Z :=
  let s1 := skip_int_space s in
  let '(sign, s2) :=
    match s1 with
    | String c r =>
        if Ascii.eqb c "+"%char then (1, r)
        else if Ascii.eqb c "-"%char then (-1, r)
        else (1, s1)
    | EmptyString => (1, s1)
    end in
  match scan_number s2 with
  | Some (v, rest) =>
      match skip_int_space rest with
      | EmptyString => Some (sign * v)
      | _ => None
      end
  | None => None
  end.

(** ** [str(n)] for an integer: decimal, a minus sign when negative, no
    leading zeros. *)
Definition str (n : Z) : string := NilZero.string_of_int (Z.to_int n).

End PyStr.

(* ===================================================================== *)
(** * Exceptions                                                          *)
(* ===================================================================== *)

(** What ends a computation early.  The exceptions that can travel
    through the script: [OSError] carries the [errno]; Python raises it
    as the matching subclass ([ProcessLookupError] for [ESRCH],
    [PermissionError] for [EPERM]).  And [Killed sig], which is no
    exception: the script is among the receivers of a signal it sends
    and the default action of the signal ends the process there.  No
    [except] clause sees it and nothing of the script runs after it. *)
Inductive exn : Type :=
| ValueError
| OverflowError
| OSError (errno : Z)
| CalledProcessError (returncode : Z)
| EOFError
| KeyboardInterrupt
| Killed (sig : Z).

Definition EPERM : Z := 1.
Definition ESRCH : Z := 3.

(** [except OSError] *)
Definition is_OSError (e : exn) : bool :=
  match e with OSError _ => true | _ => false end.

(** [except ProcessLookupError] *)
Definition is_ProcessLookupError (e : exn) : bool :=
  match e with OSError n => n =? ESRCH | _ => false end.

(** [except Exception]: every exception but [KeyboardInterrupt], which
    derives from [BaseException] only. *)
Definition is_Exception (e : exn) : bool :=
  match e with KeyboardInterrupt | Killed _ => false | _ => true end.

Inductive result (A : Type) : Type :=
| Ok (a : A)
| Raise (e : exn).
Arguments Ok {A} a.
Arguments Raise {A} e.

(* ===================================================================== *)
(** * The PID table: dictionary and file text                             *)
(* ===================================================================== *)

Module PidFile.

(** A Python [dict] from names to PIDs: association list in insertion
    order, one binding per key. *)
Definition dict : Type := list (string * Z).

(** [d[k] = v]: an existing key keeps its position. *)
Fixpoint setitem (k : string) (v : Z) (d : dict) : dict :=
  match d with
  | [] => [(k, v)]
  | (k', v') :: r =>
      if String.eqb k' k then (k', v) :: r else (k', v') :: setitem k v r
  end.

(** [d[k]] *)
Fixpoint getitem (k : string) (d : dict) : option Z :=
  match d with
  | [] => None
  | (k', v) :: r => if String.eqb k' k then Some v else getitem k r
  end.

(** [k in d] *)
Definition mem (k : string) (d : dict) : bool :=
  match getitem k d with Some _ => true | None => false end.

(** Truth value of a dictionary: [if pids:] *)
Definition truthy (d : dict) : bool :=
  match d with [] => false | _ => true end.

Definition keys (d : dict) : list string := map fst d.

(** ** Reading: the body of the [for line in f] loop

    [line.strip()], then, when the line holds an [=]:
    [name, pid = line.split('=')] (exactly two fields, or [ValueError])
    and [pids[name] = int(pid)] ([ValueError] when [pid] is no integer
    literal). *)
Inductive line_outcome : Type :=
| Skipped
| Entry (name : string) (pid : Z)
| Fault (e : exn).

Definition parse_line (raw : string) : line_outcome :=
  let line := PyStr.strip raw in
  if PyStr.contains PyStr.EQ line then
    match PyStr.split PyStr.EQ line with
    | [name; pid] =>
        match PyStr.int pid with
        | Some n => Entry name n
        | None => Fault ValueError
        end
    | _ => Fault ValueError
    end
  else Skipped.

(** The loop: the dictionary built so far, and the exception that ended
    the loop early, if any. *)
Fixpoint read_entries (lines : list string) (pids : dict) : dict * option exn :=
  match lines with
  | [] => (pids, None)
  | l :: rest =>
      match parse_line l with
      | Skipped => read_entries rest pids
      | Entry name pid => read_entries rest (setitem name pid pids)
      | Fault e => (pids, Some e)
      end
  end.

Definition load_text (text : string) : dict * option exn :=
  read_entries (PyStr.readlines text) [].

(** ** Writing: [f.write(f"{name}={pid}\n")] for each item *)
Definition entry_line (kv : string * Z) : string :=
  (fst kv ++ String PyStr.EQ (PyStr.str (snd kv) ++ String PyStr.LF EmptyString))%string.

Fixpoint render (d : dict) : string :=
  match d with
  | [] => EmptyString
  | kv :: r => (entry_line kv ++ render r)%string
  end.

(** ** The file while [save_pids] runs

    [open(PID_FILE, 'w')] creates or truncates the file; every
    [f.write] goes to the buffer of the file object, and the buffer
    reaches the disk in order, in pieces of the buffer's choosing, the
    last of them when the [with] block closes the file.  [flushed] is
    the number of buffered characters that go to the disk at a write,
    left open. *)
Record wfile : Type := { on_disk : string; pending : string }.

(** The first [k] characters of [s], and the others. *)
Fixpoint split_at (k : nat) (s : string) : string * string :=
  match k, s with
  | S k', String c r => let '(a, b) := split_at k' r in (String c a, b)
  | _, _ => (EmptyString, s)
  end.

Definition fopen_w : wfile := {| on_disk := EmptyString; pending := EmptyString |}.

Definition fwrite (flushed : nat) (s : string) (f : wfile) : wfile :=
  let '(out, kept) := split_at flushed (pending f ++ s)%string in
  {| on_disk := (on_disk f ++ out)%string; pending := kept |}.

Definition fclose (f : wfile) : string := (on_disk f ++ pending f)%string.

(** What a reader of the path can find on disk, step by step: after the
    [open], after each [write], after the close. *)
Fixpoint disk_after_writes (flush : nat -> nat) (i : nat) (d : dict) (f : wfile)
  : list string :=
  match d with
  | [] => [fclose f]
  | kv :: r =>
      let f' := fwrite (flush i) (entry_line kv) f in
      on_disk f' :: disk_after_writes flush (S i) r f'
  end.

Definition disk_states (flush : nat -> nat) (d : dict) : list string :=
  on_disk fopen_w :: disk_after_writes flush 0%nat d fopen_w.

End PidFile.

(* ===================================================================== *)
(** * The operating system, as the script uses it                         *)
(* ===================================================================== *)

Inductive service : Type := Backend | Frontend.

Definition BACKEND_PORT : Z := 3001.
Definition FRONTEND_PORT : Z := 8080.

Definition SIGKILL : Z := 9.
Definition SIGTERM : Z := 15.

(** The answer of a signalling call: the signal went to at least one
    process, the caller itself among the receivers or not; or the call
    failed with an [errno]. *)
Inductive delivery : Type :=
| Delivered (to_caller : bool)
| Refused (errno : Z).

(** The system and library calls of the script.  Each one takes the
    state of the machine and returns its answer with the new state.
    System calls answer with an [errno] on failure. *)
Record OS : Type := {
  env : Type;
  (** [kill(pid, sig)] *)
  sys_kill : Z -> Z -> env -> delivery * env;
  (** [getpgid(pid)]: [inl errno] or [inr pgid] *)
  sys_getpgid : Z -> env -> (Z + Z) * env;
  (** [killpg(pgid, sig)] *)
  sys_killpg : Z -> Z -> env -> delivery * env;
  (** [socket.connect_ex(('localhost', port))]: 0 when connected *)
  sys_connect_ex : Z -> env -> Z * env;
  (** [time.sleep], in milliseconds *)
  sys_sleep : Z -> env -> env;
  (** [(BACKEND_DIR / "node_modules").exists()] *)
  node_modules_exists : env -> bool;
  (** [subprocess.run(["npm", "install"], cwd=BACKEND_DIR)]: the return
      code, or the exception of a failed spawn *)
  run_npm_install : env -> result Z * env;
  (** [open(LOG_FILE, 'w')] *)
  log_truncate : env -> env;
  (** [LOG_FILE.exists()] and the text of the log *)
  log_exists : env -> bool;
  log_read : env -> string;
  (** [subprocess.Popen] of a service in a new process group: the PID of
      the child, or the exception of a failed spawn *)
  popen : service -> env -> result positive * env;
  (** [process.poll()]: the return code once the child has exited *)
  poll : positive -> env -> option Z * env;
  (** [input(prompt)] *)
  read_input : env -> result string * env;
  (** [webbrowser.open(url)] *)
  browser_open : env -> env;
  (** [subprocess.run(["node", "server.js"], cwd=BACKEND_DIR)], which
      blocks until the backend exits or the user interrupts *)
  run_backend_foreground : env -> result Z * env
}.

(** [pid_t] is a C [int]: [os.kill], [os.getpgid] and [os.killpg] raise
    [OverflowError] on a Python integer outside its range, before any
    system call. *)
Definition PID_T_MIN : Z := - 2 ^ 31.
Definition PID_T_MAX : Z := 2 ^ 31 - 1.
Definition in_pid_t (pid : Z) : bool := (PID_T_MIN <=? pid) && (pid <=? PID_T_MAX).

(* ===================================================================== *)
(** * What the script prints                                              *)
(* ===================================================================== *)

(** The name shown by [stop_process]: [name.capitalize()] of a key of
    the table (kept symbolic), or a literal. *)
Inductive label : Type :=
| Capitalize (name : string)
| Literal (s : string).

(** The three values of [backend_status] / [frontend_status]:
    "Stopped", "Running (PID: ...)", "Port in use (unknown process)". *)
Inductive status : Type :=
| StatusStopped
| StatusRunning (pid : Z)
| StatusPortInUse.

Inductive command : Type := CmdStart | CmdStop | CmdStatus | CmdDev.

(** One constructor per [print] of the functions below, with the values
    the line is formatted from. *)
Inductive message : Type :=
| RuleBefore                          (* "\n" + "="*50 *)
| RuleAfter                           (* "="*50 + "\n" *)
| RuleAlone                           (* "\n" + "="*50 + "\n" *)
| WideRuleAfter                       (* "="*60 + "\n" *)
| Blank                               (* print() *)
| Title (c : command)                 (* "Starting Storyboard Generator", ... *)
| WarnPidFile (e : exn)               (* "Warning: Could not read PID file: {e}" *)
| StartingBackend                     (* "Starting backend server..." *)
| StartingFrontend                    (* "Starting frontend server..." *)
| PortBusy (s : service)              (* "Port {port} is already in use. ..." *)
| InstallingDeps                      (* "Installing backend dependencies..." *)
| BackendFailed                       (* "Backend failed to start!" *)
| LogContents (text : string)         (* print(f.read()) *)
| BackendStarted (pid : Z)            (* "Backend started on ... (PID: {pid})" *)
| LogsAt                              (* "Logs: {LOG_FILE}" *)
| ViewLogsHint                        (* "View logs: python run.py logs" *)
| FrontendFailed                      (* "Frontend server failed to start!" *)
| FrontendStarted (pid : Z)           (* "Frontend started on ... (PID: {pid})" *)
| NotRunning (name : label) (pid : Z) (* "{name} (PID: {pid}) is not running" *)
| Stopped (name : label) (pid : Z)    (* "Stopped {name} (PID: {pid})" *)
| AlreadyStopped (name : label) (pid : Z)
                                      (* "{name} (PID: {pid}) was already stopped" *)
| FailedToStop (name : label) (e : exn)
                                      (* "Failed to stop {name}: {e}" *)
| AllStarted                          (* "All servers started successfully!" *)
| OpenBrowserAt                       (* "Open your browser to: ..." *)
| BackendApiAt                        (* "Backend API: ..." *)
| StopHint                            (* "To stop the servers, run: ..." *)
| SomeFailed                          (* "Some servers failed to start. ..." *)
| NoServersTracked                    (* "No servers are tracked. ..." *)
| CheckingPorts                       (* "Checking ports..." *)
| PortInUseHint (port : Z)            (* "Port {port} is in use. Try: lsof ..." *)
| PortFree (port : Z)                 (* "Port {port} is free" *)
| ShutdownComplete                    (* "Shutdown complete" *)
| StatusLine (s : service) (st : status)
                                      (* "Backend  (port ...): {backend_status}" *)
| LogFileAt                           (* "Log file: {LOG_FILE}" *)
| StartingForeground                  (* "Starting backend server in foreground..." *)
| FrontendUrl                         (* "   Frontend: http://localhost:..." *)
| BackendUrl                          (* "   Backend:  http://localhost:..." *)
| PressCtrlC                          (* "   Press Ctrl+C to stop" *)
| BackendStopped.                     (* "Backend stopped" *)

(* ===================================================================== *)
(** * The script                                                          *)
(* ===================================================================== *)

Module Run.

Declare Scope run_scope.
Delimit Scope run_scope with run.

Section Monad.

Context {O : OS}.

(** The world of one invocation: the state file [.server_pids] (absent,
    or its text), what has been printed, and the machine. *)
Record world : Type := {
  pid_file : option string;
  stdout : list message;
  os : env O
}.

Definition set_pid_file (f : option string) (w : world) : world :=
  {| pid_file := f; stdout := stdout w; os := os w |}.

Definition set_os (e : env O) (w : world) : world :=
  {| pid_file := pid_file w; stdout := stdout w; os := e |}.

(** ** State and exception monad *)

Definition M (A : Type) : Type := world -> result A * world.

Definition ret {A : Type} (a : A) : M A := fun w => (Ok a, w).

Definition raise {A : Type} (e : exn) : M A := fun w => (Raise e, w).

Definition bind {A B : Type} (m : M A) (k : A -> M B) : M B :=
  fun w =>
    match m w with
    | (Ok a, w') => k a w'
    | (Raise e, w') => (Raise e, w')
    end.

(** [try: m  except ...:] where [handler e] is the body of the first
    clause that matches [e], if any. *)
Definition try_except {A : Type} (m : M A) (handler : exn -> option (M A)) : M A :=
  fun w =>
    match m w with
    | (Ok a, w') => (Ok a, w')
    | (Raise e, w') =>
        match handler e with
        | Some k => k w'
        | None => (Raise e, w')
        end
    end.

Definition when (b : bool) (m : M unit) : M unit := if b then m else ret tt.

Definition print (m : message) : M unit :=
  fun w => (Ok tt, {| pid_file := pid_file w; stdout := stdout w ++ [m]; os := os w |}).

(** Lifting the calls of the machine. *)
Definition call {A : Type} (f : env O -> A * env O) : M A :=
  fun w => let '(a, e) := f (os w) in (Ok a, set_os e w).

Definition call_result {A : Type} (f : env O -> result A * env O) : M A :=
  fun w => let '(r, e) := f (os w) in (r, set_os e w).

Definition effect (f : env O -> env O) : M unit :=
  fun w => (Ok tt, set_os (f (os w)) w).

Definition ask {A : Type} (f : env O -> A) : M A :=
  fun w => (Ok (f (os w)), w).

End Monad.

Arguments world : clear implicits.
Arguments M : clear implicits.

Notation "x <- m ;; k" := (bind m (fun x => k))
  (at level 61, m at next level, right associativity) : run_scope.
Notation "m ;; k" := (bind m (fun _ => k))
  (at level 61, right associativity) : run_scope.

Section Script.

Context {O : OS}.

Local Open Scope run_scope.

(** ** The [os] module *)

(** The script installs no signal handler: [SIGTERM] and [SIGKILL]
    end it when it is among their receivers; the null signal is never
    delivered. *)
Definition fatal (sig : Z) : bool := (sig =? SIGTERM) || (sig =? SIGKILL).

(** A signalling call returns, raises [OSError], or does not come back
    because the signal ended the script. *)
Definition signal_result (sig : Z) (d : delivery) : result unit :=
  match d with
  | Delivered to_caller => if to_caller && fatal sig then Raise (Killed sig) else Ok tt
  | Refused n => Raise (OSError n)
  end.

Definition os_kill (pid sig : Z) : M O unit :=
  if in_pid_t pid
  then call_result (fun e =>
         let '(d, e') := sys_kill O pid sig e in (signal_result sig d, e'))
  else raise OverflowError.

Definition os_getpgid (pid : Z) : M O Z :=
  if in_pid_t pid
  then call_result (fun e =>
         match sys_getpgid O pid e with
         | (inr pgid, e') => (Ok pgid, e')
         | (inl n, e') => (Raise (OSError n), e')
         end)
  else raise OverflowError.

Definition os_killpg (pgid sig : Z) : M O unit :=
  if in_pid_t pgid
  then call_result (fun e =>
         let '(d, e') := sys_killpg O pgid sig e in (signal_result sig d, e'))
  else raise OverflowError.

Definition sleep (ms : Z) : M O unit := effect (sys_sleep O ms).

(** ** [is_port_in_use] *)
Definition is_port_in_use (port : Z) : M O bool :=
  rc <- call (sys_connect_ex O port) ;;
  ret (rc =? 0).

(** ** [get_running_pids] *)
Definition get_running_pids : M O PidFile.dict :=
  fun w =>
    match pid_file w with
    | None => (Ok [], w)
    | Some text =>
        match PidFile.load_text text with
        | (pids, None) => (Ok pids, w)
        | (pids, Some e) =>
            if is_Exception e
            then (print (WarnPidFile e) ;; ret pids) w
            else (Raise e, w)
        end
    end.

(** ** [save_pids] *)
Definition save_pids (pids : PidFile.dict) : M O unit :=
  fun w => (Ok tt, set_pid_file (Some (PidFile.render pids)) w).

(** [if PID_FILE.exists(): PID_FILE.unlink()] *)
Definition remove_pid_file : M O unit :=
  fun w =>
    match pid_file w with
    | Some _ => (Ok tt, set_pid_file None w)
    | None => (Ok tt, w)
    end.

(** ** [is_process_running] *)
Definition is_process_running (pid : Z) : M O bool :=
  try_except (os_kill pid 0 ;; ret true)
             (fun e => if is_OSError e then Some (ret false) else None).

(** Truth value of the result of a launch: [if backend_pid:] *)
Definition pid_truthy (p : option Z) : bool :=
  match p with
  | Some n => negb (n =? 0)
  | None => false
  end.

(** ** [start_backend] *)
Definition start_backend : M O (option Z) :=
  print StartingBackend ;;
  busy <- is_port_in_use BACKEND_PORT ;;
  if busy then
    print (PortBusy Backend) ;;
    ret None
  else
    have_modules <- ask (node_modules_exists O) ;;
    when (negb have_modules)
      (print InstallingDeps ;;
       rc <- call_result (run_npm_install O) ;;
       if rc =? 0 then ret tt else raise (CalledProcessError rc)) ;;
    effect (log_truncate O) ;;
    child <- call_result (popen O Backend) ;;
    sleep 2000 ;;
    code <- call (poll O child) ;;
    match code with
    | Some _ =>
        print BackendFailed ;;
        text <- ask (log_read O) ;;
        print (LogContents text) ;;
        ret None
    | None =>
        print (BackendStarted (Zpos child)) ;;
        print LogsAt ;;
        print ViewLogsHint ;;
        ret (Some (Zpos child))
    end.

(** ** [start_frontend] *)
Definition start_frontend : M O (option Z) :=
  print StartingFrontend ;;
  busy <- is_port_in_use FRONTEND_PORT ;;
  if busy then
    print (PortBusy Frontend) ;;
    ret None
  else
    child <- call_result (popen O Frontend) ;;
    sleep 1000 ;;
    code <- call (poll O child) ;;
    match code with
    | Some _ =>
        print FrontendFailed ;;
        ret None
    | None =>
        print (FrontendStarted (Zpos child)) ;;
        ret (Some (Zpos child))
    end.

(** ** [stop_process]: the body of the [try] and the function *)
Definition stop_process_try (name : label) (pid : Z) : M O bool :=
  pgid <- os_getpgid pid ;;
  os_killpg pgid SIGTERM ;;
  sleep 1000 ;;
  alive <- is_process_running pid ;;
  when alive
    (pgid' <- os_getpgid pid ;;
     os_killpg pgid' SIGKILL ;;
     sleep 500) ;;
  print (Stopped name pid) ;;
  ret true.

Definition stop_process (name : label) (pid : Z) : M O bool :=
  alive <- is_process_running pid ;;
  if negb alive then
    print (NotRunning name pid) ;;
    ret true
  else
    try_except (stop_process_try name pid)
      (fun e =>
         if is_ProcessLookupError e then
           Some (print (AlreadyStopped name pid) ;; ret true)
         else if is_Exception e then
           Some (print (FailedToStop name e) ;; ret false)
         else None).

(** [if p: pids[key] = p] *)
Definition record_pid (key : string) (p : option Z) (pids : PidFile.dict) : PidFile.dict :=
  match p with
  | Some n => if pid_truthy p then PidFile.setitem key n pids else pids
  | None => pids
  end.

(** ** [cmd_start] *)
Definition cmd_start : M O unit :=
  print RuleBefore ;; print (Title CmdStart) ;; print RuleAfter ;;
  backend_pid <- start_backend ;;
  let pids := record_pid "backend" backend_pid [] in
  print Blank ;;
  frontend_pid <- start_frontend ;;
  let pids := record_pid "frontend" frontend_pid pids in
  when (PidFile.truthy pids) (save_pids pids) ;;
  print RuleBefore ;;
  (if PidFile.mem "backend" pids && PidFile.mem "frontend" pids then
     print AllStarted ;;
     print OpenBrowserAt ;;
     print BackendApiAt ;;
     print StopHint ;;
     try_except
       (response <- call_result (read_input O) ;;
        when (negb (String.eqb (PyStr.lower (PyStr.strip response)) "n"))
             (effect (browser_open O)))
       (fun e =>
          match e with
          | EOFError | KeyboardInterrupt => Some (ret tt)
          | _ => None
          end)
   else
     print SomeFailed) ;;
  print RuleAfter.

(** [for name, pid in pids.items(): stop_process(name.capitalize(), pid)] *)
Fixpoint stop_all (items : PidFile.dict) : M O unit :=
  match items with
  | [] => ret tt
  | (name, pid) :: rest =>
      stop_process (Capitalize name) pid ;;
      stop_all rest
  end.

Definition report_port (port : Z) : M O unit :=
  busy <- is_port_in_use port ;;
  if busy then print (PortInUseHint port) else print (PortFree port).

(** ** [cmd_stop] *)
Definition cmd_stop : M O unit :=
  print RuleBefore ;; print (Title CmdStop) ;; print RuleAfter ;;
  pids <- get_running_pids ;;
  (if negb (PidFile.truthy pids) then
     print NoServersTracked ;;
     print CheckingPorts ;;
     report_port BACKEND_PORT ;;
     report_port FRONTEND_PORT
   else
     stop_all pids ;;
     remove_pid_file) ;;
  print RuleBefore ;; print ShutdownComplete ;; print RuleAfter.

(** ** [cmd_restart] *)
Definition cmd_restart : M O unit :=
  cmd_stop ;;
  sleep 1000 ;;
  cmd_start.

(** The status of one service, which [cmd_status] spells out once for
    the backend and once for the frontend:
    [if key in pids and is_process_running(pids[key])] ...
    [elif is_port_in_use(port)] ... *)
Definition service_status (key : string) (port : Z) (pids : PidFile.dict) : M O status :=
  tracked_alive <-
    match PidFile.getitem key pids with
    | Some pid => is_process_running pid
    | None => ret false
    end ;;
  if tracked_alive then
    match PidFile.getitem key pids with
    | Some pid => ret (StatusRunning pid)
    | None => ret StatusStopped
    end
  else
    busy <- is_port_in_use port ;;
    if busy then ret StatusPortInUse else ret StatusStopped.

(** ** [cmd_status] *)
Definition cmd_status : M O unit :=
  print RuleBefore ;; print (Title CmdStatus) ;; print RuleAfter ;;
  pids <- get_running_pids ;;
  backend_status <- service_status "backend" BACKEND_PORT pids ;;
  print (StatusLine Backend backend_status) ;;
  frontend_status <- service_status "frontend" FRONTEND_PORT pids ;;
  print (StatusLine Frontend frontend_status) ;;
  have_log <- ask (log_exists O) ;;
  when have_log (print LogFileAt ;; print ViewLogsHint) ;;
  print RuleAlone.

(** ** [cmd_dev] *)
Definition cmd_dev : M O unit :=
  print RuleBefore ;; print (Title CmdDev) ;; print RuleAfter ;;
  frontend_pid <- start_frontend ;;
  when (pid_truthy frontend_pid)
       (save_pids (record_pid "frontend" frontend_pid [])) ;;
  print Blank ;;
  busy <- is_port_in_use BACKEND_PORT ;;
  if busy then
    print (PortBusy Backend)
  else
    have_modules <- ask (node_modules_exists O) ;;
    when (negb have_modules)
      (print InstallingDeps ;;
       rc <- call_result (run_npm_install O) ;;
       if rc =? 0 then ret tt else raise (CalledProcessError rc)) ;;
    print StartingForeground ;;
    print FrontendUrl ;;
    print BackendUrl ;;
    print PressCtrlC ;;
    print WideRuleAfter ;;
    try_except
      (call_result (run_backend_foreground O) ;; ret tt)
      (fun e =>
         match e with
         | KeyboardInterrupt =>
             Some (print BackendStopped ;;
                   match frontend_pid with
                   | Some pid =>
                       if pid_truthy frontend_pid then
                         alive <- is_process_running pid ;;
                         when alive (stop_process (Literal "Frontend") pid ;; ret tt)
                       else ret tt
                   | None => ret tt
                   end ;;
                   remove_pid_file)
         | _ => None
         end).

End Script.

End Run.

(* ===================================================================== *)
(** * A POSIX machine                                                     *)
(* ===================================================================== *)

Module Posix.

Definition ECONNREFUSED : Z := 111.

(** The script is not an entry of the process table: the machine
    answers the calls of the script and tells whether a signal that the
    script sends reaches the script itself. *)

(** A process other than the script itself.  [p_allows sig] tells
    whether the script may send it [sig] (credentials; security modules
    may tell the null signal from the others).  [p_heeds_term]: it exits
    on [SIGTERM]. *)
Record proc : Type := {
  p_pid : Z;
  p_pgid : Z;
  p_allows : Z -> bool;
  p_heeds_term : bool;
  p_listens : list Z
}.

(** What happens to a launch: the spawn fails, or the child exits with a
    return code before the settle delay is over, or it stays up. *)
Inductive fate : Type :=
| SpawnFails (e : exn)
| ExitsEarly (returncode : Z)
| StaysUp.

Record machine : Type := {
  self_pid : Z;
  self_pgid : Z;
  procs : list proc;
  exited : list (positive * Z);
  next_pid : positive;
  launch : service -> fate;
  node_modules : bool;
  npm : result Z;
  log : option string;
  keyboard : result string;
  foreground : result Z;
  browser_opened : nat;
  clock : Z
}.

Definition with_procs (ps : list proc) (m : machine) : machine :=
  {| self_pid := self_pid m; self_pgid := self_pgid m; procs := ps;
     exited := exited m; next_pid := next_pid m; launch := launch m;
     node_modules := node_modules m; npm := npm m; log := log m;
     keyboard := keyboard m; foreground := foreground m;
     browser_opened := browser_opened m; clock := clock m |}.

(** The processes a [pid] argument of [kill] addresses, the script
    apart: the process [pid] when positive; the script's own group when
    0; every process but init when -1; the group [-pid] otherwise. *)
Definition addressed (m : machine) (pid : Z) (p : proc) : bool :=
  if 0 <? pid then p_pid p =? pid
  else if pid =? 0 then p_pgid p =? self_pgid m
  else if pid =? -1 then negb (p_pid p =? 1)
  else p_pgid p =? - pid.

(** Whether [pid] addresses the script itself, which may always signal
    itself (-1 leaves the caller out). *)
Definition addresses_self (m : machine) (pid : Z) : bool :=
  if 0 <? pid then pid =? self_pid m
  else if pid =? 0 then true
  else if pid =? -1 then false
  else - pid =? self_pgid m.

Definition survives (sig : Z) (p : proc) : bool :=
  if sig =? SIGKILL then false
  else if sig =? SIGTERM then negb (p_heeds_term p)
  else true.

(** The process table after [sig] went to the addressed processes that
    allow it. *)
Definition deliver (m : machine) (pid sig : Z) : list proc :=
  filter (fun p => negb (addressed m pid p && p_allows p sig) || survives sig p)
         (procs m).

Definition kill (pid sig : Z) (m : machine) : delivery * machine :=
  let targets := filter (addressed m pid) (procs m) in
  if addresses_self m pid || existsb (fun p => p_allows p sig) targets then
    (Delivered (addresses_self m pid), with_procs (deliver m pid sig) m)
  else
    match targets with
    | [] => (Refused ESRCH, m)
    | _ => (Refused EPERM, m)
    end.

Definition killpg (pgid sig : Z) (m : machine) : delivery * machine :=
  kill (- pgid) sig m.

Definition getpgid (pid : Z) (m : machine) : (Z + Z) * machine :=
  if (pid =? 0) || (pid =? self_pid m) then (inr (self_pgid m), m)
  else
    match find (fun p => p_pid p =? pid) (procs m) with
    | Some p => (inr (p_pgid p), m)
    | None => (inl ESRCH, m)
    end.

Definition connect_ex (port : Z) (m : machine) : Z * machine :=
  if existsb (fun p => existsb (Z.eqb port) (p_listens p)) (procs m)
  then (0, m) else (ECONNREFUSED, m).

Definition port_of (s : service) : Z :=
  match s with Backend => BACKEND_PORT | Frontend => FRONTEND_PORT end.

Definition spawn (s : service) (m : machine) : result positive * machine :=
  let child := next_pid m in
  let m' (ps : list proc) (ex : list (positive * Z)) :=
    {| self_pid := self_pid m; self_pgid := self_pgid m; procs := ps;
       exited := ex; next_pid := Pos.succ child; launch := launch m;
       node_modules := node_modules m; npm := npm m; log := log m;
       keyboard := keyboard m; foreground := foreground m;
       browser_opened := browser_opened m; clock := clock m |} in
  match launch m s with
  | SpawnFails e => (Raise e, m)
  | ExitsEarly rc => (Ok child, m' (procs m) ((child, rc) :: exited m))
  | StaysUp =>
      (Ok child,
       m' (procs m ++ [{| p_pid := Zpos child; p_pgid := Zpos child;
                          p_allows := fun _ => true; p_heeds_term := true;
                          p_listens := [port_of s] |}])
          (exited m))
  end.

Definition returncode (child : positive) (m : machine) : option Z * machine :=
  (option_map snd (find (fun x => Pos.eqb (fst x) child) (exited m)), m).

Definition pass (ms : Z) (m : machine) : machine :=
  {| self_pid := self_pid m; self_pgid := self_pgid m; procs := procs m;
     exited := exited m; next_pid := next_pid m; launch := launch m;
     node_modules := node_modules m; npm := npm m; log := log m;
     keyboard := keyboard m; foreground := foreground m;
     browser_opened := browser_opened m; clock := clock m + ms |}.

Definition install (m : machine) : result Z * machine :=
  (npm m,
   {| self_pid := self_pid m; self_pgid := self_pgid m; procs := procs m;
      exited := exited m; next_pid := next_pid m; launch := launch m;
      node_modules := match npm m with Ok 0 => true | _ => node_modules m end;
      npm := npm m; log := log m;
      keyboard := keyboard m; foreground := foreground m;
      browser_opened := browser_opened m; clock := clock m |}).

Definition truncate_log (m : machine) : machine :=
  {| self_pid := self_pid m; self_pgid := self_pgid m; procs := procs m;
     exited := exited m; next_pid := next_pid m; launch := launch m;
     node_modules := node_modules m; npm := npm m; log := Some EmptyString;
     keyboard := keyboard m; foreground := foreground m;
     browser_opened := browser_opened m; clock := clock m |}.

Definition open_browser (m : machine) : machine :=
  {| self_pid := self_pid m; self_pgid := self_pgid m; procs := procs m;
     exited := exited m; next_pid := next_pid m; launch := launch m;
     node_modules := node_modules m; npm := npm m; log := log m;
     keyboard := keyboard m; foreground := foreground m;
     browser_opened := S (browser_opened m); clock := clock m |}.

Definition posix : OS := {|
  env := machine;
  sys_kill := kill;
  sys_getpgid := getpgid;
  sys_killpg := killpg;
  sys_connect_ex := connect_ex;
  sys_sleep := pass;
  node_modules_exists := node_modules;
  run_npm_install := install;
  log_truncate := truncate_log;
  log_exists := fun m => match log m with Some _ => true | None => false end;
  log_read := fun m => match log m with Some t => t | None => EmptyString end;
  popen := spawn;
  poll := returncode;
  read_input := fun m => (keyboard m, m);
  browser_open := open_browser;
  run_backend_foreground := fun m => (foreground m, m)
|}.

(** A process with the given PID is in the process table. *)
Definition live (m : machine) (pid : Z) : bool :=
  existsb (fun p => p_pid p =? pid) (procs m).

(** An idle machine: PID 1 and nothing else; launches stay up. *)
Definition init_proc : proc :=
  {| p_pid := 1; p_pgid := 1; p_allows := fun _ => false;
     p_heeds_term := false; p_listens := [] |}.

Definition idle : machine :=
  {| self_pid := 500; self_pgid := 500; procs := [init_proc]; exited := [];
     next_pid := 501%positive; launch := fun _ => StaysUp;
     node_modules := true; npm := Ok 0; log := None;
     keyboard := Ok "n"; foreground := Ok 0;
     browser_opened := 0%nat; clock := 0 |}.

Definition start_in (m : machine) (file : option string) : Run.world posix :=
  {| Run.pid_file := file; Run.stdout := []; Run.os := (m : env posix) |}.

End Posix.

(* ===================================================================== *)
(** * Notions used by the statements                                      *)
(* ===================================================================== *)

Module Props.

(** Value of a decimal numeral read from the left, starting from [acc]. *)
Fixpoint uint_value (acc : Z) (u : Decimal.uint) : Z :=
  match u with
  | Decimal.Nil => acc
  | Decimal.D0 u => uint_value (10 * acc + 0) u
  | Decimal.D1 u => uint_value (10 * acc + 1) u
  | Decimal.D2 u => uint_value (10 * acc + 2) u
  | Decimal.D3 u => uint_value (10 * acc + 3) u
  | Decimal.D4 u => uint_value (10 * acc + 4) u
  | Decimal.D5 u => uint_value (10 * acc + 5) u
  | Decimal.D6 u => uint_value (10 * acc + 6) u
  | Decimal.D7 u => uint_value (10 * acc + 7) u
  | Decimal.D8 u => uint_value (10 * acc + 8) u
  | Decimal.D9 u => uint_value (10 * acc + 9) u
  end.

(** Where a run of digits ends: at the end of the string or at a
    character that is neither a digit nor an underscore. *)
Definition ends_number (s : string) : bool :=
  match s with
  | EmptyString => true
  | String c _ => negb (PyStr.isdigit c) && negb (Ascii.eqb c "_"%char)
  end.

Fixpoint all_chars (ok : ascii -> bool) (s : string) : bool :=
  match s with
  | EmptyString => true
  | String c r => ok c && all_chars ok r
  end.

Definition no_newline (c : ascii) : bool :=
  negb (Ascii.eqb c PyStr.LF) && negb (Ascii.eqb c PyStr.CR).

(** A string that sits on one line of a text file. *)
Definition one_line (s : string) : bool := all_chars no_newline s.

(** A name that survives a round trip through the state file: it holds
    no [=] and no line break and does not start with white space. *)
Definition good_name (name : string) : bool :=
  all_chars (fun c => negb (Ascii.eqb c PyStr.EQ) && no_newline c) name
  && match name with
     | EmptyString => true
     | String c _ => negb (PyStr.isspace c)
     end.

Definition numeral_char (c : ascii) : bool :=
  PyStr.isdigit c || Ascii.eqb c "-"%char.

(** The line makes the loop of [get_running_pids] raise. *)
Definition faults (l : string) : bool :=
  match PidFile.parse_line l with PidFile.Fault _ => true | _ => false end.

(** The entries a run of lines contributes when read from an empty
    dictionary. *)
Definition entries_of (lines : list string) : PidFile.dict :=
  fst (PidFile.read_entries lines []).

(** The world after the warning of [get_running_pids]. *)
Definition warned {O : OS} (e : exn) (w : Run.world O) : Run.world O :=
  snd (Run.print (WarnPidFile e) w).

(** A table over the two managed services, one entry per name, with
    positive PIDs. *)
Definition service_name (k : string) : Prop := k = "backend" \/ k = "frontend".

Definition service_table (pids : PidFile.dict) : Prop :=
  NoDup (PidFile.keys pids)
  /\ Forall (fun kv => service_name (fst kv) /\ 0 < snd kv) pids.

(** The world after some more lines were printed. *)
Definition printed {O : OS} (ms : list message) (w : Run.world O) : Run.world O :=
  {| Run.pid_file := Run.pid_file w;
     Run.stdout := Run.stdout w ++ ms;
     Run.os := Run.os w |}.

Definition banner (c : command) : list message := [RuleBefore; Title c; RuleAfter].

(** A computation keeps a relation between the world before and after,
    whatever it returns or raises. *)
Definition respects {O : OS} {A : Type}
           (R : Run.world O -> Run.world O -> Prop) (m : Run.M O A) : Prop :=
  forall w, R w (snd (m w)).

(** Relations that printing and the calls of the machine maintain. *)
Record frame_rel {O : OS} (R : Run.world O -> Run.world O -> Prop) : Prop := {
  fr_refl : forall w, R w w;
  fr_trans : forall a b c, R a b -> R b c -> R a c;
  fr_print : forall m w, R w (snd (Run.print m w));
  fr_os : forall e w, R w (Run.set_os e w)
}.

(** A computation raises only exceptions of one kind. *)
Definition raises_only {O : OS} {A : Type} (P : exn -> bool) (m : Run.M O A) : Prop :=
  forall w e w', m w = (Raise e, w') -> P e = true.

Definition same_pid_file {O : OS} (w w' : Run.world O) : Prop :=
  Run.pid_file w' = Run.pid_file w.

Definition stdout_grows {O : OS} (w w' : Run.world O) : Prop :=
  exists more, Run.stdout w' = Run.stdout w ++ more.

(** The entry of a launch: one binding when it returned a PID. *)
Definition entry_of (key : string) (p : option Z) : PidFile.dict :=
  match p with Some pid => [(key, pid)] | None => [] end.

(** The dictionary [cmd_start] builds from the two launches. *)
Definition launched (backend_pid frontend_pid : option Z) : PidFile.dict :=
  Run.record_pid "frontend" frontend_pid (Run.record_pid "backend" backend_pid []).

(** A line of text with its terminator. *)
Definition line (s : string) : string := (s ++ String PyStr.LF EmptyString)%string.


(** The process answers the probe and signalling it fails with an
    exception other than "no such process". *)
Definition refused {O : OS} (name : label) (pid : Z) (w : Run.world O) : Prop :=
  exists w1 e w2,
    Run.is_process_running pid w = (Ok true, w1)
    /\ Run.stop_process_try name pid w1 = (Raise e, w2)
    /\ is_Exception e = true
    /\ is_ProcessLookupError e = false.

(** The process answers the probe and a signal that [stop_process]
    sends to its group reaches the script itself, which [sig] ends
    there. *)
Definition self_signalled {O : OS} (name : label) (pid sig : Z) (w w2 : Run.world O)
  : Prop :=
  exists w1,
    Run.is_process_running pid w = (Ok true, w1)
    /\ Run.stop_process_try name pid w1 = (Raise (Killed sig), w2).

(** The state file is as it was, or gone. *)
Definition kept_or_removed {O : OS} (w w' : Run.world O) : Prop :=
  Run.pid_file w' = Run.pid_file w \/ Run.pid_file w' = None.

End Props.

(* ===================================================================== *)
(** * Machines and tables for concrete runs                               *)
(* ===================================================================== *)

Module Scenarios.

Import Posix Props.

(** A process of the user that listens on a port. *)
Definition listener (pid port : Z) : proc :=
  {| p_pid := pid; p_pgid := pid; p_allows := fun _ => true;
     p_heeds_term := true; p_listens := [port] |}.

(** Both ports are taken by unrelated listeners. *)
Definition both_busy : machine :=
  with_procs [init_proc; listener 300 BACKEND_PORT; listener 301 FRONTEND_PORT] idle.

(** Only the backend port is taken. *)
Definition backend_busy : machine :=
  with_procs [init_proc; listener 300 BACKEND_PORT] idle.

(** A process that the script may probe but not signal. *)
Definition guarded : proc :=
  {| p_pid := 4242; p_pgid := 4242; p_allows := fun sig => sig =? 0;
     p_heeds_term := true; p_listens := [] |}.

Definition guarded_machine : machine := with_procs [init_proc; guarded] idle.

(** Both services are up, as [cmd_start] leaves them. *)
Definition serving : machine :=
  with_procs [init_proc; listener 501 BACKEND_PORT; listener 502 FRONTEND_PORT] idle.

(** The user interrupts the backend that [cmd_dev] runs in the
    foreground. *)
Definition interrupted : machine :=
  {| self_pid := 500; self_pgid := 500; procs := [init_proc]; exited := [];
     next_pid := 501%positive; launch := fun _ => StaysUp;
     node_modules := true; npm := Ok 0; log := None;
     keyboard := Ok "n"; foreground := Raise KeyboardInterrupt;
     browser_opened := 0%nat; clock := 0 |}.

Definition both_services : PidFile.dict := [("backend", 501); ("frontend", 502)].

End Scenarios.

(* ===================================================================== *)
(** * The command line                                                    *)
(* ===================================================================== *)

Module Cli.

(** The machine of the commands with the one call that [cmd_logs]
    adds. *)
Record OSx : Type := {
  base : OS;
  (** [subprocess.run(["tail", "-f", str(LOG_FILE)])], which blocks
      until [tail] ends or the user interrupts; the return code is not
      looked at *)
  run_tail : env base -> result Z * env base
}.

(** What an invocation prints: the lines of the commands, and one
    constructor per [print] of [print_usage], [cmd_logs] and [main]. *)
Inductive line : Type :=
| Said (m : message)
| UsageText                          (* print(__doc__) *)
| UnknownCommand (command : string)  (* "Unknown command: {command}" *)
| NoLogFile                          (* "No log file found. Start the backend first ..." *)
| ShowingLogs                        (* "Showing logs from {LOG_FILE}" *)
| PressCtrlCToStop                   (* "   Press Ctrl+C to stop\n" *)
| WideRule                           (* "="*60 *)
| StoppedWatching.                   (* "\n\nStopped watching logs" *)

(** How [main] ends: it returns, [sys.exit(code)], or an exception
    that nothing catches (or a signal of the script's own, see
    [Killed]). *)
Inductive ending : Type :=
| Returns
| Exits (code : Z)
| Uncaught (e : exn).

Section Commands.

Context {X : OSx}.

Record session : Type := {
  file : option string;
  lines : list line;
  machine : env (base X)
}.

Definition say (l : line) (s : session) : session :=
  {| file := file s; lines := lines s ++ [l]; machine := machine s |}.

Definition set_machine (e : env (base X)) (s : session) : session :=
  {| file := file s; lines := lines s; machine := e |}.

(** Running one of the commands above: what it prints goes to the
    output of the invocation. *)
Definition run {A : Type} (m : Run.M (base X) A) (s : session) : result A * session :=
  let '(r, w) := m {| Run.pid_file := file s; Run.stdout := []; Run.os := machine s |} in
  (r, {| file := Run.pid_file w;
         lines := lines s ++ map Said (Run.stdout w);
         machine := Run.os w |}).

(** ** [print_usage] *)
Definition print_usage (s : session) : session := say UsageText s.

(** ** [cmd_logs] *)
Definition cmd_logs (s : session) : result unit * session :=
  if negb (log_exists (base X) (machine s)) then
    (Ok tt, say NoLogFile s)
  else
    let s1 := say WideRule (say PressCtrlCToStop (say ShowingLogs s)) in
    match run_tail X (machine s1) with
    | (Ok _, e) => (Ok tt, set_machine e s1)
    | (Raise KeyboardInterrupt, e) => (Ok tt, say StoppedWatching (set_machine e s1))
    | (Raise x, e) => (Raise x, set_machine e s1)
    end.

(** The end of [main] after a command. *)
Definition finish (r : result unit * session) : ending * session :=
  (match fst r with Ok _ => Returns | Raise e => Uncaught e end, snd r).

(** ** [main], from [sys.argv] *)
Definition main (argv : list string) (s : session) : ending * session :=
  match argv with
  | _ :: arg :: _ =>
      let command := PyStr.lower arg in
      if String.eqb command "start" then finish (run Run.cmd_start s)
      else if String.eqb command "stop" then finish (run Run.cmd_stop s)
      else if String.eqb command "restart" then finish (run Run.cmd_restart s)
      else if String.eqb command "status" then finish (run Run.cmd_status s)
      else if String.eqb command "logs" then finish (cmd_logs s)
      else if String.eqb command "dev" then finish (run Run.cmd_dev s)
      else if existsb (String.eqb command) ["-h"; "--help"; "help"] then
        (Returns, print_usage s)
      else
        (Exits 1, print_usage (say (UnknownCommand command) s))
  | _ => (Exits 1, print_usage s)
  end.

End Commands.

Arguments session : clear implicits.

End Cli.

(* ===================================================================== *)
(** * Outcomes of the commands                                            *)
(* ===================================================================== *)

Module Outcomes.

Import Run.
Local Open Scope run_scope.

(** A line of a text file: a body without line break, with or without
    its terminator. *)
Definition line_shaped (l : string) : Prop :=
  exists body, Props.one_line body = true /\ (l = body \/ l = Props.line body).

(** No line of [after] sets [name]. *)
Definition not_set_later (name : string) (after : list string) : Prop :=
  Forall (fun l => forall pid, PidFile.parse_line l <> PidFile.Entry name pid) after.

(** Nothing but the machine differs from one world to the other: the
    state file and the output are the same. *)
Definition only_os {O : OS} (w w' : world O) : Prop := w' = set_os (os w') w.

(** What the body of the [try] of [stop_process] can end with: an
    exception that [except Exception] catches, or a signal of its own
    that ends the script. *)
Definition try_failure (e : exn) : bool :=
  is_Exception e || match e with Killed sig => fatal sig | _ => false end.

(** The line that tells the result of [stop_process]. *)
Definition stop_line (name : label) (pid : Z) (m : message) : Prop :=
  m = NotRunning name pid \/ m = Stopped name pid \/ m = AlreadyStopped name pid
  \/ exists e, m = FailedToStop name e.

(** The line of [cmd_stop] about a port. *)
Definition port_line (port rc : Z) : message :=
  if rc =? 0 then PortInUseHint port else PortFree port.


(** The modules of the backend are there on [e'], which comes from
    [e]: they were there on [e], or the install on [e] succeeds and
    leaves [e']. *)
Definition modules_ready {O : OS} (e e' : env O) : Prop :=
  (node_modules_exists O e = true /\ e' = e)
  \/ (node_modules_exists O e = false /\ run_npm_install O e = (Ok 0, e')).

(** The answer at the prompt of [cmd_start] declines the browser. *)
Definition declines (response : string) : bool :=
  String.eqb (PyStr.lower (PyStr.strip response)) "n".

(** The machine after the prompt of [cmd_start] was answered. *)
Definition after_prompt {O : OS} (r : result string) (e : env O) : env O :=
  match r with
  | Ok response => if declines response then e else browser_open O e
  | Raise _ => e
  end.

(** How [cmd_start] ends after the prompt. *)
Definition prompt_result (r : result string) : result unit :=
  match r with
  | Ok _ | Raise EOFError | Raise KeyboardInterrupt => Ok tt
  | Raise e => Raise e
  end.


(** The state file once [cmd_dev] has launched the frontend. *)
Definition dev_saved (f : option Z) (before : option string) : option string :=
  match f with
  | Some pid => Some (PidFile.render [("frontend", pid)])
  | None => before
  end.

(** The [except KeyboardInterrupt:] clause of [cmd_dev]. *)
Definition on_interrupt {O : OS} (frontend_pid : option Z) : M O unit :=
  print BackendStopped ;;
  match frontend_pid with
  | Some pid =>
      if pid_truthy frontend_pid then
        alive <- is_process_running pid ;;
        when alive (stop_process (Literal "Frontend") pid ;; ret tt)
      else ret tt
  | None => ret tt
  end ;;
  remove_pid_file.

(** [cmd_dev] from the probe of the backend port on: the part of the
    function after the frontend launch. *)
Definition dev_backend {O : OS} (frontend_pid : option Z) : M O unit :=
  busy <- is_port_in_use BACKEND_PORT ;;
  if busy then
    print (PortBusy Backend)
  else
    have_modules <- ask (node_modules_exists O) ;;
    when (negb have_modules)
      (print InstallingDeps ;;
       rc <- call_result (run_npm_install O) ;;
       if rc =? 0 then ret tt else raise (CalledProcessError rc)) ;;
    print StartingForeground ;;
    print FrontendUrl ;;
    print BackendUrl ;;
    print PressCtrlC ;;
    print WideRuleAfter ;;
    try_except
      (call_result (run_backend_foreground O) ;; ret tt)
      (fun e =>
         match e with
         | KeyboardInterrupt => Some (on_interrupt frontend_pid)
         | _ => None
         end).

End Outcomes.

(* ===================================================================== *)
(** * Which calls a command makes                                         *)
(* ===================================================================== *)

Module Footprint.

Section Calls.
Context {O : OS}.
Variable I : env O -> Prop.

(** A computation keeps an invariant of the machine, whatever it
    returns or raises. *)
Definition keeps {A : Type} (m : Run.M O A) : Prop :=
  forall w, I (Run.os w) -> I (Run.os (snd (m w))).

(** While the invariant holds, a computation raises nothing but what
    [P] accepts. *)
Definition raises_under {A : Type} (P : exn -> bool) (m : Run.M O A) : Prop :=
  forall w e w', I (Run.os w) -> m w = (Raise e, w') -> P e = true.

(** The invariant holds across the calls that only look at the
    machine: the null signal and a connection attempt. *)
Record probes_keep : Prop := {
  pk_kill : forall pid e, I e -> I (snd (sys_kill O pid 0 e));
  pk_connect : forall port e, I e -> I (snd (sys_connect_ex O port e))
}.

(** ... across the calls that stop processes: the probes, [getpgid],
    [SIGTERM] and [SIGKILL] to a process group, and sleeping. *)
Record signals_keep : Prop := {
  sk_probes : probes_keep;
  sk_getpgid : forall pid e, I e -> I (snd (sys_getpgid O pid e));
  sk_killpg : forall pgid sig e,
      sig = SIGTERM \/ sig = SIGKILL -> I e -> I (snd (sys_killpg O pgid sig e));
  sk_sleep : forall ms e, I e -> I (sys_sleep O ms e)
}.

(** ... across the calls that launch services: a connection attempt,
    the install, truncating the log, spawning a service, polling a
    child, sleeping, reading the answer of the user and opening the
    browser. *)
Record launches_keep : Prop := {
  lk_connect : forall port e, I e -> I (snd (sys_connect_ex O port e));
  lk_install : forall e, I e -> I (snd (run_npm_install O e));
  lk_truncate : forall e, I e -> I (log_truncate O e);
  lk_popen : forall s e, I e -> I (snd (popen O s e));
  lk_poll : forall child e, I e -> I (snd (poll O child e));
  lk_sleep : forall ms e, I e -> I (sys_sleep O ms e);
  lk_input : forall e, I e -> I (snd (read_input O e));
  lk_browser : forall e, I e -> I (browser_open O e)
}.

(** While the invariant holds, the script is not in the process group
    of [pid]: no signal sent to that group reaches the script. *)
Record spares_caller (pid : Z) : Prop := {
  sc_signals : signals_keep;
  sc_group : forall e g sig,
      I e -> fst (sys_getpgid O pid e) = inr g ->
      fst (sys_killpg O g sig (snd (sys_getpgid O pid e))) <> Delivered true
}.

End Calls.

End Footprint.

(* ===================================================================== *)
(** * Notions about the POSIX machine                                     *)
(* ===================================================================== *)

Module PosixProps.
Import Posix.

(** The null signal to [pid] finds a receiver: the script itself, or
    an addressed process that lets the script signal it. *)
Definition answers (m : machine) (pid : Z) : bool :=
  addresses_self m pid
  || existsb (fun p => addressed m pid p && p_allows p 0) (procs m).


(** The process table after [sig] went to the group [g]. *)
Definition group_after (g sig : Z) (ps : list proc) : list proc :=
  filter (fun q => negb ((p_pgid q =? g) && p_allows q sig) || survives sig q) ps.

(** The script [s] is alone in its process group [sg]: every process
    of the table has a group of its own (as the services have, which
    are launched with [os.setpgrp]). *)
Definition alone_in_group (s sg : Z) (m : machine) : Prop :=
  self_pid m = s /\ self_pgid m = sg
  /\ Forall (fun q => 0 < p_pgid q /\ p_pgid q <> sg) (procs m).

End PosixProps.

Module CliProps.
Import Cli.

(** The words [main] takes for a command. *)
Definition known (command : string) : bool :=
  existsb (String.eqb command)
          ["start"; "stop"; "restart"; "status"; "logs"; "dev"; "-h"; "--help"; "help"].

(** The second element of [sys.argv], lowered. *)
Definition command_of (argv : list string) : option string :=
  match argv with
  | _ :: arg :: _ => Some (PyStr.lower arg)
  | _ => None
  end.

(** The machine [tail] runs on. *)
Definition with_tail (O : OS) (tail : env O -> result Z * env O) : OSx :=
  {| base := O; run_tail := tail |}.

End CliProps.

(* ===================================================================== *)
(** * More machines for concrete runs                                     *)
(* ===================================================================== *)

Module MoreScenarios.
Import Posix Props Scenarios.


(** The user closes the input at the prompt of [cmd_start]. *)
Definition no_answer : machine :=
  {| self_pid := 500; self_pgid := 500; procs := [init_proc]; exited := [];
     next_pid := 501%positive; launch := fun _ => StaysUp;
     node_modules := true; npm := Ok 0; log := None;
     keyboard := Raise EOFError; foreground := Ok 0;
     browser_opened := 0%nat; clock := 0 |}.



(** The backend has written a log. *)
Definition logged : machine :=
  {| self_pid := 500; self_pgid := 500; procs := [init_proc]; exited := [];
     next_pid := 501%positive; launch := fun _ => StaysUp;
     node_modules := true; npm := Ok 0; log := Some "listening";
     keyboard := Ok "n"; foreground := Ok 0;
     browser_opened := 0%nat; clock := 0 |}.

(** [tail -f] runs until the user interrupts it. *)
Definition watching : Cli.OSx :=
  CliProps.with_tail posix (fun m => (Raise KeyboardInterrupt, m)).

Definition session_in (m : machine) (f : option string) : Cli.session watching :=
  {| Cli.file := f; Cli.lines := []; Cli.machine := (m : env (Cli.base watching)) |}.

End MoreScenarios.

(* ===================================================================== *)
(** * Properties                                                          *)
(* ===================================================================== *)

(** ** The built-ins on sample inputs, with the values the interpreter
    gives *)

Module Samples.
Import PyStr.

Example int_samples :
  map int ["12"; " 12"; "+12"; "-0"; "1_000"; "1__0"; "_1"; "1_"; "0012";
           ""; "+"; "1 2"; "0x10"; "+ 1"; "12 "; "1.0"]
  = [Some 12; Some 12; Some 12; Some 0; Some 1000; None; None; None; Some 12;
     None; None; None; None; None; Some 12; None].
Proof. vm_compute. reflexivity. Qed.

(** [int] takes NEL and NBSP for white space, not the separators 28-31,
    which [strip] removes. *)
Example int_space_samples :
  map int [(chr 133 ++ "12")%string; (chr 160 ++ "12")%string;
           (chr 11 ++ "12")%string; (chr 28 ++ "12")%string;
           (chr 31 ++ "1")%string; ("12" ++ chr 0)%string]
  = [Some 12; Some 12; Some 12; None; None; None].
Proof. vm_compute. reflexivity. Qed.

Example strip_sample :
  strip (chr 28 ++ " a=1 " ++ chr 133)%string = "a=1".
Proof. vm_compute. reflexivity. Qed.

Example readlines_sample :
  readlines ("a=1" ++ chr 13 ++ "b=2" ++ chr 13 ++ chr 10 ++ "c" ++ chr 10
             ++ chr 10 ++ "d")%string
  = [("a=1" ++ chr 10)%string; ("b=2" ++ chr 10)%string; ("c" ++ chr 10)%string;
     chr 10; "d"].
Proof. vm_compute. reflexivity. Qed.

Example str_samples : map str [0; 7; 1234; -5] = ["0"; "7"; "1234"; "-5"].
Proof. vm_compute. reflexivity. Qed.

Example split_samples :
  map (split EQ) ["a=b=c"; "="; "a="; "abc"; ""]
  = [["a"; "b"; "c"]; [""; ""]; ["a"; ""]; ["abc"]; [""]].
Proof. vm_compute. reflexivity. Qed.

Example lower_sample : lower "Yes, N" = "yes, n".
Proof. vm_compute. reflexivity. Qed.

Example parse_line_samples :
  map PidFile.parse_line
      ["backend=12"; " backend = 12 "; "backend"; ""; "backend=abc"; "a=1=2"; "=5"; "x="]
  = [PidFile.Entry "backend" 12; PidFile.Entry "backend " 12; PidFile.Skipped;
     PidFile.Skipped; PidFile.Fault ValueError; PidFile.Fault ValueError;
     PidFile.Entry "" 5; PidFile.Fault ValueError].
Proof. vm_compute. reflexivity. Qed.

End Samples.

(** ** Numerals, [strip], [split] and lines *)

Module PyStrFacts.
Import Props PyStr.

Lemma scan_digits_numeral (u : Decimal.uint) :
  forall acc rest, ends_number rest = true ->
  scan_digits acc false (NilEmpty.string_of_uint u ++ rest)%string
  = Some (uint_value acc u, rest).
Proof.
  induction u; intros acc rest Hrest; cbn [NilEmpty.string_of_uint append uint_value];
    try (cbn [scan_digits];
         match goal with |- context [isdigit ?c] => change (isdigit c) with true end;
         cbv iota; rewrite IHu by assumption; reflexivity).
  destruct rest as [|c r]; [reflexivity|].
  cbn in Hrest. apply andb_true_iff in Hrest as [Hd Hu].
  apply negb_true_iff in Hd, Hu.
  cbn [scan_digits]. rewrite Hd, Hu. reflexivity.
Qed.

Lemma uint_value_of_uint_acc (u : Decimal.uint) :
  forall acc, Zpos (Pos.of_uint_acc u acc) = uint_value (Zpos acc) u.
Proof.
  induction u; intro acc; cbn [Pos.of_uint_acc uint_value]; try reflexivity;
    rewrite IHu; f_equal; lia.
Qed.

Lemma uint_value_of_uint (u : Decimal.uint) :
  Z.of_N (Pos.of_uint u) = uint_value 0 u.
Proof.
  induction u; cbn [Pos.of_uint uint_value]; try reflexivity;
    try (rewrite IHu; reflexivity);
    cbn [Z.of_N]; rewrite uint_value_of_uint_acc; reflexivity.
Qed.

Lemma uint_value_to_uint (p : positive) : uint_value 0 (Pos.to_uint p) = Zpos p.
Proof.
  rewrite <- uint_value_of_uint, DecimalPos.Unsigned.of_to. reflexivity.
Qed.

Lemma digit_is_plain (c : ascii) :
  isdigit c = true ->
  int_isspace c = false /\ isspace c = false
  /\ Ascii.eqb c "+"%char = false /\ Ascii.eqb c "-"%char = false
  /\ Ascii.eqb c "_"%char = false /\ Ascii.eqb c EQ = false
  /\ Ascii.eqb c LF = false /\ Ascii.eqb c CR = false.
Proof.
  destruct c as [[|] [|] [|] [|] [|] [|] [|] [|]]; vm_compute;
    intro H; try discriminate H; repeat split.
Qed.

Lemma numeral_head (u : Decimal.uint) :
  u <> Decimal.Nil ->
  exists c r, NilEmpty.string_of_uint u = String c r /\ isdigit c = true.
Proof.
  destruct u; try congruence; intros _; cbn [NilEmpty.string_of_uint];
    eexists; eexists; split; reflexivity.
Qed.

Lemma scan_number_numeral (u : Decimal.uint) (rest : string) :
  u <> Decimal.Nil -> ends_number rest = true ->
  scan_number (NilEmpty.string_of_uint u ++ rest)%string = Some (uint_value 0 u, rest).
Proof.
  intros Hu Hrest.
  destruct u; try congruence;
    cbn [NilEmpty.string_of_uint append scan_number];
    match goal with |- context [isdigit ?c] => change (isdigit c) with true end;
    cbv iota; rewrite scan_digits_numeral by assumption; reflexivity.
Qed.

Lemma append_empty (s : string) : (s ++ EmptyString)%string = s.
Proof. induction s; cbn; congruence. Qed.

(** A numeral that is not empty reads back as its value, with or
    without a minus sign. *)
Lemma int_numeral (u : Decimal.uint) :
  u <> Decimal.Nil ->
  int (NilEmpty.string_of_uint u) = Some (uint_value 0 u)
  /\ int (String "-" (NilEmpty.string_of_uint u)) = Some (- uint_value 0 u).
Proof.
  intro Hu.
  pose proof (scan_number_numeral u EmptyString Hu eq_refl) as Hscan.
  rewrite append_empty in Hscan.
  destruct (numeral_head u Hu) as (c & r & Hs & Hc).
  destruct (digit_is_plain c Hc) as (Hsp & _ & Hplus & Hminus & _).
  split.
  - unfold int. rewrite Hs. cbn [skip_int_space]. rewrite Hsp, Hplus, Hminus.
    rewrite <- Hs, Hscan. cbn [skip_int_space]. f_equal; lia.
  - unfold int. cbn [skip_int_space].
    change (int_isspace "-") with false. cbv iota.
    change (Ascii.eqb "-" "+") with false. change (Ascii.eqb "-" "-") with true.
    cbv iota. rewrite Hscan. cbn [skip_int_space]. f_equal; lia.
Qed.

Lemma nilzero_numeral (u : Decimal.uint) :
  u <> Decimal.Nil -> NilZero.string_of_uint u = NilEmpty.string_of_uint u.
Proof. destruct u; congruence || reflexivity. Qed.

(** [int(str(n)) == n] *)
Lemma int_str (n : Z) : int (str n) = Some n.
Proof.
  unfold str. destruct n as [|p|p]; [reflexivity | |];
    cbn [Z.to_int NilZero.string_of_int];
    pose proof (DecimalPos.Unsigned.to_uint_nonnil p) as Hnil;
    rewrite (nilzero_numeral _ Hnil).
  - rewrite (proj1 (int_numeral _ Hnil)), uint_value_to_uint. reflexivity.
  - rewrite (proj2 (int_numeral _ Hnil)), uint_value_to_uint. reflexivity.
Qed.

(** *** Characters of [str n] *)

Lemma numeral_char_plain (c : ascii) :
  numeral_char c = true ->
  isspace c = false /\ Ascii.eqb c EQ = false /\ no_newline c = true.
Proof.
  destruct c as [[|] [|] [|] [|] [|] [|] [|] [|]]; vm_compute;
    intro H; try discriminate H; repeat split.
Qed.

Lemma string_of_uint_chars (u : Decimal.uint) :
  all_chars numeral_char (NilEmpty.string_of_uint u) = true.
Proof. induction u; cbn; auto. Qed.

Lemma str_chars (n : Z) : all_chars numeral_char (str n) = true /\ str n <> EmptyString.
Proof.
  unfold str. destruct n as [|p|p]; [split; [reflexivity | discriminate] | |];
    cbn [Z.to_int NilZero.string_of_int];
    pose proof (DecimalPos.Unsigned.to_uint_nonnil p) as Hnil;
    rewrite (nilzero_numeral _ Hnil).
  - split; [apply string_of_uint_chars|].
    destruct (numeral_head _ Hnil) as (c & r & -> & _). discriminate.
  - split; [cbn; apply string_of_uint_chars | discriminate].
Qed.

Lemma all_chars_impl (p q : ascii -> bool) (s : string) :
  (forall c, p c = true -> q c = true) ->
  all_chars p s = true -> all_chars q s = true.
Proof.
  intro Hpq. induction s as [|c r IH]; cbn; [reflexivity|].
  intro H. apply andb_true_iff in H as [Hc Hr]. rewrite (Hpq c Hc), (IH Hr). reflexivity.
Qed.

Lemma all_chars_app (p : ascii -> bool) (a b : string) :
  all_chars p (a ++ b)%string = all_chars p a && all_chars p b.
Proof. induction a as [|c r IH]; cbn; [reflexivity|]. rewrite IH, andb_assoc. reflexivity. Qed.

(** *** [strip] *)

Lemma rstrip_nospace (s : string) :
  all_chars (fun c => negb (isspace c)) s = true -> rstrip s = s.
Proof.
  induction s as [|c r IH]; cbn; [reflexivity|].
  intro H. apply andb_true_iff in H as [Hc Hr]. rewrite (IH Hr).
  apply negb_true_iff in Hc. rewrite Hc. destruct r; reflexivity.
Qed.

Lemma rstrip_app_kept (a b : string) :
  rstrip b <> EmptyString -> rstrip (a ++ b)%string = (a ++ rstrip b)%string.
Proof.
  intro Hb. induction a as [|c r IH]; cbn; [reflexivity|].
  rewrite IH. destruct (r ++ rstrip b)%string eqn:E; [|reflexivity].
  destruct r; cbn in E; [contradiction | discriminate].
Qed.

Lemma rstrip_spaces (b : string) :
  all_chars isspace b = true -> rstrip b = EmptyString.
Proof.
  induction b as [|c r IH]; cbn; [reflexivity|].
  intro H. apply andb_true_iff in H as [Hc Hr]. rewrite (IH Hr), Hc. reflexivity.
Qed.

Lemma rstrip_app_spaces (a b : string) :
  all_chars isspace b = true -> rstrip (a ++ b)%string = rstrip a.
Proof.
  intro Hb. induction a as [|c r IH]; cbn; [apply rstrip_spaces; assumption|].
  rewrite IH. reflexivity.
Qed.

Lemma lstrip_app_spaces (a b : string) :
  all_chars isspace b = true ->
  rstrip (lstrip (a ++ b)%string) = rstrip (lstrip a).
Proof.
  intro Hb. induction a as [|c r IH]; cbn.
  - induction b as [|c r IH]; cbn in *; [reflexivity|].
    apply andb_true_iff in Hb as [Hc Hr]. rewrite Hc. auto.
  - destruct (isspace c); [assumption|].
    change (String c (r ++ b))%string with (String c r ++ b)%string.
    apply rstrip_app_spaces; assumption.
Qed.

(** A line terminator does not change what [strip] returns. *)
Lemma strip_newline (s : string) :
  strip (s ++ String LF EmptyString)%string = strip s.
Proof. unfold strip. apply lstrip_app_spaces. reflexivity. Qed.

(** *** [in] and [split] *)

Lemma contains_app (c : ascii) (a b : string) :
  contains c (a ++ b)%string = contains c a || contains c b.
Proof. induction a as [|d r IH]; cbn; [reflexivity|]. destruct (Ascii.eqb c d); auto. Qed.

Lemma contains_none (c : ascii) (s : string) :
  all_chars (fun d => negb (Ascii.eqb d c)) s = true -> contains c s = false.
Proof.
  induction s as [|d r IH]; cbn; [reflexivity|].
  intro H. apply andb_true_iff in H as [Hd Hr].
  apply negb_true_iff in Hd. rewrite Ascii.eqb_sym, Hd. auto.
Qed.

Lemma split_none (sep : ascii) (s : string) :
  contains sep s = false -> split sep s = [s].
Proof.
  induction s as [|d r IH]; cbn; [reflexivity|].
  rewrite (Ascii.eqb_sym d sep). destruct (Ascii.eqb sep d); [discriminate|].
  intro H. rewrite (IH H). reflexivity.
Qed.

Lemma split_app (sep : ascii) (a b : string) :
  contains sep a = false ->
  split sep (a ++ String sep b)%string = a :: split sep b.
Proof.
  induction a as [|d r IH]; cbn.
  - intros _. rewrite Ascii.eqb_refl. reflexivity.
  - rewrite (Ascii.eqb_sym d sep). destruct (Ascii.eqb sep d); [discriminate|].
    intro H. rewrite (IH H). reflexivity.
Qed.

(** *** Lines of a text *)

Lemma readlines_from_line (s : string) :
  forall cur rest, one_line s = true ->
  readlines_from cur (s ++ String LF rest)%string
  = cur (s ++ String LF EmptyString)%string :: readlines_from (fun x => x) rest.
Proof.
  induction s as [|c r IH]; intros cur rest H.
  - cbn. reflexivity.
  - cbn in H. apply andb_true_iff in H as [Hc Hr].
    unfold no_newline in Hc. apply andb_true_iff in Hc as [Hlf Hcr].
    apply negb_true_iff in Hlf, Hcr.
    cbn [append readlines_from]. rewrite Hlf, Hcr.
    rewrite (IH (fun x => cur (String c x)) rest Hr). reflexivity.
Qed.

Lemma readlines_line (s rest : string) :
  one_line s = true ->
  readlines (s ++ String LF rest)%string
  = (s ++ String LF EmptyString)%string :: readlines rest.
Proof. intro H. unfold readlines. apply (readlines_from_line s (fun x => x) rest H). Qed.
(** *** [in] after [strip] *)

Lemma space_is_not (c d : ascii) :
  isspace c = false -> isspace d = true -> Ascii.eqb c d = false.
Proof.
  intros Hc Hd. destruct (Ascii.eqb_spec c d) as [->|]; [congruence | reflexivity].
Qed.

Lemma contains_lstrip (c : ascii) (s : string) :
  isspace c = false -> contains c (lstrip s) = contains c s.
Proof.
  intro Hc. induction s as [|d r IH]; cbn; [reflexivity|].
  destruct (isspace d) eqn:Hd; [|reflexivity].
  rewrite (space_is_not c d Hc Hd). exact IH.
Qed.

Lemma contains_rstrip (c : ascii) (s : string) :
  isspace c = false -> contains c (rstrip s) = contains c s.
Proof.
  intro Hc. induction s as [|d r IH]; cbn; [reflexivity|].
  destruct (rstrip r) as [|x r'] eqn:E.
  - rewrite <- IH. destruct (isspace d) eqn:Hd; cbn.
    + rewrite (space_is_not c d Hc Hd). reflexivity.
    + reflexivity.
  - cbn [contains]. cbn [contains] in IH. rewrite IH. reflexivity.
Qed.

Lemma contains_strip (c : ascii) (s : string) :
  isspace c = false -> contains c (strip s) = contains c s.
Proof.
  intro Hc. unfold strip. rewrite contains_rstrip, contains_lstrip by assumption.
  reflexivity.
Qed.

End PyStrFacts.

(** ** The text written for a dictionary reads back *)

Module PidFileFacts.
Import Props PyStr PyStrFacts PidFile.

Lemma append_assoc (a b c : string) :
  ((a ++ b) ++ c = a ++ (b ++ c))%string.
Proof. induction a as [|x r IH]; cbn; [reflexivity|]. rewrite IH. reflexivity. Qed.

Lemma entry_line_body (name : string) (pid : Z) :
  entry_line (name, pid)
  = ((name ++ String EQ (str pid)) ++ String LF EmptyString)%string.
Proof. unfold entry_line. cbn [fst snd]. rewrite append_assoc. reflexivity. Qed.

Lemma str_plain (n : Z) :
  all_chars (fun c => negb (isspace c)) (str n) = true
  /\ contains EQ (str n) = false
  /\ one_line (str n) = true.
Proof.
  destruct (str_chars n) as [H _]. repeat split.
  - revert H. apply all_chars_impl. intros c Hc.
    destruct (numeral_char_plain c Hc) as (-> & _). reflexivity.
  - apply contains_none. revert H. apply all_chars_impl. intros c Hc.
    destruct (numeral_char_plain c Hc) as (_ & -> & _). reflexivity.
  - revert H. apply all_chars_impl. intros c Hc.
    destruct (numeral_char_plain c Hc) as (_ & _ & ->). reflexivity.
Qed.

Lemma good_name_plain (name : string) :
  good_name name = true ->
  contains EQ name = false /\ one_line name = true
  /\ forall rest, lstrip (name ++ String EQ rest)%string = (name ++ String EQ rest)%string.
Proof.
  unfold good_name. intro H. apply andb_true_iff in H as [Hall Hhead]. repeat split.
  - apply contains_none. revert Hall. apply all_chars_impl.
    intros c Hc. apply andb_true_iff in Hc as [-> _]. reflexivity.
  - revert Hall. apply all_chars_impl.
    intros c Hc. apply andb_true_iff in Hc as [_ ->]. reflexivity.
  - intro rest. destruct name as [|c r]; [reflexivity|].
    cbn. apply negb_true_iff in Hhead. rewrite Hhead. reflexivity.
Qed.

(** The line written for an entry parses back to that entry. *)
Lemma parse_line_entry_line (name : string) (pid : Z) :
  good_name name = true ->
  parse_line (entry_line (name, pid)) = Entry name pid.
Proof.
  intro Hname.
  destruct (good_name_plain name Hname) as (Hno_eq & _ & Hl).
  destruct (str_plain pid) as (Hsp & Hnum_eq & _).
  unfold parse_line. rewrite entry_line_body, strip_newline.
  unfold strip. rewrite Hl.
  assert (Hr : rstrip (String EQ (str pid)) = String EQ (str pid)).
  { apply rstrip_nospace. cbn. exact Hsp. }
  rewrite rstrip_app_kept by (rewrite Hr; discriminate).
  rewrite Hr, contains_app. cbn [contains]. rewrite Ascii.eqb_refl, orb_true_r.
  rewrite split_app by assumption. rewrite split_none by assumption.
  rewrite int_str. reflexivity.
Qed.

Lemma one_line_entry (name : string) (pid : Z) :
  good_name name = true -> one_line (name ++ String EQ (str pid))%string = true.
Proof.
  intro H. destruct (good_name_plain name H) as (_ & Hn & _).
  destruct (str_plain pid) as (_ & _ & Hp).
  unfold one_line in *. rewrite all_chars_app. cbn. rewrite Hn, Hp. reflexivity.
Qed.

(** The text written by [save_pids] has one line per entry. *)
Lemma readlines_render (d : dict) :
  Forall (fun kv => good_name (fst kv) = true) d ->
  readlines (render d) = map entry_line d.
Proof.
  induction 1 as [|[name pid] r Hname _ IH]; [reflexivity|].
  cbn [render map]. rewrite entry_line_body at 1.
  rewrite append_assoc. cbn [append].
  rewrite readlines_line by (apply one_line_entry; exact Hname).
  rewrite IH, entry_line_body. reflexivity.
Qed.

Lemma getitem_setitem_fresh (k : string) (v : Z) (d : dict) :
  ~ In k (keys d) -> setitem k v d = d ++ [(k, v)].
Proof.
  induction d as [|[k' v'] r IH]; cbn; [reflexivity|].
  intro H. destruct (String.eqb_spec k' k) as [->|Hne]; [tauto|].
  rewrite IH by tauto. reflexivity.
Qed.

Lemma read_entries_entry_lines (d : dict) :
  forall acc,
  Forall (fun kv => good_name (fst kv) = true) d ->
  NoDup (keys acc ++ keys d) ->
  read_entries (map entry_line d) acc = (acc ++ d, None).
Proof.
  induction d as [|[name pid] r IH]; intros acc Hgood Hnodup.
  - cbn. rewrite app_nil_r. reflexivity.
  - inversion Hgood as [|? ? Hname Hrest]; subst. cbn [fst] in Hname.
    cbn [map read_entries]. rewrite parse_line_entry_line by assumption.
    cbn [keys map fst] in Hnodup.
    rewrite getitem_setitem_fresh.
    + rewrite IH; [rewrite <- app_assoc; reflexivity | assumption |].
      unfold keys in *. rewrite map_app, <- app_assoc. exact Hnodup.
    + apply NoDup_remove_2 in Hnodup. intro Hin. apply Hnodup.
      apply in_or_app. left. exact Hin.
Qed.

(** Reading back the text written for a dictionary gives the
    dictionary, entry for entry, and no exception. *)
Lemma load_text_render (d : dict) :
  Forall (fun kv => good_name (fst kv) = true) d ->
  NoDup (keys d) ->
  load_text (render d) = (d, None).
Proof.
  intros Hgood Hnodup. unfold load_text.
  rewrite readlines_render by assumption.
  apply (read_entries_entry_lines d [] Hgood Hnodup).
Qed.
End PidFileFacts.

(** ** The reading loop *)

Module LoadFacts.
Import Props PyStr PyStrFacts PidFile PidFileFacts.

Lemma read_entries_app (before rest : list string) :
  forall acc,
  Forall (fun l => faults l = false) before ->
  read_entries (before ++ rest) acc = read_entries rest (fst (read_entries before acc)).
Proof.
  induction before as [|l ls IH]; intros acc H; [reflexivity|].
  inversion H as [|? ? Hl Hls]; subst. unfold faults in Hl.
  cbn [app read_entries]. destruct (parse_line l); try discriminate; apply IH; assumption.
Qed.

Lemma read_entries_clean (lines : list string) :
  forall acc,
  Forall (fun l => faults l = false) lines ->
  snd (read_entries lines acc) = None.
Proof.
  induction lines as [|l ls IH]; intros acc H; [reflexivity|].
  inversion H as [|? ? Hl Hls]; subst. unfold faults in Hl.
  cbn [read_entries]. destruct (parse_line l); try discriminate; apply IH; assumption.
Qed.

(** Only [ValueError] leaves the loop. *)
Lemma parse_line_fault (l : string) (e : exn) :
  parse_line l = Fault e -> e = ValueError.
Proof.
  unfold parse_line. destruct (contains EQ (strip l)); [|discriminate].
  destruct (split EQ (strip l)) as [|a [|b [|c r]]]; try congruence.
  destruct (int b); congruence.
Qed.

Lemma read_entries_fault (lines : list string) :
  forall acc d e, read_entries lines acc = (d, Some e) -> e = ValueError.
Proof.
  induction lines as [|l ls IH]; intros acc d e; cbn [read_entries]; [discriminate|].
  destruct (parse_line l) eqn:E; eauto.
  intros [= <- <-]. eapply parse_line_fault; eassumption.
Qed.
End LoadFacts.

(** ** [get_running_pids] and [save_pids] *)

Section Loading.
Context {O : OS}.
Import Props PyStr PyStrFacts PidFile PidFileFacts LoadFacts.

(** C9.  When the state file does not exist, [get_running_pids] returns
    the empty dictionary, raises nothing and leaves the world as it
    is. *)
Theorem load_missing_file (w : Run.world O) :
  Run.pid_file w = None -> Run.get_running_pids w = (Ok [], w).
Proof. intro H. unfold Run.get_running_pids. rewrite H. reflexivity. Qed.

Lemma get_running_pids_clean (w : Run.world O) (text : string) :
  Run.pid_file w = Some text ->
  Forall (fun l => faults l = false) (readlines text) ->
  Run.get_running_pids w = (Ok (entries_of (readlines text)), w).
Proof.
  intros Hf Hclean. unfold Run.get_running_pids, load_text, entries_of. rewrite Hf.
  pose proof (read_entries_clean _ [] Hclean) as Hnone.
  destruct (read_entries (readlines text) []) as [d o]. cbn in Hnone. subst o. reflexivity.
Qed.

Lemma get_running_pids_fault (w : Run.world O) (text : string)
      (before after : list string) (bad : string) (e : exn) :
  Run.pid_file w = Some text ->
  readlines text = before ++ bad :: after ->
  Forall (fun l => faults l = false) before ->
  parse_line bad = Fault e ->
  Run.get_running_pids w = (Ok (entries_of before), warned e w).
Proof.
  intros Hf Hlines Hclean Hbad.
  unfold Run.get_running_pids, load_text, entries_of. rewrite Hf, Hlines.
  rewrite read_entries_app by assumption. cbn [read_entries]. rewrite Hbad.
  rewrite (parse_line_fault _ _ Hbad). reflexivity.
Qed.

Lemma get_running_pids_returns (w : Run.world O) :
  exists pids w', Run.get_running_pids w = (Ok pids, w').
Proof.
  unfold Run.get_running_pids. destruct (Run.pid_file w) as [text|].
  - destruct (load_text text) as [d [e|]] eqn:E.
    + unfold load_text in E. rewrite (read_entries_fault _ _ _ _ E). cbn.
      eexists; eexists; reflexivity.
    + eexists; eexists; reflexivity.
  - eexists; eexists; reflexivity.
Qed.

(** C10.  [get_running_pids] never raises, whatever the state file
    holds.  A line that makes the parse raise ends the loop: a warning
    is printed and the entries of the lines before it are returned,
    whatever follows.  Without such a line every line is read and
    nothing is printed.  A line without [=] (a blank line too) is
    skipped and the loop goes on; a line with [=] raises [ValueError]
    when it does not split in two fields or when the second field is no
    integer literal. *)
Theorem load_total (w : Run.world O) :
  (exists pids w', Run.get_running_pids w = (Ok pids, w'))
  /\ (forall text before bad after e,
        Run.pid_file w = Some text ->
        readlines text = before ++ bad :: after ->
        Forall (fun l => faults l = false) before ->
        parse_line bad = Fault e ->
        Run.get_running_pids w = (Ok (entries_of before), warned e w))
  /\ (forall text,
        Run.pid_file w = Some text ->
        Forall (fun l => faults l = false) (readlines text) ->
        Run.get_running_pids w = (Ok (entries_of (readlines text)), w))
  /\ (forall l rest acc,
        contains EQ l = false ->
        read_entries (l :: rest) acc = read_entries rest acc)
  /\ (forall l,
        contains EQ l = true ->
        (forall name field, split EQ (strip l) = [name; field] -> int field = None) ->
        parse_line l = Fault ValueError).
Proof.
  split; [apply get_running_pids_returns|].
  split; [intros; eapply get_running_pids_fault; eassumption|].
  split; [intros; eapply get_running_pids_clean; eassumption|].
  split.
  - intros l rest acc H. cbn [read_entries]. unfold parse_line.
    rewrite (contains_strip EQ l eq_refl), H. reflexivity.
  - intros l H Hint. unfold parse_line. rewrite (contains_strip EQ l eq_refl), H.
    destruct (split EQ (strip l)) as [|a [|b [|c r]]]; try reflexivity.
    rewrite (Hint a b eq_refl). reflexivity.
Qed.

(** C3.  For a table over the service names [backend] and [frontend]
    with positive PIDs, [get_running_pids] after [save_pids] returns the
    table that was saved. *)
Theorem save_load_roundtrip (w : Run.world O) (pids : dict) :
  service_table pids ->
  let w1 := snd (Run.save_pids pids w) in
  Run.get_running_pids w1 = (Ok pids, w1).
Proof.
  intros [Hnodup Hall] w1.
  assert (Hgood : Forall (fun kv => good_name (fst kv) = true) pids).
  { eapply Forall_impl; [|exact Hall]. intros [k v] [[Hk|Hk] _]; cbn in Hk; subst; reflexivity. }
  unfold Run.get_running_pids. subst w1. cbn [Run.save_pids snd Run.set_pid_file Run.pid_file].
  rewrite (load_text_render pids Hgood Hnodup). reflexivity.
Qed.

End Loading.

(** ** What every step of the script leaves unchanged *)

Module RunFacts.
Import Props Run.

Create HintDb frame.

Section Frame.
Context {O : OS}.
Variable R : world O -> world O -> Prop.
Hypothesis HR : frame_rel R.

Lemma respects_ret {A} (a : A) : respects R (ret a).
Proof. intro w. apply (fr_refl R HR). Qed.

Lemma respects_raise {A} (e : exn) : respects R (@raise O A e).
Proof. intro w. apply (fr_refl R HR). Qed.

Lemma respects_bind {A B} (m : M O A) (k : A -> M O B) :
  respects R m -> (forall a, respects R (k a)) -> respects R (bind m k).
Proof.
  intros Hm Hk w. unfold bind. specialize (Hm w).
  destruct (m w) as [[a|e] w1]; cbn in *; [|assumption].
  eapply (fr_trans R HR); [eassumption | apply Hk].
Qed.

Lemma respects_try {A} (m : M O A) (h : exn -> option (M O A)) :
  respects R m -> (forall e k, h e = Some k -> respects R k) ->
  respects R (try_except m h).
Proof.
  intros Hm Hh w. unfold try_except. specialize (Hm w).
  destruct (m w) as [[a|e] w1]; cbn in *; [assumption|].
  destruct (h e) as [k|] eqn:E; [|assumption].
  eapply (fr_trans R HR); [eassumption | eapply Hh; eassumption].
Qed.

Lemma respects_print (m : message) : respects R (print m).
Proof. intro w. apply (fr_print R HR). Qed.

Lemma respects_call {A} (f : env O -> A * env O) : respects R (call f).
Proof. intro w. unfold call. destruct (f (os w)). apply (fr_os R HR). Qed.

Lemma respects_call_result {A} (f : env O -> result A * env O) :
  respects R (call_result f).
Proof. intro w. unfold call_result. destruct (f (os w)). apply (fr_os R HR). Qed.

Lemma respects_effect (f : env O -> env O) : respects R (effect f).
Proof. intro w. apply (fr_os R HR). Qed.

Lemma respects_sleep (ms : Z) : respects R (sleep ms).
Proof. apply respects_effect. Qed.

Lemma respects_ask {A} (f : env O -> A) : respects R (ask f).
Proof. intro w. apply (fr_refl R HR). Qed.

Lemma respects_when (b : bool) (m : M O unit) :
  respects R m -> respects R (when b m).
Proof. intro H. destruct b; [exact H | apply respects_ret]. Qed.

End Frame.

#[export] Hint Resolve respects_ret respects_raise respects_print respects_call
  respects_call_result respects_effect respects_sleep respects_ask : frame.

(** Walks through a computation, one construct at a time. *)
Ltac frame :=
  repeat match goal with
  | |- respects _ (bind _ _) => eapply respects_bind; [solve [eauto 2 with frame] | | intro]
  | |- respects _ (try_except _ _) =>
      eapply respects_try; [solve [eauto 2 with frame] | | intros ? ? ?]
  | |- respects _ (when _ _) => eapply respects_when; [solve [eauto 2 with frame] | ]
  | |- respects _ (if ?b then _ else _) => destruct b
  | |- respects _ (match ?x with _ => _ end) => destruct x
  | H : (if ?b then _ else _) = Some _ |- _ => destruct b
  | H : (match ?x with _ => _ end) = Some _ |- _ => destruct x
  | H : Some _ = Some _ |- _ => injection H as <-
  | H : None = Some _ |- _ => discriminate H
  | |- respects _ _ => solve [eauto 3 with frame]
  end.

Section Framed.
Context {O : OS}.
Variable R : world O -> world O -> Prop.
Hypothesis HR : frame_rel R.

Lemma respects_os_kill pid sig : respects R (os_kill pid sig).
Proof. unfold os_kill. frame. Qed.

Lemma respects_os_getpgid pid : respects R (os_getpgid pid).
Proof. unfold os_getpgid. frame. Qed.

Lemma respects_os_killpg pgid sig : respects R (os_killpg pgid sig).
Proof. unfold os_killpg. frame. Qed.

Lemma respects_is_port_in_use port : respects R (is_port_in_use port).
Proof. unfold is_port_in_use. frame. Qed.

Hint Resolve respects_os_kill respects_os_getpgid respects_os_killpg
  respects_is_port_in_use : frame.

Lemma respects_is_process_running pid : respects R (is_process_running pid).
Proof. unfold is_process_running. frame. Qed.

Hint Resolve respects_is_process_running : frame.

Lemma respects_start_backend : respects R start_backend.
Proof. unfold start_backend. frame. Qed.

Lemma respects_start_frontend : respects R start_frontend.
Proof. unfold start_frontend. frame. Qed.

Lemma respects_stop_process_try name pid : respects R (stop_process_try name pid).
Proof. unfold stop_process_try. frame. Qed.

Hint Resolve respects_stop_process_try : frame.

Lemma respects_stop_process name pid : respects R (stop_process name pid).
Proof. unfold stop_process. frame. Qed.

Hint Resolve respects_stop_process : frame.

Lemma respects_stop_all items : respects R (stop_all items).
Proof.
  induction items as [|[name pid] r IH]; cbn [stop_all]; frame.
Qed.

Lemma respects_service_status key port pids : respects R (service_status key port pids).
Proof. unfold service_status. frame. Qed.

Lemma respects_get_running_pids : respects R get_running_pids.
Proof.
  intro w. unfold get_running_pids.
  destruct (pid_file w); [|apply (fr_refl R HR)].
  destruct (PidFile.load_text s) as [d [e|]]; [|apply (fr_refl R HR)].
  destruct (is_Exception e); [|apply (fr_refl R HR)].
  apply (fr_print R HR).
Qed.

End Framed.

#[export] Hint Resolve respects_os_kill respects_os_getpgid respects_os_killpg
  respects_is_port_in_use respects_is_process_running respects_start_backend
  respects_start_frontend respects_stop_process_try respects_stop_process
  respects_stop_all respects_service_status respects_get_running_pids : frame.

Section Relations.
Context {O : OS}.

Lemma same_pid_file_frame : frame_rel (@same_pid_file O).
Proof.
  split; unfold same_pid_file; intros; cbn; try reflexivity. congruence.
Qed.

Lemma stdout_grows_frame : frame_rel (@stdout_grows O).
Proof.
  split; unfold stdout_grows.
  - intro w. exists []. rewrite app_nil_r. reflexivity.
  - intros a b c [m1 H1] [m2 H2]. exists (m1 ++ m2). rewrite H2, H1, app_assoc. reflexivity.
  - intros m w. exists [m]. reflexivity.
  - intros e w. exists []. cbn. rewrite app_nil_r. reflexivity.
Qed.

End Relations.

End RunFacts.

(** ** Running a computation step by step *)

Module StepFacts.
Import Props Run RunFacts.

Section Steps.
Context {O : OS}.

Lemma bind_ok {A B} (m : M O A) (k : A -> M O B) w a w1 :
  m w = (Ok a, w1) -> bind m k w = k a w1.
Proof. intro H. unfold bind. rewrite H. reflexivity. Qed.

Lemma bind_raise {A B} (m : M O A) (k : A -> M O B) w e w1 :
  m w = (Raise e, w1) -> bind m k w = (Raise e, w1).
Proof. intro H. unfold bind. rewrite H. reflexivity. Qed.

Lemma bind_print {B} (m : message) (k : unit -> M O B) (w : world O) :
  bind (print m) k w = k tt (printed [m] w).
Proof. reflexivity. Qed.

Lemma printed_printed (a b : list message) (w : world O) :
  printed b (printed a w) = printed (a ++ b) w.
Proof. unfold printed. cbn. rewrite app_assoc. reflexivity. Qed.

Lemma bind_respects {A B} R (HR : frame_rel R) (m : M O A) (k : A -> M O B) w :
  (forall a, respects R (k a)) -> R (snd (m w)) (snd (bind m k w)).
Proof.
  intro Hk. unfold bind. destruct (m w) as [[a|e] w1]; cbn.
  - apply Hk.
  - apply (fr_refl R HR).
Qed.

Lemma respects_save_pids_stdout pids : respects (@stdout_grows O) (save_pids pids).
Proof. intro w. exists []. cbn. rewrite app_nil_r. reflexivity. Qed.

Lemma respects_remove_pid_file_stdout : respects (@stdout_grows O) remove_pid_file.
Proof.
  intro w. exists []. unfold remove_pid_file.
  destruct (pid_file w); cbn; rewrite app_nil_r; reflexivity.
Qed.

Lemma bind_save_pids {B} (pids : PidFile.dict) (k : unit -> M O B) (w : world O) :
  bind (save_pids pids) k w = k tt (set_pid_file (Some (PidFile.render pids)) w).
Proof. reflexivity. Qed.

Lemma grows_after {A B} (m : M O A) (k : A -> M O B) (w : world O) (pre : list message) :
  stdout_grows (printed pre w) (snd (m w)) ->
  (forall a, respects (@stdout_grows O) (k a)) ->
  exists more, stdout (snd (bind m k w)) = stdout w ++ pre ++ more.
Proof.
  intros [m1 H1] Hk.
  destruct (bind_respects _ stdout_grows_frame m k w Hk) as [m2 H2].
  exists (m1 ++ m2). rewrite H2, H1. cbn. rewrite <- !app_assoc. reflexivity.
Qed.

Lemma keeps_pid_file {A} (m : M O A) (w : world O) :
  respects (@same_pid_file O) m -> pid_file (snd (m w)) = pid_file w.
Proof. intro H. apply H. Qed.

End Steps.

#[export] Hint Resolve respects_save_pids_stdout respects_remove_pid_file_stdout : frame.
#[export] Hint Resolve same_pid_file_frame stdout_grows_frame : frame.

End StepFacts.

(** ** Computations that touch nothing but the machine *)

Module QuietFacts.
Import Props Outcomes Run.

Create HintDb quiet.

Section Quiet.
Context {O : OS}.

Lemma only_os_refl (w : world O) : only_os w w.
Proof. unfold only_os. destruct w; reflexivity. Qed.

Lemma only_os_trans (a b c : world O) : only_os a b -> only_os b c -> only_os a c.
Proof. unfold only_os. intros H1 H2. rewrite H2, H1. reflexivity. Qed.

Lemma only_os_set (e : env O) (w : world O) : only_os w (set_os e w).
Proof. reflexivity. Qed.

Lemma quiet_ret {A} (a : A) : respects only_os (@ret O A a).
Proof. intro w. apply only_os_refl. Qed.

Lemma quiet_raise {A} (e : exn) : respects only_os (@raise O A e).
Proof. intro w. apply only_os_refl. Qed.

Lemma quiet_ask {A} (f : env O -> A) : respects only_os (ask f).
Proof. intro w. apply only_os_refl. Qed.

Lemma quiet_call {A} (f : env O -> A * env O) : respects only_os (call f).
Proof. intro w. unfold call. destruct (f (os w)). apply only_os_set. Qed.

Lemma quiet_call_result {A} (f : env O -> result A * env O) :
  respects only_os (call_result f).
Proof. intro w. unfold call_result. destruct (f (os w)). apply only_os_set. Qed.

Lemma quiet_effect (f : env O -> env O) : respects only_os (effect f).
Proof. intro w. apply only_os_set. Qed.

Lemma quiet_bind {A B} (m : M O A) (k : A -> M O B) :
  respects only_os m -> (forall a, respects only_os (k a)) -> respects only_os (bind m k).
Proof.
  intros Hm Hk w. unfold bind. specialize (Hm w).
  destruct (m w) as [[a|e] w1]; cbn in *; [|assumption].
  eapply only_os_trans; [eassumption | apply Hk].
Qed.

Lemma quiet_try {A} (m : M O A) (h : exn -> option (M O A)) :
  respects only_os m -> (forall e k, h e = Some k -> respects only_os k) ->
  respects only_os (try_except m h).
Proof.
  intros Hm Hh w. unfold try_except. specialize (Hm w).
  destruct (m w) as [[a|e] w1]; cbn in *; [assumption|].
  destruct (h e) as [k|] eqn:E; [|assumption].
  eapply only_os_trans; [eassumption | eapply Hh; eassumption].
Qed.

Lemma quiet_when (b : bool) (m : M O unit) :
  respects only_os m -> respects only_os (when b m).
Proof. intro H. destruct b; [exact H | apply quiet_ret]. Qed.

Lemma quiet_sleep (ms : Z) : respects only_os (@sleep O ms).
Proof. apply quiet_effect. Qed.

End Quiet.

#[export] Hint Resolve quiet_ret quiet_raise quiet_ask quiet_call quiet_call_result
  quiet_effect quiet_sleep : quiet.

Ltac quiet :=
  repeat match goal with
  | |- respects only_os (bind _ _) => eapply quiet_bind; [ | intro]
  | |- respects only_os (try_except _ _) => eapply quiet_try; [ | intros ? ? ?]
  | |- respects only_os (when _ _) => eapply quiet_when
  | |- respects only_os (if ?b then _ else _) => destruct b
  | |- respects only_os (match ?x with _ => _ end) => destruct x
  | H : (if ?b then _ else _) = Some _ |- _ => destruct b
  | H : (match ?x with _ => _ end) = Some _ |- _ => destruct x
  | H : Some _ = Some _ |- _ => injection H as <-
  | H : None = Some _ |- _ => discriminate H
  | |- respects only_os _ => solve [eauto 3 with quiet]
  end.

Section QuietCalls.
Context {O : OS}.

Lemma quiet_os_kill pid sig : respects only_os (@os_kill O pid sig).
Proof. unfold os_kill. quiet. Qed.

Lemma quiet_os_getpgid pid : respects only_os (@os_getpgid O pid).
Proof. unfold os_getpgid. quiet. Qed.

Lemma quiet_os_killpg pgid sig : respects only_os (@os_killpg O pgid sig).
Proof. unfold os_killpg. quiet. Qed.

Lemma quiet_is_port_in_use port : respects only_os (@is_port_in_use O port).
Proof. unfold is_port_in_use. quiet. Qed.

Hint Resolve quiet_os_kill quiet_os_getpgid quiet_os_killpg quiet_is_port_in_use : quiet.

Lemma quiet_is_process_running pid : respects only_os (@is_process_running O pid).
Proof. unfold is_process_running. quiet. Qed.

End QuietCalls.

#[export] Hint Resolve quiet_os_kill quiet_os_getpgid quiet_os_killpg quiet_is_port_in_use
  quiet_is_process_running : quiet.

End QuietFacts.

(** ** Invariants of the machine across a command *)

Module FootprintFacts.
Import Props Run Footprint.

Create HintDb keeps.

Section Keeps.
Context {O : OS}.
Variable I : env O -> Prop.

Lemma keeps_ret {A} (a : A) : keeps I (ret a).
Proof. intros w H. exact H. Qed.

Lemma keeps_raise {A} (e : exn) : keeps I (@raise O A e).
Proof. intros w H. exact H. Qed.

Lemma keeps_print (m : message) : keeps I (print m).
Proof. intros w H. exact H. Qed.

Lemma keeps_ask {A} (f : env O -> A) : keeps I (ask f).
Proof. intros w H. exact H. Qed.

Lemma keeps_bind {A B} (m : M O A) (k : A -> M O B) :
  keeps I m -> (forall a, keeps I (k a)) -> keeps I (bind m k).
Proof.
  intros Hm Hk w H. unfold bind. specialize (Hm w H).
  destruct (m w) as [[a|e] w1]; cbn in *; [apply Hk; exact Hm | exact Hm].
Qed.

Lemma keeps_try {A} (m : M O A) (h : exn -> option (M O A)) :
  keeps I m -> (forall e k, h e = Some k -> keeps I k) -> keeps I (try_except m h).
Proof.
  intros Hm Hh w H. unfold try_except. specialize (Hm w H).
  destruct (m w) as [[a|e] w1]; cbn in *; [exact Hm|].
  destruct (h e) as [k|] eqn:E; [eapply Hh; eassumption | exact Hm].
Qed.

Lemma keeps_when (b : bool) (m : M O unit) : keeps I m -> keeps I (when b m).
Proof. intro H. destruct b; [exact H | apply keeps_ret]. Qed.

Lemma keeps_call {A} (f : env O -> A * env O) :
  (forall e, I e -> I (snd (f e))) -> keeps I (call f).
Proof. intros Hf w H. unfold call. specialize (Hf _ H). destruct (f (os w)). exact Hf. Qed.

Lemma keeps_call_result {A} (f : env O -> result A * env O) :
  (forall e, I e -> I (snd (f e))) -> keeps I (call_result f).
Proof.
  intros Hf w H. unfold call_result. specialize (Hf _ H). destruct (f (os w)). exact Hf.
Qed.

Lemma keeps_effect (f : env O -> env O) :
  (forall e, I e -> I (f e)) -> keeps I (effect f).
Proof. intros Hf w H. apply Hf. exact H. Qed.

Lemma keeps_save_pids pids : keeps I (save_pids pids).
Proof. intros w H. exact H. Qed.

Lemma keeps_remove_pid_file : keeps I remove_pid_file.
Proof. intros w H. unfold remove_pid_file. destruct (pid_file w); exact H. Qed.

Lemma keeps_get_running_pids : keeps I get_running_pids.
Proof.
  intros w H. unfold get_running_pids.
  destruct (pid_file w); [|exact H].
  destruct (PidFile.load_text s) as [d [e|]]; [|exact H].
  destruct (is_Exception e); exact H.
Qed.

Lemma keeps_is_port_in_use port :
  (forall e, I e -> I (snd (sys_connect_ex O port e))) -> keeps I (is_port_in_use port).
Proof.
  intro H. unfold is_port_in_use. apply keeps_bind; [apply keeps_call; exact H|].
  intro. apply keeps_ret.
Qed.

Lemma keeps_os_kill pid sig :
  (forall e, I e -> I (snd (sys_kill O pid sig e))) -> keeps I (os_kill pid sig).
Proof.
  intro H. unfold os_kill. destruct (in_pid_t pid); [|apply keeps_raise].
  apply keeps_call_result. intros e He. specialize (H e He).
  destruct (sys_kill O pid sig e). exact H.
Qed.

Lemma keeps_os_getpgid pid :
  (forall e, I e -> I (snd (sys_getpgid O pid e))) -> keeps I (os_getpgid pid).
Proof.
  intro H. unfold os_getpgid. destruct (in_pid_t pid); [|apply keeps_raise].
  apply keeps_call_result. intros e He. specialize (H e He).
  destruct (sys_getpgid O pid e) as [[n|g] e1]; exact H.
Qed.

Lemma keeps_os_killpg pgid sig :
  (forall e, I e -> I (snd (sys_killpg O pgid sig e))) -> keeps I (os_killpg pgid sig).
Proof.
  intro H. unfold os_killpg. destruct (in_pid_t pgid); [|apply keeps_raise].
  apply keeps_call_result. intros e He. specialize (H e He).
  destruct (sys_killpg O pgid sig e). exact H.
Qed.

Lemma keeps_is_process_running pid :
  (forall e, I e -> I (snd (sys_kill O pid 0 e))) -> keeps I (is_process_running pid).
Proof.
  intro H. unfold is_process_running. apply keeps_try.
  - apply keeps_bind; [apply keeps_os_kill; exact H | intro; apply keeps_ret].
  - intros e k. destruct (is_OSError e); [|discriminate].
    intros [= <-]. apply keeps_ret.
Qed.

End Keeps.

#[export] Hint Resolve keeps_ret keeps_raise keeps_print keeps_ask keeps_save_pids
  keeps_remove_pid_file keeps_get_running_pids : keeps.

(** Walks through a computation, one construct at a time. *)
Ltac keeps :=
  repeat match goal with
  | |- keeps _ (bind _ _) => eapply keeps_bind; [ | intro]
  | |- keeps _ (try_except _ _) => eapply keeps_try; [ | intros ? ? ?]
  | |- keeps _ (when _ _) => eapply keeps_when
  | |- keeps _ (if ?b then _ else _) => destruct b
  | |- keeps _ (match ?x with _ => _ end) => destruct x
  | H : (if ?b then _ else _) = Some _ |- _ => destruct b
  | H : (match ?x with _ => _ end) = Some _ |- _ => destruct x
  | H : Some _ = Some _ |- _ => injection H as <-
  | H : None = Some _ |- _ => discriminate H
  | |- keeps _ _ => solve [eauto 3 with keeps]
  end.

Section Probing.
Context {O : OS}.
Variable I : env O -> Prop.
Hypothesis HI : probes_keep I.

Lemma probes_port port : keeps I (is_port_in_use port).
Proof. apply keeps_is_port_in_use. intros. apply (pk_connect I HI). assumption. Qed.

Lemma probes_process pid : keeps I (is_process_running pid).
Proof. apply keeps_is_process_running. intros. apply (pk_kill I HI). assumption. Qed.

Hint Resolve probes_port probes_process : keeps.

Lemma probes_service_status key port pids : keeps I (service_status key port pids).
Proof. unfold service_status. keeps. Qed.

Hint Resolve probes_service_status : keeps.

Lemma probes_cmd_status : keeps I cmd_status.
Proof. unfold cmd_status. keeps. Qed.

Lemma probes_report_port port : keeps I (report_port port).
Proof. unfold report_port. keeps. Qed.

End Probing.

Section Signalling.
Context {O : OS}.
Variable I : env O -> Prop.
Hypothesis HI : signals_keep I.

Let HP : probes_keep I := sk_probes I HI.

Lemma signals_getpgid pid : keeps I (os_getpgid pid).
Proof. apply keeps_os_getpgid. intros. apply (sk_getpgid I HI). assumption. Qed.

Lemma signals_killpg_term pgid : keeps I (os_killpg pgid SIGTERM).
Proof. apply keeps_os_killpg. intros. apply (sk_killpg I HI); auto. Qed.

Lemma signals_killpg_kill pgid : keeps I (os_killpg pgid SIGKILL).
Proof. apply keeps_os_killpg. intros. apply (sk_killpg I HI); auto. Qed.

Lemma signals_sleep ms : keeps I (sleep ms).
Proof. apply keeps_effect. intros. apply (sk_sleep I HI). assumption. Qed.

Hint Resolve signals_getpgid signals_killpg_term signals_killpg_kill signals_sleep : keeps.

Lemma signals_port port : keeps I (is_port_in_use port).
Proof. apply probes_port. exact HP. Qed.

Lemma signals_process pid : keeps I (is_process_running pid).
Proof. apply probes_process. exact HP. Qed.

Lemma signals_report_port port : keeps I (report_port port).
Proof. apply probes_report_port. exact HP. Qed.

Hint Resolve signals_port signals_process signals_report_port : keeps.

Lemma signals_stop_process_try name pid : keeps I (stop_process_try name pid).
Proof. unfold stop_process_try. keeps. Qed.

Hint Resolve signals_stop_process_try : keeps.

Lemma signals_stop_process name pid : keeps I (stop_process name pid).
Proof. unfold stop_process. keeps. Qed.

Hint Resolve signals_stop_process : keeps.

Lemma signals_stop_all items : keeps I (stop_all items).
Proof. induction items as [|[name pid] r IH]; cbn [stop_all]; keeps. Qed.

Hint Resolve signals_stop_all : keeps.

Lemma signals_cmd_stop : keeps I cmd_stop.
Proof. unfold cmd_stop. keeps. Qed.

End Signalling.

Section Launching.
Context {O : OS}.
Variable I : env O -> Prop.
Hypothesis HI : launches_keep I.

Lemma launches_port port : keeps I (is_port_in_use port).
Proof. apply keeps_is_port_in_use. intros. apply (lk_connect I HI). assumption. Qed.

Lemma launches_sleep ms : keeps I (sleep ms).
Proof. apply keeps_effect. intros. apply (lk_sleep I HI). assumption. Qed.

Lemma launches_install : keeps I (call_result (run_npm_install O)).
Proof. apply keeps_call_result. apply (lk_install I HI). Qed.

Lemma launches_truncate : keeps I (effect (log_truncate O)).
Proof. apply keeps_effect. apply (lk_truncate I HI). Qed.

Lemma launches_popen s : keeps I (call_result (popen O s)).
Proof. apply keeps_call_result. apply (lk_popen I HI). Qed.

Lemma launches_poll child : keeps I (call (poll O child)).
Proof. apply keeps_call. apply (lk_poll I HI). Qed.

Lemma launches_input : keeps I (call_result (read_input O)).
Proof. apply keeps_call_result. apply (lk_input I HI). Qed.

Lemma launches_browser : keeps I (effect (browser_open O)).
Proof. apply keeps_effect. apply (lk_browser I HI). Qed.

Hint Resolve launches_port launches_sleep launches_install launches_truncate
  launches_popen launches_poll launches_input launches_browser : keeps.

Lemma launches_start_backend : keeps I start_backend.
Proof. unfold start_backend. keeps. Qed.

Lemma launches_start_frontend : keeps I start_frontend.
Proof. unfold start_frontend. keeps. Qed.

Hint Resolve launches_start_backend launches_start_frontend : keeps.

Lemma launches_cmd_start : keeps I cmd_start.
Proof. unfold cmd_start. keeps. Qed.

End Launching.

End FootprintFacts.

(** ** [stop_process] *)

Section Stop.
Context {O : OS}.
Import Props Outcomes Run RunFacts StepFacts PidFile QuietFacts Footprint FootprintFacts.
Local Open Scope run_scope.

Lemma bind_assoc {A B C} (m : M O A) (k : A -> M O B) (h : B -> M O C) (w : world O) :
  bind (bind m k) h w = bind m (fun a => bind (k a) h) w.
Proof. unfold bind. destruct (m w) as [[a|e] w1]; reflexivity. Qed.

Lemma is_process_running_returns (pid : Z) (w : world O) :
  in_pid_t pid = true -> exists b w1, is_process_running pid w = (Ok b, w1).
Proof.
  intro H. unfold is_process_running, try_except, bind, os_kill, call_result, ret.
  rewrite H. destruct (sys_kill O pid 0 (os w)) as [[[]|n] e1]; cbn; eauto.
Qed.

Lemma is_process_running_os (pid : Z) (w w1 : world O) r :
  is_process_running pid w = (r, w1) -> w1 = set_os (os w1) w.
Proof.
  intro H. pose proof (quiet_is_process_running pid w) as Hq. rewrite H in Hq. exact Hq.
Qed.

Lemma raises_only_weaken {A} (P Q : exn -> bool) (m : M O A) :
  (forall e, P e = true -> Q e = true) -> raises_only P m -> raises_only Q m.
Proof. intros HPQ Hm w e w' H. apply HPQ. eapply Hm. eassumption. Qed.

Lemma try_failure_exception (e : exn) : is_Exception e = true -> try_failure e = true.
Proof. intro H. unfold try_failure. rewrite H. reflexivity. Qed.

Lemma try_failure_cases (e : exn) :
  try_failure e = true ->
  is_Exception e = true \/ exists sig, e = Killed sig /\ fatal sig = true.
Proof.
  unfold try_failure. destruct e; cbn; auto. intro H. right. eauto.
Qed.

Lemma os_getpgid_raises pid : raises_only is_Exception (@os_getpgid O pid).
Proof.
  intros w e w'. unfold os_getpgid, call_result, raise.
  destruct (in_pid_t pid); [|intros [= <- _]; reflexivity].
  destruct (sys_getpgid O pid (os w)) as [[n|g] e1]; intros [= <- _]; reflexivity.
Qed.

Lemma os_killpg_raises pgid sig :
  fatal sig = true -> raises_only try_failure (@os_killpg O pgid sig).
Proof.
  intros Hsig w e w'. unfold os_killpg, call_result, raise.
  destruct (in_pid_t pgid); [|intros [= <- _]; reflexivity].
  destruct (sys_killpg O pgid sig (os w)) as [[[]|n] e1]; cbn; rewrite ?Hsig;
    intros [= <- _]; unfold try_failure; cbn; rewrite ?Hsig; reflexivity.
Qed.

Lemma is_process_running_raises pid : raises_only is_Exception (@is_process_running O pid).
Proof.
  intros w e w'. unfold is_process_running, try_except, bind, os_kill, call_result, raise, ret.
  destruct (in_pid_t pid); [|cbn; intros [= <- _]; reflexivity].
  destruct (sys_kill O pid 0 (os w)) as [[[]|n] e1]; cbn; intros [= <- _].
Qed.

Lemma raises_only_bind {A B} P (m : M O A) (k : A -> M O B) :
  raises_only P m -> (forall a, raises_only P (k a)) -> raises_only P (bind m k).
Proof.
  intros Hm Hk w e w'. unfold bind. destruct (m w) as [[a|e0] w1] eqn:E.
  - apply Hk.
  - intros [= <- <-]. eapply Hm. eassumption.
Qed.

Lemma raises_only_total {A} P (m : M O A) :
  (forall w, exists a w', m w = (Ok a, w')) -> raises_only P m.
Proof. intros H w e w' E. destruct (H w) as (a & w1 & E1). congruence. Qed.

Lemma raises_only_ok {A} P (m : M O A) (f : world O -> A * world O) :
  (forall w, m w = (Ok (fst (f w)), snd (f w))) -> raises_only P m.
Proof. intros H w e w' E. rewrite H in E. discriminate. Qed.

Lemma getpgid_fails pid : raises_only try_failure (@os_getpgid O pid).
Proof. exact (raises_only_weaken _ _ _ try_failure_exception (os_getpgid_raises pid)). Qed.

Lemma probe_fails pid : raises_only try_failure (@is_process_running O pid).
Proof.
  exact (raises_only_weaken _ _ _ try_failure_exception (is_process_running_raises pid)).
Qed.

Lemma sleep_fails ms : raises_only try_failure (@sleep O ms).
Proof. intros w e w' H. discriminate H. Qed.

Lemma stop_process_try_raises name pid :
  raises_only try_failure (@stop_process_try O name pid).
Proof.
  unfold stop_process_try.
  apply raises_only_bind; [apply getpgid_fails | intro g].
  apply raises_only_bind; [apply os_killpg_raises; reflexivity | intros _].
  apply raises_only_bind; [apply sleep_fails | intros _].
  apply raises_only_bind; [apply probe_fails | intro alive].
  apply raises_only_bind; [|intros _ w e w' H; discriminate H].
  destruct alive; cbn [when]; [|intros w e w' H; discriminate H].
  apply raises_only_bind; [apply getpgid_fails | intro g'].
  apply raises_only_bind; [apply os_killpg_raises; reflexivity | intros _].
  apply sleep_fails.
Qed.

Lemma stop_process_try_true name pid (w w1 : world O) b :
  stop_process_try name pid w = (Ok b, w1) -> b = true.
Proof.
  unfold stop_process_try, bind.
  repeat (match goal with
          | |- context [match ?x with pair _ _ => _ end] => destruct x as [[?|?] ?]
          end; cbv beta iota).
  all: unfold ret; intro H; congruence.
Qed.

(** The signalling part of [stop_process_try], before the line it
    prints. *)
Lemma stop_process_try_signals (name : label) (pid : Z) :
  exists q : M O unit,
    respects only_os q
    /\ forall w, stop_process_try name pid w
                 = (q ;; print (Stopped name pid) ;; ret true) w.
Proof.
  exists (pgid <- os_getpgid pid ;;
          os_killpg pgid SIGTERM ;;
          sleep 1000 ;;
          alive <- is_process_running pid ;;
          when alive
            (pgid' <- os_getpgid pid ;;
             os_killpg pgid' SIGKILL ;;
             sleep 500)).
  split; [quiet|].
  intro w. unfold stop_process_try, bind.
  destruct (os_getpgid pid w) as [[g|e] w1]; [|reflexivity].
  destruct (os_killpg g SIGTERM w1) as [[[]|e] w2]; [|reflexivity].
  destruct (sleep 1000 w2) as [[[]|e] w3]; [|reflexivity].
  destruct (is_process_running pid w3) as [[alive|e] w4]; reflexivity.
Qed.

Lemma stop_process_try_out (name : label) (pid : Z) (w w1 : world O) r :
  stop_process_try name pid w = (r, w1) ->
  match r with
  | Ok _ => w1 = printed [Stopped name pid] (set_os (os w1) w)
  | Raise _ => w1 = set_os (os w1) w
  end.
Proof.
  destruct (stop_process_try_signals name pid) as (q & Hq & Heq).
  rewrite Heq. unfold bind. specialize (Hq w).
  destruct (q w) as [[[]|e] wq]; cbn in Hq; unfold only_os in Hq.
  - cbn. intros [= <- <-]. unfold printed. cbn.
    rewrite Hq. reflexivity.
  - intros [= <- <-]. exact Hq.
Qed.

(** What a call of [stop_process] comes to. *)
Lemma stop_process_spec name pid (w : world O) :
  in_pid_t pid = true ->
  (exists sig w2,
      self_signalled name pid sig w w2 /\ fatal sig = true
      /\ stop_process name pid w = (Raise (Killed sig), w2))
  \/ (exists b w1,
        stop_process name pid w = (Ok b, w1)
        /\ (b = false <-> refused name pid w)
        /\ (forall w', is_process_running pid w = (Ok false, w') ->
                       b = true /\ w1 = printed [NotRunning name pid] w')
        /\ (forall w' e w'',
              is_process_running pid w = (Ok true, w') ->
              stop_process_try name pid w' = (Raise e, w'') ->
              is_ProcessLookupError e = true ->
              b = true /\ w1 = printed [AlreadyStopped name pid] w'')).
Proof.
  intro Hpid. destruct (is_process_running_returns pid w Hpid) as (alive & wa & Hprobe).
  unfold stop_process. erewrite bind_ok by exact Hprobe.
  destruct alive; cbn [negb].
  - unfold try_except.
    destruct (stop_process_try name pid wa) as [[b|e] w2] eqn:Htry.
    + pose proof (stop_process_try_true _ _ _ _ _ Htry) as ->.
      right. exists true, w2. split; [reflexivity|]. split; [|split].
      * split; [discriminate|]. intros (w1 & e & w3 & H1 & H2 & _). congruence.
      * intros w' H. congruence.
      * intros w' e w'' H1 H2 _. congruence.
    + pose proof (stop_process_try_raises name pid _ _ _ Htry) as Hfail.
      destruct (is_ProcessLookupError e) eqn:Hlookup.
      * right. exists true, (printed [AlreadyStopped name pid] w2).
        split; [reflexivity|]. split; [|split].
        -- split; [discriminate|]. intros (w1 & e' & w3 & H1 & H2 & _ & H3). congruence.
        -- intros w' H. congruence.
        -- intros w' e0 w'' H1 H2 _. split; [reflexivity|]. congruence.
      * destruct (is_Exception e) eqn:Hexc.
        -- right. exists false, (printed [FailedToStop name e] w2).
           split; [reflexivity|]. split; [|split].
           ++ split; [|reflexivity]. intros _. exists wa, e, w2. auto.
           ++ intros w' H. congruence.
           ++ intros w' e0 w'' H1 H2 H3. congruence.
        -- destruct (try_failure_cases e Hfail) as [H|(sig & -> & Hsig)]; [congruence|].
           left. exists sig, w2. split; [|split; [exact Hsig | reflexivity]].
           exists wa. auto.
  - right. exists true, (printed [NotRunning name pid] wa).
    split; [reflexivity|]. split; [|split].
    + split; [discriminate|]. intros (w1 & e & w3 & H1 & _). congruence.
    + intros w' H. split; [reflexivity|]. congruence.
    + intros w' e w'' H1 _ _. congruence.
Qed.

(** The world after a call of [stop_process]. *)
Lemma stop_process_out (name : label) (pid : Z) (w : world O) :
  in_pid_t pid = true ->
  (exists sig w2,
      stop_process name pid w = (Raise (Killed sig), w2)
      /\ fatal sig = true /\ w2 = set_os (os w2) w)
  \/ (exists b w1 m,
        stop_process name pid w = (Ok b, w1)
        /\ w1 = printed [m] (set_os (os w1) w)
        /\ stop_line name pid m
        /\ (b = false <-> exists e, m = FailedToStop name e)).
Proof.
  intro Hpid.
  destruct (is_process_running_returns pid w Hpid) as (alive & wa & Hprobe).
  pose proof (is_process_running_os _ _ _ _ Hprobe) as Ha.
  unfold stop_process. erewrite bind_ok by exact Hprobe.
  destruct alive; cbn [negb].
  - unfold try_except.
    destruct (stop_process_try name pid wa) as [[b|e] w2] eqn:Htry;
      pose proof (stop_process_try_out _ _ _ _ _ Htry) as Hout; cbv beta iota in Hout.
    + pose proof (stop_process_try_true _ _ _ _ _ Htry) as ->.
      right. exists true, w2, (Stopped name pid). split; [reflexivity|].
      split; [rewrite Hout at 1; rewrite Ha; reflexivity|].
      split; [right; left; reflexivity|].
      split; [discriminate | intros [e He]; discriminate].
    + pose proof (stop_process_try_raises name pid _ _ _ Htry) as Hfail.
      destruct (is_ProcessLookupError e) eqn:Hlookup.
      * right.
        exists true, (printed [AlreadyStopped name pid] w2), (AlreadyStopped name pid).
        split; [reflexivity|].
        split; [rewrite Hout at 1; rewrite Ha; reflexivity|].
        split; [right; right; left; reflexivity|].
        split; [discriminate | intros [e0 He]; discriminate].
      * destruct (is_Exception e) eqn:Hexc.
        -- right.
           exists false, (printed [FailedToStop name e] w2), (FailedToStop name e).
           split; [reflexivity|].
           split; [rewrite Hout at 1; rewrite Ha; reflexivity|].
           split; [right; right; right; exists e; reflexivity|].
           split; [intros _; exists e; reflexivity | reflexivity].
        -- destruct (try_failure_cases e Hfail) as [H|(sig & -> & Hsig)]; [congruence|].
           left. exists sig, w2. split; [reflexivity|]. split; [exact Hsig|].
           rewrite Hout at 1. rewrite Ha. reflexivity.
  - right. exists true, (printed [NotRunning name pid] wa), (NotRunning name pid).
    split; [reflexivity|].
    split; [rewrite Ha at 1; reflexivity|].
    split; [left; reflexivity|].
    split; [discriminate | intros [e He]; discriminate].
Qed.


(** *** When no signal of the call can reach the script *)

Lemma raises_under_bind {A B} (J : env O -> Prop) P (m : M O A) (k : A -> M O B) :
  keeps J m -> raises_under J P m -> (forall a, raises_under J P (k a)) ->
  raises_under J P (bind m k).
Proof.
  intros Hkeep Hm Hk w e w' HJ. unfold bind.
  destruct (m w) as [[a|e0] w1] eqn:E.
  - apply Hk. specialize (Hkeep w HJ). rewrite E in Hkeep. exact Hkeep.
  - intros [= <- <-]. eapply Hm; eassumption.
Qed.

Lemma raises_under_only {A} (J : env O -> Prop) P (m : M O A) :
  raises_only P m -> raises_under J P m.
Proof. intros H w e w' _ E. eapply H. eassumption. Qed.

Lemma os_getpgid_eq (pid : Z) (w : world O) :
  os_getpgid pid w
  = if in_pid_t pid
    then (match fst (sys_getpgid O pid (os w)) with
          | inr g => Ok g
          | inl n => Raise (OSError n)
          end,
          set_os (snd (sys_getpgid O pid (os w))) w)
    else (Raise OverflowError, w).
Proof.
  unfold os_getpgid, call_result, raise. destruct (in_pid_t pid); [|reflexivity].
  destruct (sys_getpgid O pid (os w)) as [[n|g] e1]; reflexivity.
Qed.

Lemma os_killpg_eq (g sig : Z) (w : world O) :
  os_killpg g sig w
  = if in_pid_t g
    then (signal_result sig (fst (sys_killpg O g sig (os w))),
          set_os (snd (sys_killpg O g sig (os w))) w)
    else (Raise OverflowError, w).
Proof.
  unfold os_killpg, call_result, raise. destruct (in_pid_t g); [|reflexivity].
  destruct (sys_killpg O g sig (os w)) as [d e1]; reflexivity.
Qed.

Lemma os_set_os (e : env O) (w : world O) : os (set_os e w) = e.
Proof. reflexivity. Qed.

(** One round of signalling: the group of [pid] is looked up and
    signalled. *)
Lemma round_spared (J : env O -> Prop) (pid sig : Z) :
  spares_caller J pid ->
  raises_under J is_Exception (pgid <- os_getpgid pid ;; os_killpg pgid sig).
Proof.
  intros HS w e w' HJ. unfold bind. rewrite os_getpgid_eq.
  destruct (in_pid_t pid); [|intros [= <- _]; reflexivity].
  pose proof (sc_group J pid HS (os w)) as Hg.
  destruct (fst (sys_getpgid O pid (os w))) as [n|g]; [intros [= <- _]; reflexivity|].
  specialize (Hg g sig HJ eq_refl).
  rewrite os_killpg_eq, os_set_os.
  destruct (in_pid_t g); [|intros [= <- _]; reflexivity].
  destruct (fst (sys_killpg O g sig (snd (sys_getpgid O pid (os w))))) as [[]|n]; cbn.
  - congruence.
  - intro H. discriminate H.
  - intros [= <- _]. reflexivity.
Qed.

Lemma round_keeps (J : env O -> Prop) (pid sig : Z) :
  signals_keep J -> sig = SIGTERM \/ sig = SIGKILL ->
  keeps J (pgid <- os_getpgid pid ;; os_killpg pgid sig).
Proof.
  intros HJ Hsig. apply keeps_bind; [apply signals_getpgid; exact HJ|].
  intro g. destruct Hsig as [-> | ->];
    [apply signals_killpg_term | apply signals_killpg_kill]; exact HJ.
Qed.

Lemma stop_process_try_rounds (name : label) (pid : Z) (w : world O) :
  stop_process_try name pid w
  = ((pgid <- os_getpgid pid ;; os_killpg pgid SIGTERM) ;;
     sleep 1000 ;;
     alive <- is_process_running pid ;;
     when alive ((pgid' <- os_getpgid pid ;; os_killpg pgid' SIGKILL) ;; sleep 500) ;;
     print (Stopped name pid) ;;
     ret true) w.
Proof.
  unfold stop_process_try, bind.
  destruct (os_getpgid pid w) as [[g|e] w1]; [|reflexivity].
  destruct (os_killpg g SIGTERM w1) as [[[]|e] w2]; [|reflexivity].
  destruct (sleep 1000 w2) as [[[]|e] w3]; [|reflexivity].
  destruct (is_process_running pid w3) as [[alive|e] w4]; [|reflexivity].
  destruct alive; cbn [when]; [|reflexivity].
  destruct (os_getpgid pid w4) as [[g'|e] w5]; [|reflexivity].
  destruct (os_killpg g' SIGKILL w5) as [[[]|e] w6]; reflexivity.
Qed.

Lemma stop_process_try_spared (J : env O -> Prop) (name : label) (pid : Z) :
  spares_caller J pid -> raises_under J is_Exception (stop_process_try name pid).
Proof.
  intros HS w e w' HJ. rewrite stop_process_try_rounds. revert w e w' HJ.
  pose proof (sc_signals J pid HS) as HK.
  change (raises_under J is_Exception
            ((pgid <- os_getpgid pid ;; os_killpg pgid SIGTERM) ;;
             sleep 1000 ;;
             alive <- is_process_running pid ;;
             when alive
               ((pgid' <- os_getpgid pid ;; os_killpg pgid' SIGKILL) ;; sleep 500) ;;
             print (Stopped name pid) ;;
             ret true)).
  apply raises_under_bind;
    [apply round_keeps; auto | apply round_spared; exact HS | intros _].
  apply raises_under_bind;
    [apply signals_sleep; exact HK
    | apply raises_under_only; intros w e w' H; discriminate H | intros _].
  apply raises_under_bind;
    [apply signals_process; exact HK
    | apply raises_under_only, is_process_running_raises | intro alive].
  apply raises_under_bind; [| |intros _; apply raises_under_only; intros w e w' H; discriminate H].
  - apply keeps_when. apply keeps_bind; [apply round_keeps; auto|].
    intros _. apply signals_sleep. exact HK.
  - destruct alive; cbn [when]; [|apply raises_under_only; intros w e w' H; discriminate H].
    apply raises_under_bind;
      [apply round_keeps; auto | apply round_spared; exact HS | intros _].
    apply raises_under_only. intros w e w' H. discriminate H.
Qed.

Lemma stop_process_spared (J : env O -> Prop) (name : label) (pid : Z) (w : world O) :
  spares_caller J pid -> J (os w) -> in_pid_t pid = true ->
  exists b w1, stop_process name pid w = (Ok b, w1) /\ J (os w1).
Proof.
  intros HS HJ Hpid.
  pose proof (signals_stop_process J (sc_signals J pid HS) name pid w HJ) as Hkeep.
  destruct (stop_process_spec name pid w Hpid)
    as [(sig & w2 & (wa & Hprobe & Htry) & _)|(b & w1 & Hs & _)].
  - exfalso.
    pose proof (signals_process J (sc_signals J pid HS) pid w HJ) as Ha.
    rewrite Hprobe in Ha.
    pose proof (stop_process_try_spared J name pid HS _ _ _ Ha Htry) as H.
    discriminate H.
  - exists b, w1. rewrite Hs in Hkeep. auto.
Qed.

Lemma stop_all_spared (J : env O -> Prop) (items : dict) :
  forall w : world O,
  Forall (fun kv => in_pid_t (snd kv) = true /\ spares_caller J (snd kv)) items ->
  J (os w) ->
  exists w1, stop_all items w = (Ok tt, w1) /\ J (os w1).
Proof.
  induction items as [|[name pid] r IH]; intros w H HJ; cbn [stop_all].
  - eexists; split; [reflexivity | exact HJ].
  - inversion H as [|? ? [Hpid HS] Hr]; subst. cbn [snd] in Hpid, HS.
    destruct (stop_process_spared J (Capitalize name) pid w HS HJ Hpid) as (b & w1 & Hs & H1).
    erewrite bind_ok by exact Hs. apply IH; assumption.
Qed.

(** [stop_all] ends normally, or with the signal that ended the
    script. *)
Lemma stop_all_ends (items : dict) :
  forall w : world O,
  Forall (fun kv => in_pid_t (snd kv) = true) items ->
  (exists w1, stop_all items w = (Ok tt, w1))
  \/ (exists sig w1, stop_all items w = (Raise (Killed sig), w1) /\ fatal sig = true).
Proof.
  induction items as [|[name pid] r IH]; intros w H; cbn [stop_all].
  - left. eexists. reflexivity.
  - inversion H as [|? ? Hpid Hr]; subst. cbn [snd] in Hpid.
    destruct (stop_process_spec (Capitalize name) pid w Hpid)
      as [(sig & w2 & _ & Hsig & Hs)|(b & w1 & Hs & _)].
    + right. exists sig, w2. erewrite bind_raise by exact Hs. auto.
    + erewrite bind_ok by exact Hs. apply IH. exact Hr.
Qed.

(** C4, as the code has it.  For a PID that fits [pid_t], a call of
    [stop_process] never raises an exception.  It returns a boolean,
    unless the process answers the probe and a signal that the call
    sends to its group reaches the script itself (the group of the
    script: PID 0, the PID of the script, a process of its group),
    which the signal ends there.  Of two calls in a row that return,
    the second returns true when the probe finds the process not
    running (nothing else is done then) and when signalling meets "no
    such process"; it returns false exactly when the process still
    answers the probe and signalling it fails with another exception.
    While the script is not in the group of the PID, both calls
    return. *)
Theorem stop_process_twice (w : world O) (name : label) (pid : Z) :
  in_pid_t pid = true ->
  ((exists sig w1,
       self_signalled name pid sig w w1 /\ fatal sig = true
       /\ stop_process name pid w = (Raise (Killed sig), w1))
   \/ exists b1 w1,
        stop_process name pid w = (Ok b1, w1)
        /\ ((exists sig w2,
                self_signalled name pid sig w1 w2 /\ fatal sig = true
                /\ stop_process name pid w1 = (Raise (Killed sig), w2))
            \/ exists b2 w2,
                 stop_process name pid w1 = (Ok b2, w2)
                 /\ (b2 = false <-> refused name pid w1)
                 /\ (forall w', is_process_running pid w1 = (Ok false, w') ->
                                b2 = true /\ w2 = printed [NotRunning name pid] w')
                 /\ (forall w' e w'',
                       is_process_running pid w1 = (Ok true, w') ->
                       stop_process_try name pid w' = (Raise e, w'') ->
                       is_ProcessLookupError e = true ->
                       b2 = true /\ w2 = printed [AlreadyStopped name pid] w'')))
  /\ (forall J : env O -> Prop,
        spares_caller J pid -> J (os w) ->
        exists b1 w1 b2 w2,
          stop_process name pid w = (Ok b1, w1)
          /\ stop_process name pid w1 = (Ok b2, w2)).
Proof.
  intro Hpid. split.
  - destruct (stop_process_spec name pid w Hpid) as [H|(b1 & w1 & H1 & _)];
      [left; exact H|].
    right. exists b1, w1. split; [exact H1|].
    apply stop_process_spec. exact Hpid.
  - intros J HS HJ.
    destruct (stop_process_spared J name pid w HS HJ Hpid) as (b1 & w1 & H1 & HJ1).
    destruct (stop_process_spared J name pid w1 HS HJ1 Hpid) as (b2 & w2 & H2 & _).
    exists b1, w1, b2, w2. auto.
Qed.

End Stop.

(** ** The calls of the POSIX machine *)

Module PosixFacts.
Import Props Outcomes Run StepFacts Posix PosixProps Footprint.

Lemma with_procs_same (m : machine) : with_procs (procs m) m = m.
Proof. destruct m; reflexivity. Qed.

Lemma set_os_same (w : world posix) : set_os (os w) w = w.
Proof. destruct w; reflexivity. Qed.

Lemma filter_all {A} (f : A -> bool) (l : list A) :
  (forall x, In x l -> f x = true) -> filter f l = l.
Proof.
  induction l as [|a r IH]; intro H; cbn; [reflexivity|].
  rewrite (H a (or_introl eq_refl)). f_equal. apply IH. intros x Hx. apply H. right. exact Hx.
Qed.

Lemma existsb_filter {A} (f g : A -> bool) (l : list A) :
  existsb f (filter g l) = existsb (fun x => g x && f x) l.
Proof.
  induction l as [|a r IH]; cbn; [reflexivity|].
  destruct (g a); cbn; rewrite IH; reflexivity.
Qed.

Lemma deliver_null (m : machine) (pid : Z) : deliver m pid 0 = procs m.
Proof. unfold deliver. apply filter_all. intros x _. apply orb_true_r. Qed.

Lemma kill_null (m : machine) (pid : Z) :
  snd (kill pid 0 m) = m
  /\ signal_result 0 (fst (kill pid 0 m))
     = if answers m pid then Ok tt
       else Raise (OSError (match filter (addressed m pid) (procs m) with
                            | [] => ESRCH
                            | _ => EPERM
                            end)).
Proof.
  unfold kill, answers. rewrite existsb_filter.
  destruct (addresses_self m pid
            || existsb (fun x => addressed m pid x && p_allows x 0) (procs m)).
  - cbn [fst snd]. rewrite deliver_null, with_procs_same. split; [reflexivity|].
    destruct (addresses_self m pid); reflexivity.
  - destruct (filter (addressed m pid) (procs m)); cbn; split; reflexivity.
Qed.

Lemma probe_posix (w : world posix) (pid : Z) :
  in_pid_t pid = true ->
  is_process_running pid w = (Ok (answers (os w) pid), w).
Proof.
  intro Hpid. destruct (kill_null (os w) pid) as [Hm Hr].
  unfold is_process_running, try_except, bind, os_kill, call_result, ret. rewrite Hpid.
  cbn [sys_kill posix].
  destruct (kill pid 0 (os w)) as [d m1]; cbn [fst snd] in *; subst m1.
  rewrite Hr, set_os_same. destruct (answers (os w) pid); reflexivity.
Qed.

Lemma connect_ex_same (port : Z) (m : machine) : snd (connect_ex port m) = m.
Proof. unfold connect_ex. destruct (existsb _ (procs m)); reflexivity. Qed.

Lemma getpgid_same (pid : Z) (m : machine) : snd (getpgid pid m) = m.
Proof.
  unfold getpgid. destruct ((pid =? 0) || (pid =? self_pid m)); [reflexivity|].
  destruct (find _ (procs m)); reflexivity.
Qed.

Lemma addressed_group (m : machine) (g : Z) (q : proc) :
  1 < g -> addressed m (- g) q = (p_pgid q =? g).
Proof.
  intro Hg. unfold addressed.
  destruct (0 <? - g) eqn:E1; [apply Z.ltb_lt in E1; lia|].
  destruct (- g =? 0) eqn:E2; [apply Z.eqb_eq in E2; lia|].
  destruct (- g =? -1) eqn:E3; [apply Z.eqb_eq in E3; lia|].
  rewrite Z.opp_involutive. reflexivity.
Qed.

Lemma addresses_self_group (m : machine) (g : Z) :
  0 < g -> addresses_self m (- g) = negb (g =? 1) && (g =? self_pgid m).
Proof.
  intro Hg. unfold addresses_self.
  destruct (0 <? - g) eqn:E1; [apply Z.ltb_lt in E1; lia|].
  destruct (- g =? 0) eqn:E2; [apply Z.eqb_eq in E2; lia|].
  destruct (g =? 1) eqn:E4.
  - apply Z.eqb_eq in E4. subst g. reflexivity.
  - destruct (- g =? -1) eqn:E3; [apply Z.eqb_eq in E3; apply Z.eqb_neq in E4; lia|].
    rewrite Z.opp_involutive. reflexivity.
Qed.

Lemma deliver_group (m : machine) (g sig : Z) :
  1 < g -> deliver m (- g) sig = group_after g sig (procs m).
Proof.
  intro Hg. unfold deliver, group_after. apply filter_ext.
  intro q. rewrite (addressed_group m g q Hg). reflexivity.
Qed.



(** A signal to the group of the script. *)
Lemma killpg_own_group (w : world posix) (sig : Z) :
  1 < self_pgid (os w) <= PID_T_MAX ->
  os_killpg (self_pgid (os w)) sig w
  = (signal_result sig (Delivered true),
     set_os (O := posix)
            (with_procs (group_after (self_pgid (os w)) sig (procs (os w))) (os w)) w).
Proof.
  intros [Hg Hmax].
  assert (Hrange : in_pid_t (self_pgid (os w)) = true).
  { unfold in_pid_t. apply andb_true_iff. split; apply Z.leb_le;
      [unfold PID_T_MIN; lia | exact Hmax]. }
  unfold os_killpg, call_result. rewrite Hrange. cbn [sys_killpg posix].
  unfold killpg, kill.
  rewrite (addresses_self_group (os w) (self_pgid (os w))) by lia.
  replace (self_pgid (os w) =? 1) with false by (symmetry; apply Z.eqb_neq; lia).
  rewrite Z.eqb_refl. cbn [negb andb orb].
  rewrite (deliver_group _ _ sig Hg). reflexivity.
Qed.





(** *** Invariants of the machine *)

Lemma posix_probes_keep (m0 : machine) : probes_keep (O := posix) (fun m => m = m0).
Proof.
  split; cbn [sys_kill sys_connect_ex posix].
  - intros pid e ->. apply kill_null.
  - intros port e ->. apply connect_ex_same.
Qed.

Lemma kill_keeps_launches (pid sig : Z) (m : machine) :
  next_pid (snd (kill pid sig m)) = next_pid m /\ log (snd (kill pid sig m)) = log m.
Proof.
  unfold kill.
  destruct (addresses_self m pid || existsb _ (filter (addressed m pid) (procs m)));
    [split; reflexivity|].
  destruct (filter (addressed m pid) (procs m)); split; reflexivity.
Qed.

Lemma posix_signals_keep (n : positive) (l : option string) :
  signals_keep (O := posix) (fun m => next_pid m = n /\ log m = l).
Proof.
  split; [split|..]; cbn [sys_kill sys_connect_ex sys_getpgid sys_killpg sys_sleep posix].
  - intros pid e [<- <-]. apply kill_keeps_launches.
  - intros port e H. rewrite connect_ex_same. exact H.
  - intros pid e H. rewrite getpgid_same. exact H.
  - intros pgid sig e _ [<- <-]. apply kill_keeps_launches.
  - intros ms e H. exact H.
Qed.

Lemma posix_launches_keep (pid : Z) :
  launches_keep (O := posix) (fun m => live m pid = true).
Proof.
  split; cbn [sys_connect_ex run_npm_install log_truncate popen poll sys_sleep
              read_input browser_open posix].
  - intros port e H. rewrite connect_ex_same. exact H.
  - intros e H. exact H.
  - intros e H. exact H.
  - intros s e H. unfold spawn. destruct (launch e s); try exact H.
    unfold live in *. cbn. rewrite existsb_app, H. reflexivity.
  - intros child e H. exact H.
  - intros ms e H. exact H.
  - intros e H. exact H.
  - intros e H. exact H.
Qed.

Lemma kill_alone (s sg pid sig : Z) (m : machine) :
  alone_in_group s sg m -> alone_in_group s sg (snd (kill pid sig m)).
Proof.
  intros (Hs & Hsg & Hall). unfold kill.
  destruct (addresses_self m pid || existsb _ (filter (addressed m pid) (procs m))).
  - cbn [snd]. split; [exact Hs|]. split; [exact Hsg|].
    cbn. unfold deliver. rewrite Forall_forall in *.
    intros q Hq. apply filter_In in Hq. apply Hall, Hq.
  - destruct (filter (addressed m pid) (procs m)); split; auto.
Qed.

(** The script, alone in its group, is spared by the signals to the
    group of any PID but 0 and its own. *)
Lemma posix_spares (s sg pid : Z) :
  pid <> 0 -> pid <> s -> spares_caller (O := posix) (alone_in_group s sg) pid.
Proof.
  intros H0 Hs. split; [split; [split|..]|];
    cbn [sys_kill sys_connect_ex sys_getpgid sys_killpg sys_sleep posix].
  - intros p e H. apply kill_alone. exact H.
  - intros port e H. rewrite connect_ex_same. exact H.
  - intros p e H. rewrite getpgid_same. exact H.
  - intros g sig e _ H. apply kill_alone. exact H.
  - intros ms e H. exact H.
  - intros e g sig (Hself & Hsg & Hall). rewrite getpgid_same. unfold getpgid.
    apply Z.eqb_neq in H0. rewrite H0. rewrite <- Hself in Hs.
    apply Z.eqb_neq in Hs. rewrite Hs. cbn [orb].
    destruct (find (fun p => p_pid p =? pid) (procs e)) as [q|] eqn:Hfind;
      [|discriminate].
    cbn [fst]. intros [= <-]. apply find_some in Hfind as [Hq _].
    rewrite Forall_forall in Hall. destruct (Hall q Hq) as [Hpos Hne].
    unfold killpg, kill. rewrite (addresses_self_group e (p_pgid q) Hpos).
    rewrite Hsg. apply Z.eqb_neq in Hne. rewrite Hne, andb_false_r. cbn [orb].
    destruct (existsb _ _); [discriminate|].
    destruct (filter _ _); discriminate.
Qed.

End PosixFacts.

(** ** The state file after [cmd_start], [cmd_dev] and [cmd_stop] *)

Section Table.
Context {O : OS}.
Import Props Outcomes Run RunFacts StepFacts PidFile QuietFacts Footprint FootprintFacts.
Local Open Scope run_scope.

Lemma kept_or_removed_frame : frame_rel (@kept_or_removed O).
Proof.
  split; unfold kept_or_removed.
  - intro w. left. reflexivity.
  - intros a b c [H1|H1] [H2|H2]; rewrite H2; auto.
  - intros m w. left. reflexivity.
  - intros e w. left. reflexivity.
Qed.

Lemma respects_remove_pid_file_kept : respects (@kept_or_removed O) remove_pid_file.
Proof.
  intro w. unfold remove_pid_file, kept_or_removed.
  destruct (pid_file w) eqn:E; cbn; auto.
Qed.

Lemma banner_printed (c : command) (w : world O) :
  printed [RuleAfter] (printed [Title c] (printed [RuleBefore] w)) = printed (banner c) w.
Proof. rewrite !printed_printed. reflexivity. Qed.

Lemma bind_ret {A B} (a : A) (k : A -> M O B) (w : world O) : bind (ret a) k w = k a w.
Proof. reflexivity. Qed.

(** A launch that returns a PID returns a positive one, which
    [if backend_pid:] takes for true. *)
Lemma start_backend_pid (w w1 : world O) (p : option Z) :
  start_backend w = (Ok p, w1) -> pid_truthy p = match p with Some _ => true | None => false end.
Proof.
  unfold start_backend, bind.
  repeat (match goal with
          | |- context [match ?x with pair _ _ => _ end] => destruct x as [[?|?] ?]
          | |- context [if ?b then _ else _] => destruct b
          | |- context [match ?o with Some _ => _ | None => _ end] => destruct o
          end; cbv beta iota);
    unfold ret; intro H; inversion H; reflexivity.
Qed.

Lemma start_frontend_pid (w w1 : world O) (p : option Z) :
  start_frontend w = (Ok p, w1) -> pid_truthy p = match p with Some _ => true | None => false end.
Proof.
  unfold start_frontend, bind.
  repeat (match goal with
          | |- context [match ?x with pair _ _ => _ end] => destruct x as [[?|?] ?]
          | |- context [if ?b then _ else _] => destruct b
          | |- context [match ?o with Some _ => _ | None => _ end] => destruct o
          end; cbv beta iota);
    unfold ret; intro H; inversion H; reflexivity.
Qed.

(** What [cmd_start] leaves in the state file. *)
Lemma cmd_start_table (w : world O) b w1 f w2 :
  start_backend (printed (banner CmdStart) w) = (Ok b, w1) ->
  start_frontend (printed [Blank] w1) = (Ok f, w2) ->
  launched b f = entry_of "backend" b ++ entry_of "frontend" f
  /\ pid_file (snd (cmd_start w))
     = if truthy (launched b f) then Some (render (launched b f)) else pid_file w.
Proof.
  intros Hb Hf. split.
  { pose proof (start_backend_pid _ _ _ Hb) as Tb.
    pose proof (start_frontend_pid _ _ _ Hf) as Tf.
    unfold launched, record_pid. rewrite Tb, Tf.
    destruct b, f; reflexivity. }
  assert (Hsame : pid_file w2 = pid_file w).
  { pose proof (respects_start_frontend _ same_pid_file_frame (printed [Blank] w1)) as H2.
    pose proof (respects_start_backend _ same_pid_file_frame (printed (banner CmdStart) w)) as H1.
    rewrite Hf in H2. rewrite Hb in H1. unfold same_pid_file in *. cbn in *. congruence. }
  unfold cmd_start. rewrite !bind_print, banner_printed.
  erewrite bind_ok by exact Hb. cbv zeta. rewrite bind_print.
  erewrite bind_ok by exact Hf.
  fold (launched b f). destruct (truthy (launched b f)); cbn [when].
  - rewrite bind_save_pids. rewrite keeps_pid_file; [reflexivity|]. frame.
  - rewrite bind_ret. rewrite keeps_pid_file; [exact Hsame|]. frame.
Qed.

(** *** [cmd_dev] *)

(** [cmd_dev] after the frontend launch. *)
Lemma cmd_dev_split (w w1 : world O) (f : option Z) :
  start_frontend (printed (banner CmdDev) w) = (Ok f, w1) ->
  cmd_dev w
  = dev_backend f {| pid_file := dev_saved f (pid_file w);
                     stdout := stdout w1 ++ [Blank];
                     os := os w1 |}.
Proof.
  intro Hf.
  pose proof (start_frontend_pid _ _ _ Hf) as Tf.
  assert (Hsame : pid_file w1 = pid_file w).
  { pose proof (respects_start_frontend _ same_pid_file_frame (printed (banner CmdDev) w)) as H1.
    rewrite Hf in H1. exact H1. }
  unfold cmd_dev. rewrite !bind_print, banner_printed.
  erewrite bind_ok by exact Hf.
  set (w2 := {| pid_file := dev_saved f (pid_file w); stdout := stdout w1; os := os w1 |}).
  assert (Hstep : forall k : unit -> M O unit,
            bind (when (pid_truthy f) (save_pids (record_pid "frontend" f []))) k w1
            = k tt w2).
  { intro k0. unfold w2, dev_saved. rewrite Tf. destruct f as [pid|].
    - cbn [when]. rewrite bind_save_pids. unfold record_pid. rewrite Tf. reflexivity.
    - cbn [when]. rewrite bind_ret. rewrite <- Hsame. destruct w1; reflexivity. }
  rewrite Hstep, bind_print. reflexivity.
Qed.

Lemma respects_on_interrupt (f : option Z) : respects (@kept_or_removed O) (on_interrupt f).
Proof.
  pose proof kept_or_removed_frame. pose proof respects_remove_pid_file_kept.
  unfold on_interrupt. frame.
Qed.

Lemma respects_dev_backend (f : option Z) : respects (@kept_or_removed O) (dev_backend f).
Proof.
  pose proof kept_or_removed_frame. pose proof (respects_on_interrupt f).
  unfold dev_backend. frame.
Qed.

Lemma dev_backend_busy (f : option Z) (w : world O) :
  fst (sys_connect_ex O BACKEND_PORT (os w)) = 0 ->
  pid_file (snd (dev_backend f w)) = pid_file w.
Proof.
  intro Hbusy. unfold dev_backend, is_port_in_use, bind, call, ret.
  destruct (sys_connect_ex O BACKEND_PORT (os w)) as [rc e1].
  cbn in Hbusy. subst rc. reflexivity.
Qed.

(** [dev_backend] up to the point where the backend runs in the
    foreground. *)
Lemma dev_backend_foreground (f : option Z) (w : world O) (e1 : env O) :
  fst (sys_connect_ex O BACKEND_PORT (os w)) <> 0 ->
  modules_ready (snd (sys_connect_ex O BACKEND_PORT (os w))) e1 ->
  exists out,
    dev_backend f w
    = try_except (call_result (run_backend_foreground O) ;; ret tt)
        (fun e =>
           match e with
           | KeyboardInterrupt => Some (on_interrupt f)
           | _ => None
           end)
        {| pid_file := pid_file w; stdout := out; os := e1 |}.
Proof.
  intros Hfree Hready.
  destruct (sys_connect_ex O BACKEND_PORT (os w)) as [rc e0] eqn:Hp. cbn [fst snd] in *.
  apply Z.eqb_neq in Hfree.
  assert (Hport : is_port_in_use BACKEND_PORT w = (Ok false, set_os e0 w)).
  { unfold is_port_in_use, bind, call, ret. rewrite Hp, Hfree. reflexivity. }
  unfold dev_backend. erewrite bind_ok by exact Hport. cbv iota.
  erewrite bind_ok by reflexivity. cbn [os set_os].
  destruct Hready as [[Hmod ->]|[Hmod Hinst]]; rewrite Hmod; cbn [negb when].
  - rewrite bind_ret, !bind_print. eexists. reflexivity.
  - rewrite bind_assoc, bind_print, bind_assoc.
    assert (Hrun : call_result (run_npm_install O) (printed [InstallingDeps] (set_os e0 w))
                   = (Ok 0, set_os e1 (printed [InstallingDeps] (set_os e0 w)))).
    { unfold call_result. cbn [os set_os printed]. rewrite Hinst. reflexivity. }
    erewrite bind_ok by exact Hrun. cbn [Z.eqb]. rewrite bind_ret, !bind_print.
    eexists. reflexivity.
Qed.

Lemma remove_pid_file_run (w : world O) :
  remove_pid_file w = (Ok tt, snd (remove_pid_file w))
  /\ pid_file (snd (remove_pid_file w)) = None
  /\ stdout (snd (remove_pid_file w)) = stdout w
  /\ os (snd (remove_pid_file w)) = os w.
Proof. unfold remove_pid_file. destruct (pid_file w) eqn:E; cbn; auto. Qed.

(** The handler of the interrupt removes the state file, unless the
    signal that stops the frontend ends the script. *)
Lemma on_interrupt_run (f : option Z) (w : world O) :
  (forall pid, f = Some pid -> in_pid_t pid = true) ->
  (exists w1, on_interrupt f w = (Ok tt, w1) /\ pid_file w1 = None)
  \/ (exists sig w1,
        on_interrupt f w = (Raise (Killed sig), w1)
        /\ fatal sig = true /\ pid_file w1 = pid_file w).
Proof.
  intro Hpid. unfold on_interrupt. rewrite bind_print.
  set (w0 := printed [BackendStopped] w).
  assert (Hquiet : forall wq : world O,
            exists w1, bind (ret tt) (fun _ : unit => remove_pid_file) wq = (Ok tt, w1)
                       /\ pid_file w1 = None).
  { intros wq. rewrite bind_ret.
    destruct (remove_pid_file_run wq) as (H1 & H2 & _).
    eexists. split; [exact H1 | exact H2]. }
  destruct f as [pid|]; [|left; apply Hquiet].
  specialize (Hpid pid eq_refl).
  destruct (pid_truthy (Some pid)); [|left; apply Hquiet].
  destruct (is_process_running_returns pid w0 Hpid) as (alive & wa & Hprobe).
  pose proof (is_process_running_os _ _ _ _ Hprobe) as Ha.
  rewrite bind_assoc. erewrite bind_ok by exact Hprobe.
  destruct alive; cbn [when]; [|left; apply Hquiet].
  rewrite bind_assoc.
  destruct (stop_process_out (Literal "Frontend") pid wa Hpid)
    as [(sig & w2 & Hs & Hsig & Hw)|(b & ws & m & Hs & _)].
  - right. exists sig, w2. erewrite bind_raise by exact Hs.
    split; [reflexivity|]. split; [exact Hsig|].
    rewrite Hw. cbn. rewrite Ha. reflexivity.
  - left. erewrite bind_ok by exact Hs. rewrite bind_ret.
    destruct (remove_pid_file_run ws) as (H1 & H2 & _).
    eexists. split; [exact H1 | exact H2].
Qed.

Lemma on_interrupt_spared (J : env O -> Prop) (f : option Z) (w : world O) :
  (forall pid, f = Some pid -> in_pid_t pid = true /\ spares_caller J pid) ->
  J (os w) ->
  exists w1, on_interrupt f w = (Ok tt, w1) /\ pid_file w1 = None.
Proof.
  intros Hpid HJ. unfold on_interrupt. rewrite bind_print.
  set (w0 := printed [BackendStopped] w).
  assert (Hquiet : forall wq : world O,
            exists w1, bind (ret tt) (fun _ : unit => remove_pid_file) wq = (Ok tt, w1)
                       /\ pid_file w1 = None).
  { intros wq. rewrite bind_ret.
    destruct (remove_pid_file_run wq) as (H1 & H2 & _).
    eexists. split; [exact H1 | exact H2]. }
  destruct f as [pid|]; [|apply Hquiet].
  destruct (Hpid pid eq_refl) as [Hrange HS].
  destruct (pid_truthy (Some pid)); [|apply Hquiet].
  destruct (is_process_running_returns pid w0 Hrange) as (alive & wa & Hprobe).
  pose proof (signals_process J (sc_signals J pid HS) pid w0 HJ) as Ja.
  rewrite Hprobe in Ja. cbn [snd] in Ja.
  rewrite bind_assoc. erewrite bind_ok by exact Hprobe.
  destruct alive; cbn [when]; [|apply Hquiet].
  rewrite bind_assoc.
  destruct (stop_process_spared J (Literal "Frontend") pid wa HS Ja Hrange)
    as (b & ws & Hs & _).
  erewrite bind_ok by exact Hs. rewrite bind_ret.
  destruct (remove_pid_file_run ws) as (H1 & H2 & _).
  eexists. split; [exact H1 | exact H2].
Qed.

(** What [cmd_dev] leaves in the state file. *)
Lemma cmd_dev_table (w : world O) f w1 :
  start_frontend (printed (banner CmdDev) w) = (Ok f, w1) ->
  let saved := dev_saved f (pid_file w) in
  let probe := sys_connect_ex O BACKEND_PORT (os w1) in
  (pid_file (snd (cmd_dev w)) = saved \/ pid_file (snd (cmd_dev w)) = None)
  /\ (fst probe = 0 -> pid_file (snd (cmd_dev w)) = saved)
  /\ (forall e1 r e2,
        fst probe <> 0 -> modules_ready (snd probe) e1 ->
        run_backend_foreground O e1 = (r, e2) ->
        (r <> Raise KeyboardInterrupt ->
         fst (cmd_dev w) = match r with Ok _ => Ok tt | Raise x => Raise x end
         /\ pid_file (snd (cmd_dev w)) = saved
         /\ os (snd (cmd_dev w)) = e2)
        /\ (r = Raise KeyboardInterrupt ->
            (forall pid, f = Some pid -> in_pid_t pid = true) ->
            (fst (cmd_dev w) = Ok tt /\ pid_file (snd (cmd_dev w)) = None)
            \/ (exists sig,
                  fatal sig = true /\ fst (cmd_dev w) = Raise (Killed sig)
                  /\ pid_file (snd (cmd_dev w)) = saved))
        /\ (r = Raise KeyboardInterrupt ->
            forall J : env O -> Prop,
            (forall pid, f = Some pid -> in_pid_t pid = true /\ spares_caller J pid) ->
            J e2 ->
            fst (cmd_dev w) = Ok tt /\ pid_file (snd (cmd_dev w)) = None)).
Proof.
  intros Hf saved probe. rewrite (cmd_dev_split w w1 f Hf). fold saved.
  set (w2 := {| pid_file := saved; stdout := stdout w1 ++ [Blank]; os := os w1 |}).
  split; [|split].
  - apply (respects_dev_backend f w2).
  - intro Hbusy. apply (dev_backend_busy f w2 Hbusy).
  - intros e1 r e2 Hfree Hready Hrun.
    destruct (dev_backend_foreground f w2 e1 Hfree Hready) as (out & Hdev).
    rewrite Hdev. clear Hdev.
    set (fore := {| pid_file := pid_file w2; stdout := out; os := e1 |}).
    assert (Hfore : (call_result (run_backend_foreground O) ;; ret tt) fore
                    = (match r with Ok _ => Ok tt | Raise x => Raise x end,
                       set_os e2 fore)).
    { unfold bind, call_result. cbn [os fore]. rewrite Hrun. destruct r; reflexivity. }
    unfold try_except. rewrite Hfore. split; [|split].
    + intro Hr. destruct r as [rc|x]; [cbn; auto|].
      destruct x; cbn; auto. congruence.
    + intros -> Hpid.
      destruct (on_interrupt_run f (set_os e2 fore) Hpid)
        as [(wi & Hon & Hnone)|(sig & wi & Hon & Hsig & Hfile)]; rewrite Hon.
      * left. auto.
      * right. exists sig. cbn [fst snd]. auto.
    + intros -> J Hpid HJ.
      destruct (on_interrupt_spared J f (set_os e2 fore) Hpid HJ) as (wi & Hon & Hnone).
      rewrite Hon. auto.
Qed.

(** *** [cmd_stop] *)

(** [stop_all] ends normally, or at the entry whose signal reaches the
    script. *)
Lemma stop_all_cases (items : dict) :
  forall w : world O,
  Forall (fun kv => in_pid_t (snd kv) = true) items ->
  (exists w1, stop_all items w = (Ok tt, w1))
  \/ (exists sig before name pid after wb w2,
        fatal sig = true
        /\ items = before ++ (name, pid) :: after
        /\ stop_all before w = (Ok tt, wb)
        /\ self_signalled (Capitalize name) pid sig wb w2
        /\ stop_all items w = (Raise (Killed sig), w2)).
Proof.
  induction items as [|[name pid] r IH]; intros w H; cbn [stop_all].
  - left. eexists. reflexivity.
  - inversion H as [|? ? Hpid Hr]; subst. cbn [snd] in Hpid.
    destruct (stop_process_spec (Capitalize name) pid w Hpid)
      as [(sig & w2 & Hself & Hsig & Hs)|(b & w1 & Hs & _)].
    + right. exists sig, [], name, pid, r, w, w2.
      erewrite bind_raise by exact Hs. auto.
    + erewrite bind_ok by exact Hs.
      destruct (IH w1 Hr)
        as [Hok|(sig & before & n & p & after & wb & w2 & Hsig & -> & Hb & Hself & Hall)].
      * left. exact Hok.
      * right. exists sig, ((name, pid) :: before), n, p, after, wb, w2.
        split; [exact Hsig|]. split; [reflexivity|]. split; [|auto].
        cbn [stop_all]. erewrite bind_ok by exact Hs. exact Hb.
Qed.

Lemma get_running_pids_world (w w1 : world O) r :
  get_running_pids w = (r, w1) -> pid_file w1 = pid_file w /\ os w1 = os w.
Proof.
  unfold get_running_pids. destruct (pid_file w) as [text|] eqn:E.
  - destruct (load_text text) as [d [e|]].
    + destruct (is_Exception e); intros [= <- <-]; cbn; auto.
    + intros [= <- <-]. auto.
  - intros [= <- <-]. auto.
Qed.

Lemma cmd_stop_ok (w : world O) pids w1 w2 :
  get_running_pids (printed (banner CmdStop) w) = (Ok pids, w1) ->
  truthy pids = true ->
  stop_all pids w1 = (Ok tt, w2) ->
  fst (cmd_stop w) = Ok tt /\ pid_file (snd (cmd_stop w)) = None.
Proof.
  intros Hload Htruthy Hstop.
  unfold cmd_stop. rewrite !bind_print, banner_printed.
  erewrite bind_ok by exact Hload. rewrite Htruthy. cbn [negb].
  assert (Hrm : exists w3, (stop_all pids ;; remove_pid_file) w1 = (Ok tt, w3)
                           /\ pid_file w3 = None).
  { erewrite bind_ok by exact Hstop. unfold remove_pid_file.
    destruct (pid_file w2) eqn:E; eexists; split; try reflexivity. exact E. }
  destruct Hrm as (w3 & Hrm & Hnone).
  erewrite !bind_ok by exact Hrm. cbn. auto.
Qed.

Lemma cmd_stop_killed (w : world O) pids w1 sig w2 :
  get_running_pids (printed (banner CmdStop) w) = (Ok pids, w1) ->
  truthy pids = true ->
  stop_all pids w1 = (Raise (Killed sig), w2) ->
  cmd_stop w = (Raise (Killed sig), w2) /\ pid_file w2 = pid_file w.
Proof.
  intros Hload Htruthy Hstop.
  assert (Hfile : pid_file w2 = pid_file w).
  { pose proof (respects_stop_all _ same_pid_file_frame pids w1) as H.
    rewrite Hstop in H. unfold same_pid_file in H. cbn in H. rewrite H.
    apply get_running_pids_world in Hload as [Hf _]. exact Hf. }
  split; [|exact Hfile].
  unfold cmd_stop. rewrite !bind_print, banner_printed.
  erewrite bind_ok by exact Hload. rewrite Htruthy. cbn [negb].
  erewrite bind_raise; [reflexivity|].
  erewrite bind_raise; [reflexivity | exact Hstop].
Qed.

(** What [cmd_stop] leaves in the state file. *)
Lemma cmd_stop_table (w : world O) pids w1 :
  get_running_pids (printed (banner CmdStop) w) = (Ok pids, w1) ->
  truthy pids = true ->
  Forall (fun kv => in_pid_t (snd kv) = true) pids ->
  ((fst (cmd_stop w) = Ok tt /\ pid_file (snd (cmd_stop w)) = None)
   \/ (exists sig before name pid after wb w2,
         fatal sig = true
         /\ pids = before ++ (name, pid) :: after
         /\ stop_all before w1 = (Ok tt, wb)
         /\ self_signalled (Capitalize name) pid sig wb w2
         /\ cmd_stop w = (Raise (Killed sig), w2)
         /\ pid_file w2 = pid_file w))
  /\ (forall J : env O -> Prop,
        Forall (fun kv => spares_caller J (snd kv)) pids -> J (os w) ->
        fst (cmd_stop w) = Ok tt /\ pid_file (snd (cmd_stop w)) = None).
Proof.
  intros Hload Htruthy Hpids. split.
  - destruct (stop_all_cases pids w1 Hpids)
      as [(w2 & Hstop)
         |(sig & before & n & p & after & wb & w2 & Hsig & Heq & Hb & Hself & Hall)].
    + left. eapply cmd_stop_ok; eassumption.
    + right. exists sig, before, n, p, after, wb, w2.
      destruct (cmd_stop_killed w pids w1 sig w2 Hload Htruthy Hall) as [Hs Hfile].
      auto 10.
  - intros J HS HJ.
    assert (Hboth : Forall (fun kv => in_pid_t (snd kv) = true /\ spares_caller J (snd kv))
                      pids).
    { rewrite Forall_forall in *. intros kv Hkv. auto. }
    assert (HJ1 : J (os w1)).
    { apply get_running_pids_world in Hload as [_ Hos]. rewrite Hos. exact HJ. }
    destruct (stop_all_spared J pids w1 Hboth HJ1) as (w2 & Hstop & _).
    eapply cmd_stop_ok; eassumption.
Qed.

(** C2, as the code has it.  [cmd_start] overwrites the state file with
    exactly the PIDs of the launches that succeeded when there is at
    least one, and leaves the file as it was when there is none.
    [cmd_dev] overwrites it with the frontend PID when the frontend
    launch succeeds and leaves it as it was otherwise; the file then
    stays so when the backend port is busy and when the backend that
    runs in the foreground ends by itself; when the user interrupts
    that backend, [cmd_dev] removes the file.  [cmd_stop], when the
    table it loaded is not empty and its PIDs fit [pid_t], removes the
    state file, whatever the calls of [stop_process] returned.  The
    exception to both removals: a signal that [stop_process] sends
    reaches the script itself and ends it, and the file stays as it
    was; this does not happen while the script is in the process group
    of none of the PIDs. *)
Theorem pid_table_after_commands (w : world O) :
  (forall b w1 f w2,
      start_backend (printed (banner CmdStart) w) = (Ok b, w1) ->
      start_frontend (printed [Blank] w1) = (Ok f, w2) ->
      launched b f = entry_of "backend" b ++ entry_of "frontend" f
      /\ pid_file (snd (cmd_start w))
         = if truthy (launched b f) then Some (render (launched b f)) else pid_file w)
  /\ (forall f w1,
      start_frontend (printed (banner CmdDev) w) = (Ok f, w1) ->
      let saved := dev_saved f (pid_file w) in
      let probe := sys_connect_ex O BACKEND_PORT (os w1) in
      (pid_file (snd (cmd_dev w)) = saved \/ pid_file (snd (cmd_dev w)) = None)
      /\ (fst probe = 0 -> pid_file (snd (cmd_dev w)) = saved)
      /\ (forall e1 r e2,
            fst probe <> 0 -> modules_ready (snd probe) e1 ->
            run_backend_foreground O e1 = (r, e2) ->
            (r <> Raise KeyboardInterrupt ->
             fst (cmd_dev w) = match r with Ok _ => Ok tt | Raise x => Raise x end
             /\ pid_file (snd (cmd_dev w)) = saved
             /\ os (snd (cmd_dev w)) = e2)
            /\ (r = Raise KeyboardInterrupt ->
                (forall pid, f = Some pid -> in_pid_t pid = true) ->
                (fst (cmd_dev w) = Ok tt /\ pid_file (snd (cmd_dev w)) = None)
                \/ (exists sig,
                      fatal sig = true /\ fst (cmd_dev w) = Raise (Killed sig)
                      /\ pid_file (snd (cmd_dev w)) = saved))
            /\ (r = Raise KeyboardInterrupt ->
                forall J : env O -> Prop,
                (forall pid, f = Some pid -> in_pid_t pid = true /\ spares_caller J pid) ->
                J e2 ->
                fst (cmd_dev w) = Ok tt /\ pid_file (snd (cmd_dev w)) = None)))
  /\ (forall pids w1,
      get_running_pids (printed (banner CmdStop) w) = (Ok pids, w1) ->
      truthy pids = true ->
      Forall (fun kv => in_pid_t (snd kv) = true) pids ->
      ((fst (cmd_stop w) = Ok tt /\ pid_file (snd (cmd_stop w)) = None)
       \/ (exists sig before name pid after wb w2,
             fatal sig = true
             /\ pids = before ++ (name, pid) :: after
             /\ stop_all before w1 = (Ok tt, wb)
             /\ self_signalled (Capitalize name) pid sig wb w2
             /\ cmd_stop w = (Raise (Killed sig), w2)
             /\ pid_file w2 = pid_file w))
      /\ (forall J : env O -> Prop,
            Forall (fun kv => spares_caller J (snd kv)) pids -> J (os w) ->
            fst (cmd_stop w) = Ok tt /\ pid_file (snd (cmd_stop w)) = None)).
Proof.
  split; [intros; eapply cmd_start_table; eassumption|].
  split; [intros f w1 Hf; exact (cmd_dev_table w f w1 Hf)|].
  intros; eapply cmd_stop_table; eassumption.
Qed.

End Table.

(** ** [cmd_status] *)

Section Status.
Context {O : OS}.
Import Props Outcomes Run RunFacts StepFacts PidFile QuietFacts.
Local Open Scope run_scope.














End Status.

(** ** Launching *)

Section Launch.
Context {O : OS}.
Import Props Outcomes Run RunFacts StepFacts PidFile.
Local Open Scope run_scope.

Lemma is_port_in_use_run (port : Z) (w : world O) :
  is_port_in_use port w
  = (Ok (fst (sys_connect_ex O port (os w)) =? 0),
     set_os (snd (sys_connect_ex O port (os w))) w).
Proof.
  unfold is_port_in_use, bind, call, ret.
  destruct (sys_connect_ex O port (os w)) as [rc e1]. reflexivity.
Qed.









End Launch.

(** ** A state file of two lines *)

Section TwoLines.
Context {O : OS}.
Import Props PyStr PyStrFacts PidFile PidFileFacts LoadFacts.

Lemma parse_line_newline (s : string) : parse_line (line s) = parse_line s.
Proof. unfold parse_line, line. rewrite strip_newline. reflexivity. Qed.

Lemma parse_line_malformed (bad : string) :
  (forall n p, parse_line bad <> Entry n p) ->
  parse_line bad = if contains EQ bad then Fault ValueError else Skipped.
Proof.
  intro Hbad. pose proof (contains_strip EQ bad eq_refl) as Hc.
  destruct (parse_line bad) as [|n p|e] eqn:E.
  - unfold parse_line in E. rewrite Hc in E. destruct (contains EQ bad); [|reflexivity].
    destruct (split EQ (strip bad)) as [|a [|b [|c r]]]; try discriminate.
    destruct (int b); discriminate.
  - exfalso. eapply Hbad. reflexivity.
  - rewrite (parse_line_fault _ _ E). unfold parse_line in E. rewrite Hc in E.
    destruct (contains EQ bad); [reflexivity | discriminate].
Qed.

Lemma readlines_last_line (s : string) :
  one_line s = true -> readlines (line s) = [line s].
Proof. intro H. unfold line. rewrite readlines_line by assumption. reflexivity. Qed.

Lemma readlines_entry_then (name : string) (pid : Z) (rest : string) :
  good_name name = true ->
  readlines (entry_line (name, pid) ++ rest)%string
  = entry_line (name, pid) :: readlines rest.
Proof.
  intro H. rewrite entry_line_body at 1. rewrite append_assoc. cbn [append].
  rewrite readlines_line by (apply one_line_entry; exact H).
  rewrite entry_line_body. reflexivity.
Qed.

Lemma readlines_line_then (s rest : string) :
  one_line s = true -> readlines (line s ++ rest)%string = line s :: readlines rest.
Proof.
  intro H. unfold line. rewrite append_assoc. cbn [append].
  apply readlines_line. exact H.
Qed.

Lemma readlines_entry_line (name : string) (pid : Z) :
  good_name name = true -> readlines (entry_line (name, pid)) = [entry_line (name, pid)].
Proof.
  intro H. rewrite entry_line_body. apply (readlines_last_line _ (one_line_entry _ _ H)).
Qed.

(** C1, as the code has it.  Take a state file of two lines, the line
    written for an entry and a line that does not parse as an entry.
    With the entry first, [get_running_pids] returns exactly the entry.
    With the other line first, it returns the entry when that line has
    no [=] (the line is skipped, nothing is printed) and the empty
    dictionary when it has one (the parse stops there).  A warning is
    printed exactly when the other line has an [=]. *)
Theorem one_entry_one_malformed_line (w : Run.world O) (name : string) (pid : Z)
        (bad : string) :
  good_name name = true ->
  one_line bad = true ->
  (forall n p, parse_line bad <> Entry n p) ->
  (Run.pid_file w = Some (entry_line (name, pid) ++ line bad)%string ->
   Run.get_running_pids w
   = (Ok [(name, pid)], if contains EQ bad then warned ValueError w else w))
  /\ (Run.pid_file w = Some (line bad ++ entry_line (name, pid))%string ->
      Run.get_running_pids w
      = if contains EQ bad then (Ok [], warned ValueError w) else (Ok [(name, pid)], w)).
Proof.
  intros Hname Hline Hbad.
  pose proof (parse_line_malformed bad Hbad) as Hparse.
  rewrite <- parse_line_newline in Hparse.
  split; intro Hfile; unfold Run.get_running_pids, load_text; rewrite Hfile.
  - rewrite readlines_entry_then, readlines_last_line by assumption.
    cbn [read_entries]. rewrite parse_line_entry_line by assumption.
    rewrite Hparse. destruct (contains EQ bad); reflexivity.
  - rewrite readlines_line_then, readlines_entry_line by assumption.
    cbn [read_entries]. rewrite Hparse.
    destruct (contains EQ bad); [reflexivity|].
    rewrite parse_line_entry_line by assumption. reflexivity.
Qed.

End TwoLines.

(** ** The state file while it is written *)

Section Saving.
Import Props PyStr PidFile PidFileFacts.

Lemma prefix_app (a b : string) : String.prefix a (a ++ b)%string = true.
Proof.
  induction a as [|c r IH]; cbn; [destruct b; reflexivity|].
  destruct (ascii_dec c c); [exact IH | congruence].
Qed.

Lemma split_at_app (k : nat) (s : string) :
  (fst (split_at k s) ++ snd (split_at k s))%string = s.
Proof.
  revert s. induction k as [|k IH]; intros [|c r]; cbn; try reflexivity.
  specialize (IH r). destruct (split_at k r) as [a b]. cbn in *. rewrite IH. reflexivity.
Qed.

Lemma fwrite_spec (k : nat) (s : string) (f : wfile) :
  fclose (fwrite k s f) = (fclose f ++ s)%string
  /\ exists kept, (on_disk (fwrite k s f) ++ kept)%string = (fclose f ++ s)%string.
Proof.
  unfold fwrite, fclose.
  pose proof (split_at_app k (pending f ++ s)%string) as H.
  destruct (split_at k (pending f ++ s)%string) as [out kept]. cbn in *.
  rewrite !append_assoc, H. split; [reflexivity|].
  exists kept. rewrite append_assoc, H. reflexivity.
Qed.

Lemma disk_after_writes_spec (flush : nat -> nat) (d : dict) :
  forall i f,
  Forall (fun s => exists rest, (s ++ rest)%string = (fclose f ++ render d)%string)
         (disk_after_writes flush i d f)
  /\ last (disk_after_writes flush i d f) EmptyString = (fclose f ++ render d)%string.
Proof.
  induction d as [|kv r IH]; intros i f; cbn [disk_after_writes render].
  - split; [constructor; [|constructor]|]; cbn.
    + exists EmptyString. reflexivity.
    + rewrite PyStrFacts.append_empty. reflexivity.
  - set (f' := fwrite (flush i) (entry_line kv) f).
    destruct (fwrite_spec (flush i) (entry_line kv) f) as [Hclose [kept Hkept]].
    fold f' in Hclose, Hkept.
    destruct (IH (S i) f') as [Hall Hlast].
    rewrite Hclose, append_assoc in Hall, Hlast.
    split.
    + constructor; [|exact Hall].
      exists (kept ++ render r)%string.
      rewrite <- append_assoc, Hkept, append_assoc. reflexivity.
    + destruct (disk_after_writes flush (S i) r f') eqn:E; [|exact Hlast].
      destruct r; discriminate.
Qed.

(** C8, as the code has it.  [save_pids] truncates the state file when
    it opens it and the text reaches the disk in pieces: whatever the
    buffering, a reader finds an empty file first, then only prefixes of
    the new text, and the complete new text (one line per entry) once
    the file is closed, which is what [save_pids] leaves. *)
Theorem save_is_truncate_then_write (flush : nat -> nat) (pids : dict) :
  hd EmptyString (disk_states flush pids) = EmptyString
  /\ Forall (fun s => String.prefix s (render pids) = true) (disk_states flush pids)
  /\ last (disk_states flush pids) EmptyString = render pids
  /\ forall (O : OS) (w : Run.world O),
       Run.pid_file (snd (Run.save_pids pids w)) = Some (render pids).
Proof.
  destruct (disk_after_writes_spec flush pids 0%nat fopen_w) as [Hall Hlast].
  change (fclose fopen_w ++ render pids)%string with (render pids) in Hall, Hlast.
  split; [reflexivity|]. split; [|split].
  - unfold disk_states. constructor; [destruct (render pids); reflexivity|].
    eapply Forall_impl; [|exact Hall]. intros s [rest <-]. apply prefix_app.
  - unfold disk_states.
    destruct (disk_after_writes flush 0 pids fopen_w) eqn:E; [|exact Hlast].
    destruct pids; discriminate.
  - intros O w. reflexivity.
Qed.
End Saving.

(** ** The liveness probe on the POSIX machine *)

Section Probe.
Import Props Run Posix Scenarios PidFile.

Lemma probe_error_collapses (O : OS) (w : world O) (pid n : Z) (e1 : env O) :
  in_pid_t pid = true ->
  sys_kill O pid 0 (os w) = (Refused n, e1) ->
  is_process_running pid w = (Ok false, set_os e1 w).
Proof.
  intros Hpid Hkill. unfold is_process_running, try_except, bind, os_kill, call_result.
  rewrite Hpid, Hkill. reflexivity.
Qed.

Lemma probe_overflow (O : OS) (w : world O) (pid : Z) :
  in_pid_t pid = false -> is_process_running pid w = (Raise OverflowError, w).
Proof.
  intro Hpid. unfold is_process_running, try_except, bind, os_kill, raise.
  rewrite Hpid. reflexivity.
Qed.

Lemma probe_of_dead_pid (m : machine) (file : option string) (pid : Z) :
  0 < pid <= PID_T_MAX -> pid <> self_pid m -> live m pid = false ->
  is_process_running pid (start_in m file) = (Ok false, start_in m file).
Proof.
  intros [Hpos Hmax] Hself Hdead.
  assert (Hrange : in_pid_t pid = true).
  { unfold in_pid_t. apply andb_true_iff. split; apply Z.leb_le;
      [unfold PID_T_MIN; lia | exact Hmax]. }
  assert (Hkill : kill pid 0 m = (Refused ESRCH, m)).
  { unfold kill, addresses_self. apply Z.ltb_lt in Hpos.
    assert (Hnone : filter (addressed m pid) (procs m) = []).
    { unfold live in Hdead. induction (procs m) as [|p ps IH]; [reflexivity|].
      cbn in Hdead. apply orb_false_iff in Hdead as [Hp Hps].
      cbn. unfold addressed at 1. rewrite Hpos, Hp. apply IH. exact Hps. }
    rewrite Hpos, Hnone. apply Z.eqb_neq in Hself. rewrite Hself. reflexivity. }
  apply (probe_error_collapses posix (start_in m file) pid ESRCH m Hrange Hkill).
Qed.

(** C5 at PID 0.  No process has PID 0, yet [is_process_running 0]
    answers true on every machine: the probe [kill(0, 0)] addresses the
    process group of the script itself.  Such a PID reaches the probe
    from the state file: with the line [backend=0], [cmd_status] reports
    the backend as running with PID 0. *)
Theorem is_process_running_pid_zero (m : machine) (file : option string) :
  fst (is_process_running 0 (start_in m file)) = Ok true
  /\ live idle 0 = false
  /\ exists pre post,
       stdout (snd (cmd_status (start_in idle (Some (line "backend=0")))))
       = pre ++ StatusLine Backend (StatusRunning 0) :: post.
Proof.
  split; [reflexivity|]. split; [reflexivity|].
  exists (banner CmdStatus), [StatusLine Frontend StatusStopped; RuleAlone].
  vm_compute. reflexivity.
Qed.

End Probe.

(** ** Concrete runs *)

Section Runs.
Import Props Outcomes PyStr Run Posix Scenarios MoreScenarios PidFile.
Import Footprint PosixProps PosixFacts.

(** *** C1 *)

(** The malformed line first: the entry that follows it is lost. *)
Lemma malformed_line_first_loses_entry :
  parse_line (line "frontend=2") = Entry "frontend" 2
  /\ parse_line (line "backend=abc") = Fault ValueError
  /\ fst (get_running_pids
            (start_in idle (Some (line "backend=abc" ++ line "frontend=2")%string)))
     = Ok []
  /\ fst (get_running_pids
            (start_in idle (Some (line "backend=abc" ++ line "frontend=2")%string)))
     <> Ok [("frontend", 2)].
Proof.
  split; [reflexivity|]. split; [reflexivity|]. split; [reflexivity|].
  vm_compute. discriminate.
Qed.

Lemma one_entry_one_malformed_line_witness :
  let entry_first := (entry_line ("frontend", 2) ++ line "backend=abc")%string in
  let entry_last := (line "no entry here" ++ entry_line ("frontend", 2))%string in
  get_running_pids (start_in idle (Some entry_first))
  = (Ok [("frontend", 2)], warned ValueError (start_in idle (Some entry_first)))
  /\ get_running_pids (start_in idle (Some entry_last))
     = (Ok [("frontend", 2)], start_in idle (Some entry_last)).
Proof.
  intros entry_first entry_last. split.
  - refine (proj1 (one_entry_one_malformed_line
                     (O := posix) (start_in idle (Some entry_first))
                     "frontend" 2 "backend=abc" eq_refl eq_refl _) eq_refl).
    intros n p. vm_compute. discriminate.
  - refine (proj2 (one_entry_one_malformed_line
                     (O := posix) (start_in idle (Some entry_last))
                     "frontend" 2 "no entry here" eq_refl eq_refl _) eq_refl).
    intros n p. vm_compute. discriminate.
Defined.

(** *** C2 *)

(** Both ports busy: no launch succeeds and the entry of an earlier
    invocation is still in the state file after [cmd_start]. *)
Lemma start_keeps_stale_table :
  let w := start_in both_busy (Some (line "backend=4242")) in
  fst (start_backend (printed (banner CmdStart) w)) = Ok None
  /\ fst (start_frontend
            (printed [Blank] (snd (start_backend (printed (banner CmdStart) w)))))
     = Ok None
  /\ pid_file (snd (cmd_start w)) = Some (line "backend=4242")
  /\ fst (get_running_pids (snd (cmd_start w))) = Ok [("backend", 4242)]
  /\ fst (get_running_pids (snd (cmd_start w))) <> Ok (launched None None).
Proof. vm_compute. repeat split. discriminate. Qed.

(** The script alone in its group on the machines of the runs. *)
Lemma serving_alone : alone_in_group 500 500 serving.
Proof. split; [reflexivity|]. split; [reflexivity|]. repeat constructor; discriminate. Qed.

Lemma pid_table_after_commands_witness :
  pid_file (snd (cmd_start (start_in idle (Some (line "backend=4242")))))
  = Some (render both_services)
  /\ pid_file (snd (cmd_dev (start_in backend_busy None)))
     = Some (render [("frontend", 501)])
  /\ (fst (cmd_dev (start_in idle (Some (line "backend=4242")))) = Ok tt
      /\ pid_file (snd (cmd_dev (start_in idle (Some (line "backend=4242")))))
         = Some (render [("frontend", 501)]))
  /\ (fst (cmd_dev (start_in interrupted None)) = Ok tt
      /\ pid_file (snd (cmd_dev (start_in interrupted None))) = None)
  /\ (fst (cmd_stop (start_in serving (Some (render both_services)))) = Ok tt
      /\ pid_file (snd (cmd_stop (start_in serving (Some (render both_services))))) = None).
Proof.
  split; [|split; [|split; [|split]]].
  - set (w := start_in idle (Some (line "backend=4242"))).
    destruct (pid_table_after_commands (O := posix) w) as (Hstart & _ & _).
    exact (proj2 (Hstart (Some 501) (snd (start_backend (printed (banner CmdStart) w)))
                         (Some 502)
                         (snd (start_frontend
                                 (printed [Blank]
                                    (snd (start_backend (printed (banner CmdStart) w))))))
                         eq_refl eq_refl)).
  - set (w := start_in backend_busy None).
    destruct (pid_table_after_commands (O := posix) w) as (_ & Hdev & _).
    destruct (Hdev (Some 501) (snd (start_frontend (printed (banner CmdDev) w))) eq_refl)
      as (_ & Hbusy & _).
    exact (Hbusy eq_refl).
  - set (w := start_in idle (Some (line "backend=4242"))).
    destruct (pid_table_after_commands (O := posix) w) as (_ & Hdev & _).
    set (w1 := snd (start_frontend (printed (banner CmdDev) w))).
    destruct (Hdev (Some 501) w1 eq_refl) as (_ & _ & Hfore).
    assert (Hfree : fst (sys_connect_ex posix BACKEND_PORT (os w1)) <> 0) by discriminate.
    assert (Hready : modules_ready (O := posix)
                       (snd (sys_connect_ex posix BACKEND_PORT (os w1))) (os w1))
      by (left; split; reflexivity).
    destruct (Hfore (os w1) (Ok 0) (os w1) Hfree Hready eq_refl) as (Hends & _).
    destruct Hends as (H1 & H2 & _); [discriminate|]. split; [exact H1 | exact H2].
  - set (w := start_in interrupted None).
    destruct (pid_table_after_commands (O := posix) w) as (_ & Hdev & _).
    set (w1 := snd (start_frontend (printed (banner CmdDev) w))).
    destruct (Hdev (Some 501) w1 eq_refl) as (_ & _ & Hfore).
    assert (Hfree : fst (sys_connect_ex posix BACKEND_PORT (os w1)) <> 0) by discriminate.
    assert (Hready : modules_ready (O := posix)
                       (snd (sys_connect_ex posix BACKEND_PORT (os w1))) (os w1))
      by (left; split; reflexivity).
    destruct (Hfore (os w1) (Raise KeyboardInterrupt) (os w1) Hfree Hready eq_refl)
      as (_ & _ & Hspared).
    refine (Hspared eq_refl (alone_in_group 500 500) _ _).
    + intros pid [= <-]. split; [reflexivity|]. apply posix_spares; discriminate.
    + split; [reflexivity|]. split; [reflexivity|]. repeat constructor; discriminate.
  - set (w := start_in serving (Some (render both_services))).
    destruct (pid_table_after_commands (O := posix) w) as (_ & _ & Hstop).
    assert (Hfit : Forall (fun kv => in_pid_t (snd kv) = true) both_services)
      by (unfold both_services; repeat constructor).
    destruct (Hstop both_services (printed (banner CmdStop) w) eq_refl eq_refl Hfit)
      as (_ & Hspared).
    refine (Hspared (alone_in_group 500 500) _ serving_alone).
    unfold both_services.
    constructor; [apply posix_spares; discriminate|].
    constructor; [apply posix_spares; discriminate | constructor].
Defined.

(** A recorded PID of 0 stands for the group of the script: [cmd_stop]
    signals that group, the script ends there and the state file
    stays. *)
Example stop_ends_the_script :
  let w := start_in serving (Some (line "backend=0" ++ line "frontend=502")%string) in
  fst (cmd_stop w) = Raise (Killed SIGTERM)
  /\ pid_file (snd (cmd_stop w)) = pid_file w
  /\ live (os (snd (cmd_stop w))) 502 = true.
Proof. vm_compute. repeat split. Qed.

(** After an interrupt [cmd_dev] stops the frontend and removes the
    state file. *)
Example dev_interrupted :
  pid_file (snd (cmd_dev (start_in interrupted None))) = None
  /\ live (os (snd (cmd_dev (start_in interrupted None)))) 501 = false.
Proof. vm_compute. split; reflexivity. Qed.

(** *** C3 *)

Lemma save_load_roundtrip_witness :
  service_table both_services
  /\ get_running_pids (snd (save_pids both_services (start_in idle None)))
     = (Ok both_services, snd (save_pids both_services (start_in idle None))).
Proof.
  assert (H : service_table both_services).
  { split.
    - unfold both_services. repeat constructor; cbn; intuition discriminate.
    - unfold both_services, service_name.
      repeat (constructor; [split; [cbn; auto | reflexivity]|]). constructor. }
  split; [exact H|].
  exact (save_load_roundtrip (O := posix) (start_in idle None) both_services H).
Defined.

(** *** C4 *)

(** A process that may be probed but not signalled: [stop_process]
    returns false, and false again on the second call.  And PID 0,
    which stands for the group of the script: the first call ends the
    script. *)
Lemma stop_process_second_call_fails :
  let w := start_in guarded_machine None in
  fst (stop_process (Capitalize "backend") 4242 w) = Ok false
  /\ fst (stop_process (Capitalize "backend") 4242
            (snd (stop_process (Capitalize "backend") 4242 w)))
     = Ok false
  /\ fst (stop_process (Capitalize "backend") 4242
            (snd (stop_process (Capitalize "backend") 4242 w)))
     <> Ok true
  /\ fst (stop_process (Capitalize "backend") 0 (start_in serving None))
     = Raise (Killed SIGTERM).
Proof. vm_compute. repeat split. discriminate. Qed.

Lemma stop_process_twice_witness :
  in_pid_t 501 = true
  /\ exists b1 w1 b2 w2,
       stop_process (Capitalize "backend") 501 (start_in serving None) = (Ok b1, w1)
       /\ stop_process (Capitalize "backend") 501 w1 = (Ok b2, w2).
Proof.
  split; [reflexivity|].
  refine (proj2 (stop_process_twice (O := posix) (start_in serving None)
                   (Capitalize "backend") 501 eq_refl)
                (alone_in_group 500 500) _ serving_alone).
  apply posix_spares; discriminate.
Defined.

(** Stopping a running service, then stopping it again. *)
Example stop_twice_run :
  let w := start_in serving None in
  stop_process (Capitalize "backend") 501 w
  = (Ok true,
     printed [Stopped (Capitalize "backend") 501]
       (start_in (pass 1000 (with_procs [init_proc; listener 502 FRONTEND_PORT] serving))
                 None))
  /\ fst (stop_process (Capitalize "backend") 501
            (snd (stop_process (Capitalize "backend") 501 w)))
     = Ok true
  /\ stdout (snd (stop_process (Capitalize "backend") 501
                    (snd (stop_process (Capitalize "backend") 501 w))))
     = [Stopped (Capitalize "backend") 501; NotRunning (Capitalize "backend") 501].
Proof. vm_compute. repeat split. Qed.

(** *** C6 *)



(** *** C7 *)



(** *** C8 *)

(** Right after the [open] the file is empty: a reader finds neither
    the previous text nor the new one. *)
Lemma save_shows_empty_file :
  In EmptyString (disk_states (fun _ => 0%nat) [("frontend", 2)])
  /\ EmptyString <> line "backend=1"
  /\ EmptyString <> render [("frontend", 2)].
Proof. split; [left; reflexivity|]. split; vm_compute; discriminate. Qed.

(** *** C9 *)

Lemma load_missing_file_witness :
  get_running_pids (start_in idle None) = (Ok [], start_in idle None).
Proof. exact (load_missing_file (O := posix) (start_in idle None) eq_refl). Defined.

(** *** C10 *)

Lemma load_total_witness :
  let text := (line "backend=7" ++ line "" ++ line "frontend=x" ++ line "other=9")%string in
  let clean := (line "backend=7" ++ line "# servers" ++ line "frontend=8")%string in
  get_running_pids (start_in idle (Some text))
  = (Ok [("backend", 7)], warned ValueError (start_in idle (Some text)))
  /\ get_running_pids (start_in idle (Some clean))
     = (Ok [("backend", 7); ("frontend", 8)], start_in idle (Some clean))
  /\ read_entries [line ""; line "backend=7"] [] = read_entries [line "backend=7"] []
  /\ parse_line (line "a=1=2") = Fault ValueError.
Proof.
  intros text clean. split; [|split; [|split]].
  - destruct (load_total (O := posix) (start_in idle (Some text))) as (_ & Hfault & _).
    refine (Hfault text [line "backend=7"; line ""] (line "frontend=x") [line "other=9"]
                   ValueError eq_refl eq_refl _ eq_refl).
    repeat constructor.
  - destruct (load_total (O := posix) (start_in idle (Some clean))) as (_ & _ & Hclean & _).
    refine (Hclean clean eq_refl _). repeat constructor.
  - destruct (load_total (O := posix) (start_in idle None)) as (_ & _ & _ & Hskip & _).
    exact (Hskip (line "") [line "backend=7"] [] eq_refl).
  - destruct (load_total (O := posix) (start_in idle None)) as (_ & _ & _ & _ & Hraise).
    refine (Hraise (line "a=1=2") eq_refl _).
    intros name field Hsplit. vm_compute in Hsplit. discriminate Hsplit.
Defined.

End Runs.

(* ===================================================================== *)
(** * More of the script                                                  *)
(* ===================================================================== *)

(** ** The lines of a text and the entries they give *)

Module TextFacts.
Import Props Outcomes PyStr PyStrFacts.

Lemma split_cons (sep : ascii) (s : string) :
  forall a rest, split sep s = a :: rest ->
  contains sep a = false
  /\ ((rest = [] /\ s = a)
      \/ (exists s', s = (a ++ String sep s')%string /\ split sep s' = rest)).
Proof.
  induction s as [|c r IH]; intros a rest; cbn [split].
  - intros [= <- <-]. split; [reflexivity|]. left. split; reflexivity.
  - destruct (Ascii.eqb_spec c sep) as [->|Hne].
    + intros [= <- <-]. split; [reflexivity|]. right. exists r. split; reflexivity.
    + destruct (split sep r) as [|f fs] eqn:E.
      * intros [= <- <-]. split.
        -- cbn. destruct (Ascii.eqb_spec sep c); [congruence | reflexivity].
        -- specialize (IH EmptyString []). left. split; [reflexivity|].
           destruct r; [reflexivity|]. cbn in E.
           destruct (Ascii.eqb a sep); [discriminate|].
           destruct (split sep r); discriminate.
      * intros [= <- <-]. destruct (IH f fs eq_refl) as [Hf Hcase]. split.
        -- cbn. destruct (Ascii.eqb_spec sep c); [congruence | exact Hf].
        -- destruct Hcase as [[-> ->]|(s' & -> & Hs')].
           ++ left. split; reflexivity.
           ++ right. exists s'. split; [reflexivity | exact Hs'].
Qed.

Lemma split_nonempty (sep : ascii) (s : string) : split sep s <> [].
Proof.
  destruct s as [|c r]; cbn; [discriminate|].
  destruct (Ascii.eqb c sep); [discriminate|]. destruct (split sep r); discriminate.
Qed.

(** Two fields: the string is the first field, the separator, the
    second field, and neither field holds the separator. *)
Lemma split_two (sep : ascii) (s a b : string) :
  split sep s = [a; b] <->
  s = (a ++ String sep b)%string /\ contains sep a = false /\ contains sep b = false.
Proof.
  split.
  - intro H. destruct (split_cons sep s a [b] H) as [Ha [[Hrest _]|(s' & -> & Hs')]];
      [discriminate|].
    destruct (split_cons sep s' b [] Hs') as [Hb [[_ ->]|(s'' & _ & Hs'')]].
    + auto.
    + exfalso. exact (split_nonempty sep s'' Hs'').
  - intros (-> & Ha & Hb). rewrite split_app by assumption.
    rewrite split_none by assumption. reflexivity.
Qed.

Lemma all_chars_lstrip (p : ascii -> bool) (s : string) :
  all_chars p s = true -> all_chars p (lstrip s) = true.
Proof.
  induction s as [|c r IH]; cbn; [reflexivity|].
  intro H. destruct (isspace c); [|exact H].
  apply andb_true_iff in H as [_ Hr]. auto.
Qed.

Lemma all_chars_rstrip (p : ascii -> bool) (s : string) :
  all_chars p s = true -> all_chars p (rstrip s) = true.
Proof.
  induction s as [|c r IH]; cbn; [reflexivity|].
  intro H. apply andb_true_iff in H as [Hc Hr]. specialize (IH Hr).
  destruct (rstrip r) as [|x r'].
  - destruct (isspace c); cbn; [reflexivity|]. rewrite Hc. reflexivity.
  - cbn [all_chars] in *. rewrite Hc. exact IH.
Qed.

Lemma all_chars_strip (p : ascii -> bool) (s : string) :
  all_chars p s = true -> all_chars p (strip s) = true.
Proof. intro H. unfold strip. apply all_chars_rstrip, all_chars_lstrip, H. Qed.

(** What [strip] returns does not start with white space. *)
Lemma strip_head (s : string) :
  match strip s with
  | EmptyString => True
  | String c _ => isspace c = false
  end.
Proof.
  unfold strip.
  assert (Hl : match lstrip s with EmptyString => True | String c _ => isspace c = false end).
  { induction s as [|c r IH]; cbn; [exact I|].
    destruct (isspace c) eqn:E; [exact IH | exact E]. }
  destruct (lstrip s) as [|c r]; cbn; [exact I|].
  destruct (rstrip r); [rewrite Hl|]; exact Hl.
Qed.

Lemma strip_line_shaped (l : string) :
  line_shaped l -> all_chars no_newline (strip l) = true.
Proof.
  intros (body & Hbody & [->| ->]).
  - apply all_chars_strip. exact Hbody.
  - unfold line. rewrite strip_newline. apply all_chars_strip. exact Hbody.
Qed.

Lemma one_line_snoc (pre : string) (c : ascii) :
  one_line pre = true -> no_newline c = true ->
  one_line (pre ++ String c EmptyString)%string = true.
Proof.
  intros Hp Hc. unfold one_line in *. rewrite all_chars_app, Hp. cbn. rewrite Hc. reflexivity.
Qed.

Lemma readlines_from_shaped (n : nat) :
  forall s cur pre,
  (String.length s <= n)%nat ->
  (forall x, cur x = (pre ++ x)%string) -> one_line pre = true ->
  Forall line_shaped (readlines_from cur s).
Proof.
  induction n as [|n IH]; intros s cur pre Hlen Hcur Hpre.
  - destruct s; [|cbn in Hlen; lia]. cbn.
    destruct (cur EmptyString) eqn:E; constructor; [|constructor].
    exists pre. split; [exact Hpre|]. left. rewrite <- E, Hcur, append_empty. reflexivity.
  - destruct s as [|c r].
    + cbn. destruct (cur EmptyString) eqn:E; constructor; [|constructor].
      exists pre. split; [exact Hpre|]. left. rewrite <- E, Hcur, append_empty. reflexivity.
    + cbn in Hlen.
      assert (Hend : line_shaped (cur (String LF EmptyString))).
      { exists pre. split; [exact Hpre|]. right. rewrite Hcur. reflexivity. }
      assert (Hid : forall x : string, (fun y : string => y) x = (EmptyString ++ x)%string)
        by reflexivity.
      cbn [readlines_from].
      destruct (Ascii.eqb c LF) eqn:Hlf.
      * constructor; [exact Hend|].
        apply (IH r _ EmptyString); [lia | exact Hid | reflexivity].
      * destruct (Ascii.eqb c CR) eqn:Hcr.
        -- destruct r as [|d r'].
           ++ constructor; [exact Hend | constructor].
           ++ cbn in Hlen. destruct (Ascii.eqb d LF).
              ** constructor; [exact Hend|].
                 apply (IH r' _ EmptyString); [lia | exact Hid | reflexivity].
              ** constructor; [exact Hend|].
                 apply (IH (String d r') _ EmptyString); [cbn; lia | exact Hid | reflexivity].
        -- apply (IH r _ (pre ++ String c EmptyString)%string); [lia | |].
           ++ intro x. rewrite Hcur.
              rewrite PidFileFacts.append_assoc. reflexivity.
           ++ apply one_line_snoc; [exact Hpre|]. unfold no_newline. rewrite Hlf, Hcr. reflexivity.
Qed.

(** Every line of a text is a run without line break, with or without
    its terminator. *)
Lemma readlines_shaped (s : string) : Forall line_shaped (readlines s).
Proof.
  unfold readlines.
  apply (readlines_from_shaped (String.length s) s (fun x => x) EmptyString);
    [lia | reflexivity | reflexivity].
Qed.
End TextFacts.

(** ** The dictionary that is loaded *)

Module DictFacts.
Import Props PidFile.

Lemma keys_setitem (k : string) (v : Z) (d : dict) :
  keys (setitem k v d) = if existsb (String.eqb k) (keys d) then keys d else keys d ++ [k].
Proof.
  induction d as [|[k' v'] r IH]; cbn; [reflexivity|].
  rewrite (String.eqb_sym k k'). destruct (String.eqb k' k); cbn; [reflexivity|].
  unfold keys in *. rewrite IH.
  destruct (existsb (String.eqb k) (map fst r)); reflexivity.
Qed.

Lemma existsb_eqb_In (k : string) (l : list string) :
  existsb (String.eqb k) l = true <-> In k l.
Proof.
  rewrite existsb_exists. split.
  - intros (x & Hin & Heq). apply String.eqb_eq in Heq. subst. exact Hin.
  - intro H. exists k. split; [exact H | apply String.eqb_refl].
Qed.

Lemma NoDup_setitem (k : string) (v : Z) (d : dict) :
  NoDup (keys d) -> NoDup (keys (setitem k v d)).
Proof.
  intro H. rewrite keys_setitem.
  destruct (existsb (String.eqb k) (keys d)) eqn:E; [exact H|].
  apply NoDup_app; [exact H | repeat constructor; intros [] | ].
  intros x Hx [<-|[]]. apply existsb_eqb_In in Hx. congruence.
Qed.

Lemma getitem_setitem_same (k : string) (v : Z) (d : dict) :
  getitem k (setitem k v d) = Some v.
Proof.
  induction d as [|[k' v'] r IH]; cbn.
  - rewrite String.eqb_refl. reflexivity.
  - destruct (String.eqb k' k) eqn:E; cbn; rewrite E; [reflexivity | exact IH].
Qed.

Lemma getitem_setitem_other (k k' : string) (v : Z) (d : dict) :
  k' <> k -> getitem k' (setitem k v d) = getitem k' d.
Proof.
  intro Hne. induction d as [|[k0 v0] r IH]; cbn.
  - destruct (String.eqb_spec k k'); [congruence | reflexivity].
  - destruct (String.eqb_spec k0 k) as [->|H0]; cbn.
    + destruct (String.eqb_spec k k'); [congruence | reflexivity].
    + destruct (String.eqb k0 k'); [reflexivity | exact IH].
Qed.

Lemma Forall_keys_setitem (P : string -> Prop) (k : string) (v : Z) (d : dict) :
  P k -> Forall P (keys d) -> Forall P (keys (setitem k v d)).
Proof.
  intros Hk Hd. rewrite keys_setitem.
  destruct (existsb (String.eqb k) (keys d)); [exact Hd|].
  apply Forall_app. split; [exact Hd | repeat constructor; exact Hk].
Qed.
End DictFacts.

Module EntryFacts.
Import Props Outcomes PyStr PyStrFacts TextFacts PidFile PidFileFacts LoadFacts DictFacts.

Lemma parse_line_entry (l name : string) (pid : Z) :
  parse_line l = Entry name pid <->
  exists field,
    strip l = (name ++ String EQ field)%string
    /\ contains EQ name = false /\ contains EQ field = false
    /\ int field = Some pid.
Proof.
  unfold parse_line. split.
  - destruct (contains EQ (strip l)); [|discriminate].
    destruct (split EQ (strip l)) as [|a [|b [|c r]]] eqn:E; try discriminate.
    destruct (int b) as [n|] eqn:Hint; [|discriminate].
    intros [= <- <-]. apply split_two in E as (Hs & Ha & Hb).
    exists b. auto.
  - intros (field & Hs & Hn & Hf & Hint).
    rewrite Hs, contains_app. cbn [contains]. rewrite Ascii.eqb_refl, orb_true_r.
    rewrite (proj2 (split_two EQ _ name field)) by auto.
    rewrite Hint. reflexivity.
Qed.

(** The name of an entry read from a line of a text file can be written
    back. *)
Lemma entry_name_good (l name : string) (pid : Z) :
  line_shaped l -> parse_line l = Entry name pid -> good_name name = true.
Proof.
  intros Hshape Hentry.
  apply parse_line_entry in Hentry as (field & Hs & Hn & _).
  pose proof (strip_line_shaped l Hshape) as Hnl.
  pose proof (strip_head l) as Hhead.
  rewrite Hs in Hnl, Hhead. rewrite all_chars_app in Hnl.
  apply andb_true_iff in Hnl as [Hnl _].
  unfold good_name. apply andb_true_iff. split.
  - clear Hhead Hs.
    induction name as [|c r IH]; cbn [all_chars contains] in *; [reflexivity|].
    apply andb_true_iff in Hnl as [Hc Hr].
    rewrite Ascii.eqb_sym.
    destruct (Ascii.eqb EQ c); [discriminate|]. rewrite Hc. cbn [negb andb]. auto.
  - destruct name as [|c r]; [reflexivity|]. cbn in Hhead. rewrite Hhead. reflexivity.
Qed.

Lemma read_entries_nodup (lines : list string) :
  forall acc, NoDup (keys acc) -> NoDup (keys (fst (read_entries lines acc))).
Proof.
  induction lines as [|l ls IH]; intros acc H; cbn [read_entries]; [exact H|].
  destruct (parse_line l); [apply IH; exact H | | exact H].
  apply IH, NoDup_setitem, H.
Qed.

Lemma read_entries_good (lines : list string) :
  forall acc,
  Forall line_shaped lines ->
  Forall (fun k => good_name k = true) (keys acc) ->
  Forall (fun k => good_name k = true) (keys (fst (read_entries lines acc))).
Proof.
  induction lines as [|l ls IH]; intros acc Hl H; cbn [read_entries]; [exact H|].
  inversion Hl as [|? ? Hshape Hrest]; subst.
  destruct (parse_line l) eqn:E; [apply IH; assumption | | exact H].
  apply IH; [assumption|].
  apply Forall_keys_setitem; [|exact H]. eapply entry_name_good; eassumption.
Qed.

Lemma read_entries_not_set (name : string) (lines : list string) :
  forall acc, not_set_later name lines ->
  getitem name (fst (read_entries lines acc)) = getitem name acc.
Proof.
  induction lines as [|l ls IH]; intros acc H; cbn [read_entries]; [reflexivity|].
  inversion H as [|? ? Hl Hls]; subst.
  destruct (parse_line l) as [|n p|e] eqn:E; [apply IH; assumption | | reflexivity].
  rewrite IH by assumption. apply getitem_setitem_other.
  intros ->. exact (Hl p eq_refl).
Qed.

Lemma load_text_table (text : string) :
  NoDup (keys (fst (load_text text)))
  /\ Forall (fun kv => good_name (fst kv) = true) (fst (load_text text)).
Proof.
  unfold load_text. split.
  - apply read_entries_nodup. constructor.
  - pose proof (read_entries_good (readlines text) [] (readlines_shaped text)
                  (Forall_nil _)) as H.
    unfold keys in H. apply Forall_map in H. exact H.
Qed.
End EntryFacts.

Section Tables.
Context {O : OS}.
Import Props Outcomes PyStr PyStrFacts TextFacts PidFile PidFileFacts LoadFacts DictFacts
       EntryFacts.

Lemma get_running_pids_value (w w' : Run.world O) (pids : dict) :
  Run.get_running_pids w = (Ok pids, w') ->
  pids = match Run.pid_file w with
         | Some text => fst (load_text text)
         | None => []
         end.
Proof.
  unfold Run.get_running_pids. destruct (Run.pid_file w) as [text|]; [|congruence].
  destruct (load_text text) as [d [e|]]; cbn [fst]; [|congruence].
  destruct (is_Exception e); [|discriminate].
  unfold Run.bind, Run.print, Run.ret. cbn. congruence.
Qed.

(** X1.  Whatever the state file holds, the dictionary that
    [get_running_pids] returns has one entry per name. *)
Theorem loaded_table_distinct_names (w w' : Run.world O) (pids : dict) :
  Run.get_running_pids w = (Ok pids, w') -> NoDup (keys pids).
Proof.
  intro H. rewrite (get_running_pids_value _ _ _ H).
  destruct (Run.pid_file w) as [text|]; [apply load_text_table | constructor].
Qed.

(** X2.  When no line of the state file raises, the PID that
    [get_running_pids] returns for a name is the one of the last line
    that sets this name. *)
Theorem last_line_for_a_name_wins (w : Run.world O) (text : string)
        (before after : list string) (l name : string) (pid : Z) :
  Run.pid_file w = Some text ->
  readlines text = before ++ l :: after ->
  Forall (fun x => faults x = false) (readlines text) ->
  parse_line l = Entry name pid ->
  not_set_later name after ->
  exists pids, Run.get_running_pids w = (Ok pids, w)
               /\ getitem name pids = Some pid.
Proof.
  intros Hfile Hlines Hclean Hentry Hlater.
  exists (entries_of (readlines text)).
  split; [apply get_running_pids_clean; assumption|].
  unfold entries_of. rewrite Hlines in *.
  apply Forall_app in Hclean as [Hbefore _].
  rewrite read_entries_app by assumption.
  cbn [read_entries]. rewrite Hentry.
  rewrite read_entries_not_set by assumption.
  apply getitem_setitem_same.
Qed.

(** X3.  [get_running_pids] after [save_pids] returns the saved
    dictionary, entry for entry, for every dictionary with distinct
    names that hold no [=], no line break and no leading white space,
    and with any integers for PIDs (zero and negative ones too). *)
Theorem save_load_any_table (w : Run.world O) (pids : dict) :
  NoDup (keys pids) ->
  Forall (fun kv => good_name (fst kv) = true) pids ->
  Run.get_running_pids (snd (Run.save_pids pids w))
  = (Ok pids, snd (Run.save_pids pids w)).
Proof.
  intros Hnodup Hgood. unfold Run.get_running_pids.
  cbn [Run.save_pids snd Run.set_pid_file Run.pid_file].
  rewrite (load_text_render pids Hgood Hnodup). reflexivity.
Qed.

(** X4.  Whatever the state file holds, saving the dictionary that
    [get_running_pids] returned and reading the file again returns the
    same dictionary: what is loaded can always be written back. *)
Theorem load_save_load (w w' : Run.world O) (pids : dict) :
  Run.get_running_pids w = (Ok pids, w') ->
  Run.get_running_pids (snd (Run.save_pids pids w'))
  = (Ok pids, snd (Run.save_pids pids w')).
Proof.
  intro H. rewrite (get_running_pids_value _ _ _ H).
  unfold Run.get_running_pids.
  cbn [Run.save_pids snd Run.set_pid_file Run.pid_file].
  destruct (Run.pid_file w) as [text|]; [|reflexivity].
  destruct (load_text_table text) as [Hnodup Hgood].
  rewrite (load_text_render _ Hgood Hnodup). reflexivity.
Qed.

(** X5.  A line gives an entry exactly when, stripped of surrounding
    white space, it is a name, one [=] and a field that [int] accepts:
    the name is everything before the [=], as it stands. *)
Theorem line_is_entry (l name : string) (pid : Z) :
  parse_line l = Entry name pid <->
  exists field,
    strip l = (name ++ String EQ field)%string
    /\ contains EQ name = false /\ contains EQ field = false
    /\ int field = Some pid.
Proof. apply parse_line_entry. Qed.

End Tables.

(** ** What each command touches *)

Section Footprints.
Context {O : OS}.
Import Props Run RunFacts StepFacts Footprint FootprintFacts.

(** X6.  [cmd_status] only probes: a property of the machine that
    [os.kill(pid, 0)] and [connect_ex] keep still holds after the
    command, however it ends, and the state file is as before. *)
Theorem cmd_status_only_probes (I : env O -> Prop) (w : world O) :
  probes_keep I -> I (os w) ->
  I (os (snd (cmd_status w))) /\ pid_file (snd (cmd_status w)) = pid_file w.
Proof.
  intros HI Hw. split.
  - apply (probes_cmd_status I HI w Hw).
  - apply keeps_pid_file. unfold cmd_status. frame.
Qed.

(** X7.  [cmd_start] sends no signal: a property of the machine that
    the port probe, the install, the log, the launches, [poll], [sleep],
    [input] and the browser keep still holds after the command, however
    it ends. *)
Theorem cmd_start_sends_no_signal (I : env O -> Prop) (w : world O) :
  launches_keep I -> I (os w) -> I (os (snd (cmd_start w))).
Proof. intros HI Hw. apply (launches_cmd_start I HI w Hw). Qed.

(** X8.  [cmd_stop] launches nothing: a property of the machine that
    the probes, [getpgid], [killpg] with [SIGTERM] or [SIGKILL] and
    [sleep] keep still holds after the command, however it ends. *)
Theorem cmd_stop_launches_nothing (I : env O -> Prop) (w : world O) :
  signals_keep I -> I (os w) -> I (os (snd (cmd_stop w))).
Proof. intros HI Hw. apply (signals_cmd_stop I HI w Hw). Qed.

(** X9.  None of the helpers writes or removes the state file: only
    the commands do. *)
Theorem helpers_keep_state_file (w : world O) :
  pid_file (snd (start_backend w)) = pid_file w
  /\ pid_file (snd (start_frontend w)) = pid_file w
  /\ (forall name pid, pid_file (snd (stop_process name pid w)) = pid_file w)
  /\ (forall pid, pid_file (snd (is_process_running pid w)) = pid_file w)
  /\ (forall port, pid_file (snd (is_port_in_use port w)) = pid_file w)
  /\ pid_file (snd (get_running_pids w)) = pid_file w.
Proof.
  pose proof (@same_pid_file_frame O) as HR.
  split; [apply keeps_pid_file, respects_start_backend, HR|].
  split; [apply keeps_pid_file, respects_start_frontend, HR|].
  split; [intros; apply keeps_pid_file, respects_stop_process, HR|].
  split; [intros; apply keeps_pid_file, respects_is_process_running, HR|].
  split; [intros; apply keeps_pid_file, respects_is_port_in_use, HR|].
  apply keeps_pid_file, respects_get_running_pids, HR.
Qed.

End Footprints.

(** ** More on stopping *)

Section StopCommands.
Context {O : OS}.
Import Props Outcomes Run RunFacts StepFacts PidFile QuietFacts.
Local Open Scope run_scope.

(** X10.  For a PID in [pid_t], [stop_process] either is ended by its
    own signal, having printed nothing, or returns having printed
    exactly one line, which tells the result; it returns [False]
    exactly when the line is the one of a failure.  The state file is
    as before in both cases. *)
Theorem stop_process_one_line (w : world O) (name : label) (pid : Z) :
  in_pid_t pid = true ->
  (exists sig w1,
      stop_process name pid w = (Raise (Killed sig), w1)
      /\ fatal sig = true
      /\ stdout w1 = stdout w
      /\ pid_file w1 = pid_file w)
  \/ (exists b w1 m,
        stop_process name pid w = (Ok b, w1)
        /\ stdout w1 = stdout w ++ [m]
        /\ pid_file w1 = pid_file w
        /\ stop_line name pid m
        /\ (b = false <-> exists e, m = FailedToStop name e)).
Proof.
  intro Hpid.
  destruct (stop_process_out name pid w Hpid)
    as [(sig & w2 & Hs & Hsig & Hw)|(b & w1 & m & Hs & Hw & Hm & Hb)].
  - left. exists sig, w2. split; [exact Hs|]. split; [exact Hsig|].
    split; rewrite Hw; reflexivity.
  - right. exists b, w1, m. split; [exact Hs|].
    split; [rewrite Hw; reflexivity|]. split; [rewrite Hw; reflexivity|]. auto.
Qed.

Lemma stop_process_overflow (w : world O) (name : label) (pid : Z) :
  in_pid_t pid = false -> stop_process name pid w = (Raise OverflowError, w).
Proof.
  intro Hpid. unfold stop_process.
  erewrite bind_raise by (apply probe_overflow; exact Hpid). reflexivity.
Qed.

(** X11.  What leaves [stop_process] without a returned value: an
    [OverflowError] for a PID outside [pid_t], raised by the probe
    before anything is done, or the end of the script by a signal that
    reached it; every exception of the signalling is caught. *)
Theorem stop_process_raises (w w' : world O) (name : label) (pid : Z) (e : exn) :
  stop_process name pid w = (Raise e, w') ->
  (in_pid_t pid = false /\ e = OverflowError /\ w' = w)
  \/ (in_pid_t pid = true
      /\ exists sig, e = Killed sig /\ fatal sig = true /\ stdout w' = stdout w).
Proof.
  destruct (in_pid_t pid) eqn:Hpid.
  - destruct (stop_process_out name pid w Hpid)
      as [(sig & w2 & Hs & Hsig & Hw)|(b & w1 & m & Hs & _)]; [|congruence].
    rewrite Hs. intros [= <- <-]. right. split; [reflexivity|].
    exists sig. split; [reflexivity|]. split; [exact Hsig|]. rewrite Hw. reflexivity.
  - rewrite (stop_process_overflow w name pid Hpid). intros [= <- <-]. left. auto.
Qed.

Lemma stop_all_app (a b : dict) (w : world O) :
  stop_all (a ++ b) w = (stop_all a ;; stop_all b) w.
Proof.
  revert w. induction a as [|[name pid] r IH]; intro w; cbn [stop_all app]; [reflexivity|].
  rewrite bind_assoc.
  destruct (stop_process (Capitalize name) pid w) as [[ok|e] w1] eqn:E.
  - erewrite !bind_ok by exact E. apply IH.
  - erewrite !bind_raise by exact E. reflexivity.
Qed.

Lemma stop_all_overflow (before after : dict) (name : string) (pid : Z) (w wb : world O) :
  stop_all before w = (Ok tt, wb) ->
  in_pid_t pid = false ->
  stop_all (before ++ (name, pid) :: after) w = (Raise OverflowError, wb).
Proof.
  intros H1 Hpid. rewrite stop_all_app.
  erewrite bind_ok by exact H1. cbn [stop_all].
  erewrite bind_raise by (apply stop_process_overflow; exact Hpid). reflexivity.
Qed.

(** X12.  A PID outside [pid_t] in the state file makes [cmd_stop]
    raise [OverflowError] at its entry: the entries before it have been
    handled, the ones after it are not, and the state file is not
    removed. *)
Theorem cmd_stop_overflow (w w1 wb : world O) (before after : dict) (name : string)
        (pid : Z) :
  get_running_pids (printed (banner CmdStop) w)
  = (Ok (before ++ (name, pid) :: after), w1) ->
  stop_all before w1 = (Ok tt, wb) ->
  in_pid_t pid = false ->
  cmd_stop w = (Raise OverflowError, wb) /\ pid_file wb = pid_file w.
Proof.
  intros Hload Hbefore Hpid.
  assert (Hstop : cmd_stop w = (Raise OverflowError, wb)).
  { unfold cmd_stop. rewrite !bind_print, banner_printed.
    erewrite bind_ok by exact Hload.
    replace (truthy (before ++ (name, pid) :: after)) with true
      by (destruct before; reflexivity).
    cbn [negb].
    erewrite bind_raise; [reflexivity|].
    erewrite bind_raise; [reflexivity|].
    apply stop_all_overflow; assumption. }
  split; [exact Hstop|].
  pose proof (keeps_pid_file (stop_all before) w1
                (respects_stop_all _ same_pid_file_frame before)) as Hk.
  rewrite Hbefore in Hk. cbn [snd] in Hk. rewrite Hk.
  apply get_running_pids_world in Hload as [Hfile _]. exact Hfile.
Qed.

Lemma report_port_run (port : Z) (w : world O) :
  report_port port w
  = (Ok tt, printed [port_line port (fst (sys_connect_ex O port (os w)))]
              (set_os (snd (sys_connect_ex O port (os w))) w)).
Proof.
  unfold report_port, is_port_in_use, bind, call, ret, port_line.
  destruct (sys_connect_ex O port (os w)) as [rc e1]. cbn [fst snd].
  destruct (rc =? 0); reflexivity.
Qed.

(** X13.  With no entry loaded, [cmd_stop] sends no signal and does
    not touch the state file: it probes the backend port, then the
    frontend port, prints one line for each and the closing lines, and
    returns. *)
Theorem cmd_stop_nothing_tracked (w w1 : world O) (pids : dict) :
  get_running_pids (printed (banner CmdStop) w) = (Ok pids, w1) ->
  truthy pids = false ->
  let probe1 := sys_connect_ex O BACKEND_PORT (os w) in
  let probe2 := sys_connect_ex O FRONTEND_PORT (snd probe1) in
  cmd_stop w
  = (Ok tt,
     {| pid_file := pid_file w;
        stdout := stdout w1
                  ++ [NoServersTracked; CheckingPorts;
                      port_line BACKEND_PORT (fst probe1);
                      port_line FRONTEND_PORT (fst probe2);
                      RuleBefore; ShutdownComplete; RuleAfter];
        os := snd probe2 |}).
Proof.
  intros Hload Hempty probe1 probe2.
  destruct (get_running_pids_world _ _ _ Hload) as [Hfile Hos]. cbn in Hfile, Hos.
  unfold cmd_stop. rewrite !bind_print, banner_printed.
  erewrite bind_ok by exact Hload. rewrite Hempty. cbn [negb].
  rewrite bind_assoc, bind_print. rewrite bind_assoc, bind_print. rewrite bind_assoc.
  unfold bind at 1. rewrite report_port_run. cbv beta iota.
  unfold bind at 1. rewrite report_port_run. cbv beta iota.
  rewrite !bind_print.
  unfold print, printed, set_os. cbn. rewrite Hos, Hfile.
  fold probe1. fold probe2. rewrite <- !app_assoc. reflexivity.
Qed.

End StopCommands.

(** ** The prompt of [cmd_start], and [cmd_restart] *)

Section Starting.
Context {O : OS}.
Import Props Outcomes Run RunFacts StepFacts PidFile QuietFacts.
Local Open Scope run_scope.

(** X14.  [start_backend] with a free port: the modules are
    installed when they are missing, the log file is emptied, the server
    is spawned and, two seconds later, polled.  A server that has exited
    by then gives [None], after the contents of the log were printed; a
    server that is up gives its PID.  Nothing else is done on the
    machine. *)
Theorem start_backend_launch (w : world O) (e1 e3 e5 : env O) (child : positive)
        (code : option Z) :
  let probe := sys_connect_ex O BACKEND_PORT (os w) in
  fst probe <> 0 ->
  modules_ready (snd probe) e1 ->
  popen O Backend (log_truncate O e1) = (Ok child, e3) ->
  poll O child (sys_sleep O 2000 e3) = (code, e5) ->
  let installing := if node_modules_exists O (snd probe) then [] else [InstallingDeps] in
  start_backend w
  = match code with
    | Some _ =>
        (Ok None,
         printed (StartingBackend :: installing
                  ++ [BackendFailed; LogContents (log_read O e5)]) (set_os e5 w))
    | None =>
        (Ok (Some (Zpos child)),
         printed (StartingBackend :: installing
                  ++ [BackendStarted (Zpos child); LogsAt; ViewLogsHint]) (set_os e5 w))
    end.
Proof.
  intros probe Hfree Hready Hpopen Hpoll installing. subst probe installing.
  apply Z.eqb_neq in Hfree.
  unfold start_backend. rewrite bind_print.
  erewrite bind_ok by apply is_port_in_use_run.
  cbn [os printed]. rewrite Hfree.
  erewrite bind_ok by reflexivity. cbn [os set_os printed].
  set (e0 := snd (sys_connect_ex O BACKEND_PORT (os w))) in *.
  assert (Hspawn : forall w0 : world O,
            os w0 = e1 ->
            (effect (log_truncate O) ;;
             child <- call_result (popen O Backend) ;;
             sleep 2000 ;;
             code <- call (poll O child) ;;
             match code with
             | Some _ =>
                 print BackendFailed ;;
                 text <- ask (log_read O) ;;
                 print (LogContents text) ;;
                 ret None
             | None =>
                 print (BackendStarted (Zpos child)) ;;
                 print LogsAt ;;
                 print ViewLogsHint ;;
                 ret (Some (Zpos child))
             end) w0
            = match code with
              | Some _ =>
                  (Ok None,
                   printed [BackendFailed; LogContents (log_read O e5)] (set_os e5 w0))
              | None =>
                  (Ok (Some (Zpos child)),
                   printed [BackendStarted (Zpos child); LogsAt; ViewLogsHint]
                           (set_os e5 w0))
              end).
  { intros w0 H0. unfold bind at 1, effect. unfold bind at 1, call_result.
    cbn [os set_os]. rewrite H0, Hpopen. cbv beta iota.
    unfold bind at 1, sleep, effect. unfold bind at 1, call. cbn [os set_os].
    rewrite Hpoll. cbv beta iota.
    destruct code as [rc|]; rewrite !bind_print; unfold bind, ask, print, ret, printed, set_os;
      cbn; rewrite <- ?app_assoc; reflexivity. }
  destruct Hready as [[Hmod ->]|[Hmod Hinst]]; rewrite Hmod; cbn [negb when].
  - rewrite bind_ret, Hspawn by reflexivity.
    destruct code; unfold printed, set_os; cbn; rewrite <- !app_assoc; reflexivity.
  - rewrite bind_assoc, bind_print, bind_assoc.
    assert (Hrun : call_result (run_npm_install O)
                     (printed [InstallingDeps] (set_os e0 (printed [StartingBackend] w)))
                   = (Ok 0, set_os e1 (printed [InstallingDeps]
                                         (set_os e0 (printed [StartingBackend] w))))).
    { unfold call_result. cbn [os set_os printed]. rewrite Hinst. reflexivity. }
    erewrite bind_ok by exact Hrun. cbn [Z.eqb]. rewrite bind_ret, Hspawn by reflexivity.
    destruct code; unfold printed, set_os; cbn; rewrite <- !app_assoc; reflexivity.
Qed.

Lemma launched_both (b f : Z) :
  b <> 0 -> f <> 0 ->
  launched (Some b) (Some f) = [("backend", b); ("frontend", f)].
Proof.
  intros Hb Hf. apply Z.eqb_neq in Hb, Hf.
  unfold launched, record_pid, pid_truthy. rewrite Hb, Hf. reflexivity.
Qed.

(** X15.  When both launches gave a PID, [cmd_start] saves the two
    PIDs, prints the closing lines and asks whether to open the
    browser: every answer but [n] (in any case, with white space
    around it) opens it; a closed input or an interrupt at the prompt
    is caught and the command still returns; any other exception of the
    prompt leaves the command, after the state file was written. *)
Theorem cmd_start_prompt (w w1 w2 : world O) (b f : Z) (r : result string) (e : env O) :
  start_backend (printed (banner CmdStart) w) = (Ok (Some b), w1) ->
  start_frontend (printed [Blank] w1) = (Ok (Some f), w2) ->
  read_input O (os w2) = (r, e) ->
  let saved := Some (render [("backend", b); ("frontend", f)]) in
  let asked := printed [RuleBefore; AllStarted; OpenBrowserAt; BackendApiAt; StopHint]
                       (set_pid_file saved w2) in
  cmd_start w
  = match prompt_result r with
    | Ok _ => (Ok tt, printed [RuleAfter] (set_os (after_prompt r e) asked))
    | Raise x => (Raise x, set_os e asked)
    end.
Proof.
  intros Hb Hf Hin saved asked.
  pose proof (start_backend_pid _ _ _ Hb) as Tb.
  pose proof (start_frontend_pid _ _ _ Hf) as Tf.
  cbn in Tb, Tf. apply negb_true_iff, Z.eqb_neq in Tb, Tf.
  unfold cmd_start. rewrite !bind_print, banner_printed.
  erewrite bind_ok by exact Hb. cbv zeta. rewrite bind_print.
  erewrite bind_ok by exact Hf.
  fold (launched (Some b) (Some f)). rewrite (launched_both b f Tb Tf).
  cbn [truthy when mem getitem String.eqb Ascii.eqb Bool.eqb andb].
  rewrite bind_save_pids, bind_print.
  do 4 rewrite bind_assoc, bind_print.
  rewrite !printed_printed. cbn [app]. fold saved. fold asked.
  assert (Hask : call_result (read_input O) asked = (r, set_os e asked)).
  { unfold call_result. cbn [os asked printed set_pid_file]. rewrite Hin. reflexivity. }
  unfold bind at 1, try_except.
  destruct r as [response|x].
  - erewrite bind_ok by exact Hask.
    unfold when, after_prompt, declines, prompt_result.
    destruct (String.eqb (PyStr.lower (PyStr.strip response)) "n"); reflexivity.
  - erewrite bind_raise by exact Hask. destruct x; reflexivity.
Qed.




End Starting.

(** ** The commands on the POSIX machine *)

Section PosixProbe.
Import Props Run Posix PosixProps PosixFacts.

(** X17.  On the POSIX machine [is_process_running] changes nothing
    and answers for every PID: it raises [OverflowError] outside
    [pid_t]; otherwise it returns whether the null signal finds a
    receiver, which for a positive PID is the script itself or a process
    with this PID that the script may signal.  A process of another
    user counts as not running. *)
Theorem probe_on_posix (w : world posix) (pid : Z) :
  is_process_running pid w
  = (if in_pid_t pid then (Ok (answers (os w) pid), w) else (Raise OverflowError, w))
  /\ (0 < pid ->
      answers (os w) pid
      = (pid =? self_pid (os w))
        || existsb (fun p => (p_pid p =? pid) && p_allows p 0) (procs (os w))).
Proof.
  split.
  - destruct (in_pid_t pid) eqn:Hpid.
    + apply probe_posix. exact Hpid.
    + apply probe_overflow. exact Hpid.
  - intro Hpos. apply Z.ltb_lt in Hpos.
    unfold answers, addresses_self, addressed. rewrite Hpos. reflexivity.
Qed.

End PosixProbe.

Section PosixStop.
Import Props Outcomes Run RunFacts StepFacts Posix PosixProps PosixFacts.
Local Open Scope run_scope.


End PosixStop.

(** ** The command line *)

Module CliFacts.
Import PyStr Cli CliProps.

Lemma lower_char_idem (c : ascii) : lower_char (lower_char c) = lower_char c.
Proof.
  destruct c as [[] [] [] [] [] [] [] []]; vm_compute; reflexivity.
Qed.

Lemma lower_idem (s : string) : lower (lower s) = lower s.
Proof.
  induction s as [|c r IH]; cbn [lower]; [reflexivity|].
  rewrite lower_char_idem, IH. reflexivity.
Qed.

Section Main.
Context {X : OSx}.

Lemma finish_not_exit (r : result unit * session X) (code : Z) :
  fst (finish r) <> Exits code.
Proof. unfold finish. cbn. destruct (fst r); discriminate. Qed.

Lemma main_dispatch (argv : list string) (s : session X) :
  match command_of argv with
  | Some command =>
      if known command
      then (forall code, fst (main argv s) <> Exits code)
      else main argv s = (Exits 1, print_usage (say (UnknownCommand command) s))
  | None => main argv s = (Exits 1, print_usage s)
  end.
Proof.
  destruct argv as [|prog [|arg rest]]; cbn [command_of]; try reflexivity.
  unfold known, main. cbn [existsb].
  repeat match goal with
         | |- context [String.eqb (lower arg) ?c] =>
             destruct (String.eqb (lower arg) c); cbn [orb];
             [intro code; try apply finish_not_exit; try discriminate|]
         end.
  reflexivity.
Qed.

End Main.

End CliFacts.

Section CommandLine.
Context {X : Cli.OSx}.
Import PyStr Cli CliProps CliFacts.

(** X19.  [main] exits with a status only through [sys.exit(1)]:
    it does so exactly when no command is given or the command, lowered,
    is none of the nine words it knows; it has then touched neither the
    state file nor the machine and printed the usage text, after the
    line about the unknown command if there was one. *)
Theorem main_exit_status (argv : list string) (s : session X) :
  (forall code, fst (main argv s) = Exits code -> code = 1)
  /\ (fst (main argv s) = Exits 1
      <-> match command_of argv with Some c => known c = false | None => True end)
  /\ (fst (main argv s) = Exits 1 ->
      file (snd (main argv s)) = file s
      /\ machine (snd (main argv s)) = machine s
      /\ lines (snd (main argv s))
         = lines s ++ match command_of argv with
                      | Some c => [UnknownCommand c; UsageText]
                      | None => [UsageText]
                      end).
Proof.
  pose proof (main_dispatch argv s) as H.
  destruct (command_of argv) as [c|].
  - destruct (known c).
    + split; [intros code Hc; exfalso; exact (H code Hc)|].
      split; [split; [intro Hc; exfalso; exact (H 1 Hc) | discriminate]|].
      intro Hc. exfalso. exact (H 1 Hc).
    + rewrite H. cbn [fst snd]. split; [intros code [= <-]; reflexivity|].
      split; [split; reflexivity|]. intros _. cbn. rewrite <- app_assoc. auto.
  - rewrite H. cbn [fst snd]. split; [intros code [= <-]; reflexivity|].
    split; [split; auto|]. intros _. cbn. auto.
Qed.

(** X20.  [main] looks at the second element of [sys.argv] only, and
    only at its lowered form: the program name, the further arguments
    and the case of the command make no difference. *)
Theorem main_ignores_case (prog prog' arg : string) (rest rest' : list string)
        (s : session X) :
  main (prog :: arg :: rest) s = main (prog' :: lower arg :: rest') s.
Proof. unfold main. rewrite lower_idem. reflexivity. Qed.

(** X21.  [logs]: without a log file one line is printed and the
    command returns; with one, three lines are printed and [tail] runs.
    An interrupt of [tail] is caught and answered with one more line;
    any other exception of the launch leaves [main] uncaught; the
    return code of [tail] is not looked at.  The state file is never
    touched. *)
Theorem logs_command (prog arg : string) (rest : list string) (s : session X) :
  lower arg = "logs" ->
  let tail := run_tail X (machine s) in
  let following := {| file := file s;
                      lines := lines s ++ [ShowingLogs; PressCtrlCToStop; WideRule];
                      machine := snd tail |} in
  main (prog :: arg :: rest) s
  = if log_exists (base X) (machine s) then
      match fst tail with
      | Ok _ => (Returns, following)
      | Raise KeyboardInterrupt => (Returns, say StoppedWatching following)
      | Raise e => (Uncaught e, following)
      end
    else (Returns, say NoLogFile s).
Proof.
  intros Harg tail following. unfold main. rewrite Harg. cbn [String.eqb Ascii.eqb Bool.eqb].
  unfold cmd_logs, finish.
  destruct (log_exists (base X) (machine s)); cbn [negb]; [|reflexivity].
  cbn [machine say]. subst following tail.
  destruct (run_tail X (machine s)) as [[rc|e] e1]; cbn [fst snd].
  - unfold set_machine, say. cbn. rewrite <- !app_assoc. reflexivity.
  - destruct e; unfold set_machine, say; cbn; rewrite <- !app_assoc; reflexivity.
Qed.

End CommandLine.

(** ** More concrete runs *)

Section MoreRuns.
Import Props PyStr Run Posix Scenarios PidFile.
Import Outcomes Footprint PosixProps MoreScenarios.
Import PosixFacts.

Lemma loaded_table_distinct_names_witness :
  let w := start_in idle (Some (line "a=1" ++ line "b=2" ++ line "a=3")%string) in
  get_running_pids w = (Ok [("a", 3); ("b", 2)], w)
  /\ NoDup (keys [("a", 3); ("b", 2)]).
Proof.
  intro w. split; [reflexivity|].
  exact (loaded_table_distinct_names (O := posix) w w [("a", 3); ("b", 2)] eq_refl).
Defined.

Lemma last_line_for_a_name_wins_witness :
  let w := start_in idle (Some (line "a=1" ++ line "b=2" ++ line "a=3" ++ line "b=5")%string) in
  exists pids, get_running_pids w = (Ok pids, w) /\ getitem "a" pids = Some 3.
Proof.
  intro w.
  refine (last_line_for_a_name_wins (O := posix) w
            (line "a=1" ++ line "b=2" ++ line "a=3" ++ line "b=5")%string
            [line "a=1"; line "b=2"] [line "b=5"] (line "a=3") "a" 3
            eq_refl eq_refl _ eq_refl _).
  - repeat constructor.
  - constructor; [|constructor]. intros pid H. vm_compute in H. discriminate H.
Defined.

Lemma load_save_load_witness :
  let w := start_in idle (Some (line "web ui= 12 " ++ line "# note")%string) in
  get_running_pids w = (Ok [("web ui", 12)], w)
  /\ get_running_pids (snd (save_pids [("web ui", 12)] w))
     = (Ok [("web ui", 12)], snd (save_pids [("web ui", 12)] w)).
Proof.
  intro w. split; [reflexivity|].
  exact (load_save_load (O := posix) w w [("web ui", 12)] eq_refl).
Defined.

Lemma save_load_any_table_witness :
  let pids := [("backend", 0); ("my service", -7)] in
  get_running_pids (snd (save_pids pids (start_in idle None)))
  = (Ok pids, snd (save_pids pids (start_in idle None))).
Proof.
  intro pids.
  refine (save_load_any_table (O := posix) (start_in idle None) pids _ _).
  - repeat constructor; cbn; intuition discriminate.
  - repeat constructor.
Defined.

Lemma cmd_status_only_probes_witness :
  let w := start_in serving (Some (render both_services)) in
  os (snd (cmd_status w)) = serving
  /\ pid_file (snd (cmd_status w)) = Some (render both_services).
Proof.
  intro w.
  exact (cmd_status_only_probes (O := posix) (fun m => m = serving) w
           (posix_probes_keep serving) eq_refl).
Defined.

Lemma cmd_start_sends_no_signal_witness :
  live (os (snd (cmd_start (start_in backend_busy None)))) 300 = true.
Proof.
  exact (cmd_start_sends_no_signal (O := posix) (fun m => live m 300 = true)
           (start_in backend_busy None) (posix_launches_keep 300) eq_refl).
Defined.

Lemma cmd_stop_launches_nothing_witness :
  let w := start_in serving (Some (render both_services)) in
  next_pid (os (snd (cmd_stop w))) = 501%positive /\ log (os (snd (cmd_stop w))) = None.
Proof.
  intro w.
  exact (cmd_stop_launches_nothing (O := posix)
           (fun m => next_pid m = 501%positive /\ log m = None) w
           (posix_signals_keep 501%positive None) (conj eq_refl eq_refl)).
Defined.

Lemma stop_process_one_line_witness :
  let w := start_in serving None in
  in_pid_t 501 = true
  /\ ((exists sig w1,
         stop_process (Capitalize "backend") 501 w = (Raise (Killed sig), w1)
         /\ fatal sig = true /\ stdout w1 = stdout w /\ pid_file w1 = pid_file w)
      \/ (exists b w1 m,
            stop_process (Capitalize "backend") 501 w = (Ok b, w1)
            /\ stdout w1 = stdout w ++ [m]
            /\ pid_file w1 = pid_file w
            /\ stop_line (Capitalize "backend") 501 m
            /\ (b = false <-> exists e, m = FailedToStop (Capitalize "backend") e))).
Proof.
  intro w. split; [reflexivity|].
  exact (stop_process_one_line (O := posix) w (Capitalize "backend") 501 eq_refl).
Defined.

Lemma stop_process_raises_witness :
  let w := start_in serving None in
  stop_process (Capitalize "backend") 99999999999 w = (Raise OverflowError, w)
  /\ ((in_pid_t 99999999999 = false /\ OverflowError = OverflowError /\ w = w)
      \/ (in_pid_t 99999999999 = true
          /\ exists sig, OverflowError = Killed sig /\ fatal sig = true
                         /\ stdout w = stdout w)).
Proof.
  intro w. split; [reflexivity|].
  exact (stop_process_raises (O := posix) w w (Capitalize "backend") 99999999999
           OverflowError eq_refl).
Defined.

Lemma cmd_stop_nothing_tracked_witness :
  cmd_stop (start_in both_busy None)
  = (Ok tt,
     {| pid_file := None;
        stdout := banner CmdStop
                  ++ [NoServersTracked; CheckingPorts;
                      PortInUseHint BACKEND_PORT; PortInUseHint FRONTEND_PORT;
                      RuleBefore; ShutdownComplete; RuleAfter];
        os := (both_busy : env posix) |}).
Proof.
  exact (cmd_stop_nothing_tracked (O := posix) (start_in both_busy None)
           (printed (banner CmdStop) (start_in both_busy None)) [] eq_refl eq_refl).
Defined.

Lemma logs_command_witness :
  Cli.main ["run.py"; "LOGS"] (session_in logged None)
  = (Cli.Returns,
     {| Cli.file := None;
        Cli.lines := [Cli.ShowingLogs; Cli.PressCtrlCToStop; Cli.WideRule;
                      Cli.StoppedWatching];
        Cli.machine := (logged : env (Cli.base watching)) |}).
Proof.
  exact (logs_command (X := watching) "run.py" "LOGS" [] (session_in logged None) eq_refl).
Defined.

Lemma cmd_stop_overflow_witness :
  let w := start_in serving
             (Some (line "backend=501" ++ line "frontend=99999999999")%string) in
  let wb := snd (stop_all [("backend", 501)] (printed (banner CmdStop) w)) in
  in_pid_t 99999999999 = false
  /\ cmd_stop w = (Raise OverflowError, wb)
  /\ pid_file wb = pid_file w.
Proof.
  intros w wb. split; [reflexivity|].
  refine (cmd_stop_overflow (O := posix) w (printed (banner CmdStop) w) wb
            [("backend", 501)] [] "frontend" 99999999999 _ _ eq_refl).
  - vm_compute. reflexivity.
  - vm_compute. reflexivity.
Defined.


Lemma cmd_start_prompt_witness :
  let w := start_in no_answer None in
  let w1 := snd (start_backend (printed (banner CmdStart) w)) in
  let w2 := snd (start_frontend (printed [Blank] w1)) in
  let asked := printed [RuleBefore; AllStarted; OpenBrowserAt; BackendApiAt; StopHint]
                       (set_pid_file (Some (render both_services)) w2) in
  cmd_start w = (Ok tt, printed [RuleAfter] (set_os (os w2) asked)).
Proof.
  intros w w1 w2 asked.
  assert (Hb : start_backend (printed (banner CmdStart) w) = (Ok (Some 501), w1))
    by (vm_compute; reflexivity).
  assert (Hf : start_frontend (printed [Blank] w1) = (Ok (Some 502), w2))
    by (vm_compute; reflexivity).
  assert (Hin : read_input posix (os w2) = (Raise EOFError, os w2))
    by (vm_compute; reflexivity).
  exact (cmd_start_prompt (O := posix) w w1 w2 501 502 (Raise EOFError) (os w2) Hb Hf Hin).
Defined.


Lemma start_backend_launch_witness :
  let w := start_in idle None in
  let e3 := snd (popen posix Backend (log_truncate posix idle)) in
  let e5 := snd (poll posix 501%positive (sys_sleep posix 2000 e3)) in
  start_backend w
  = (Ok (Some 501),
     printed [StartingBackend; BackendStarted 501; LogsAt; ViewLogsHint]
             (set_os (O := posix) e5 w)).
Proof.
  intros w e3 e5.
  assert (Hfree : fst (sys_connect_ex posix BACKEND_PORT (os w)) <> 0)
    by (intro H; vm_compute in H; discriminate H).
  assert (Hready : modules_ready (O := posix) (snd (sys_connect_ex posix BACKEND_PORT (os w)))
                                 idle)
    by (left; split; reflexivity).
  assert (Hpopen : popen posix Backend (log_truncate posix idle) = (Ok 501%positive, e3))
    by (vm_compute; reflexivity).
  assert (Hpoll : poll posix 501%positive (sys_sleep posix 2000 e3) = (None, e5))
    by (vm_compute; reflexivity).
  exact (start_backend_launch (O := posix) w idle e3 e5 501%positive None
           Hfree Hready Hpopen Hpoll).
Defined.

End MoreRuns.
